(** * Investability scoring and its change triggers

    A shallow embedding of the backend's scoring core:
    - [services/investability.ts]  (InvestabilityService),
    - [services/notification.ts]   (NotificationService),
    - the route handlers that call the change trigger
      ([routes/kyc.ts], [routes/financials.ts], [routes/files.ts],
      [routes/score.ts]) with the part of [services/file.ts] they use, and
      the body validation of [middleware/security.ts] in front of the two
      POST routes that take a body.

    Conventions of the embedding.
    - A JavaScript [number] holding a count or a point value is a [Z].  The
      monetary fields ([revenue], [targetRaise]) are finite IEEE-754 doubles
      ([Double.t]); a double is used through the rational it denotes, and
      [/] and [*] round their exact result to the nearest double, ties to
      the even mantissa ([round64]).  [Math.round] is exact on a double: the
      nearest integer, ties toward plus infinity.  NaN and the infinities are
      outside the model, and so is the rounding of a sum of points (sums are
      exact below 2^53).  The kernel's own floats appear only in examples
      that compare [round64] with the machine.
    - The Prisma tables are explicit state: [company] is a finite map keyed by
      the [id] column, the other tables are lists in insertion order.
    - [async] functions are functions on that state; a rejected promise / a
      thrown [Error] is the [Throw] result.  Writes made before a throw stay
      (there is no transaction in the source).
    - What the source draws from its environment ([new Date()], [uuid()],
      [Math.random()], the upload pipeline's verdict on a file) is a field of
      [Env]. *)

From Stdlib Require Import ZArith QArith Qround Qminmax Qabs Qpower Lqa Floats.
From Stdlib Require Import Ascii String List DecimalString Lia.
From stdpp Require Import base gmap strings list sorting.
Import ListNotations.

Local Open Scope string_scope.
Local Open Scope Z_scope.

(** ** JavaScript primitives used by the services *)

(** *** Numbers that are not integers: IEEE-754 binary64 *)

(** A finite double is [mantissa * 2 ^ exponent] with a mantissa below 2^53
    in magnitude and an exponent from -1074 (the subnormals) to 971. *)
Definition double_ok (m e : Z) : bool :=
  (Z.abs m <? 2 ^ 53) && (-1074 <=? e) && (e <=? 971).

Module Double.
Record t := mk {
  mantissa : Z;
  exponent : Z;
  valid : double_ok mantissa exponent = true
}.

(** The number a double denotes. *)
Definition value (d : t) : Q := (inject_Z (mantissa d) * 2 ^ exponent d)%Q.
End Double.

Coercion Double.value : Double.t >-> Q.

(** The integer nearest to [q], a tie going to the even one. *)
Definition round_half_even (q : Q) : Z :=
  let f := Qfloor q in
  match (q - inject_Z f ?= 1 # 2)%Q with
  | Lt => f
  | Gt => f + 1
  | Eq => if Z.even f then f else f + 1
  end.

(** [floor (log2 |x|)] for [x <> 0], from the bit lengths of the numerator
    and the denominator. *)
Definition ilog2 (x : Q) : Z :=
  let l := Z.log2 (Z.abs (Qnum x)) - Z.log2 (Zpos (Qden x)) in
  if Qle_bool (2 ^ l) (Qabs x) then l else l - 1.

(** The exponent of the last mantissa bit of the doubles around [x]: 52
    places below the leading bit of [x], and -1074 in the subnormal range. *)
Definition ulp_exponent (x : Q) : Z := Z.max (ilog2 x - 52) (-1074).

(** Rounding a magnitude to the nearest multiple of [2 ^ ulp_exponent], ties
    to the even multiple. *)
Definition round64_magnitude (a : Q) : Q :=
  let e := ulp_exponent a in
  (inject_Z (round_half_even (a / 2 ^ e)) * 2 ^ e)%Q.

(** The double nearest to the real number [x] (sign and magnitude), as the
    rational it denotes: it is a double ([round64_is_double]), no double is
    nearer to [x] ([round64_nearest]), and of two nearest ones it is the one
    with the even mantissa.  Overflow to an infinity, at 2^1024, is not
    represented: the quotient and the product formed below stay under 2^1010
    for every revenue ([revenue_product_finite]). *)
Definition round64 (x : Q) : Q :=
  if Qle_bool 0 x then round64_magnitude x else (- round64_magnitude (- x))%Q.

(** Half of the smallest subnormal, 2^-1075: the largest error of a rounding
    in the subnormal range. *)
Definition half_ulp_min : Q := (2 ^ (-1075))%Q.

(** [x / y] and [x * y] on doubles: the exact result, correctly rounded. *)
Definition fdiv (x y : Q) : Q := round64 (x / y).
Definition fmul (x y : Q) : Q := round64 (x * y).

(** [Math.round x]: the integer closest to [x], ties going up; exact on a
    double. *)
Definition Math_round (x : Q) : Z := Qfloor (x + (1 # 2))%Q.

(** [Math.min] on integer-valued numbers. *)
Definition Math_min (a b : Z) : Z := Z.min a b.

(** [a >= b] and [a < b] on numbers. *)
Definition Qgeb (a b : Q) : bool := Qle_bool b a.
Definition Qltb (a b : Q) : bool := negb (Qle_bool b a).

(** [`${n}`] for an integer-valued number. *)
Definition Number_toString (n : Z) : string := NilZero.string_of_int (Z.to_int n).

(** The double-quote character inside a template literal. *)
Definition dquote : string := String (ascii_of_nat 34) EmptyString.

(** [new Error(message)]. *)
Record JsError := Error { err_message : string }.

Inductive Result (A : Type) : Type :=
| Ok (a : A)
| Throw (e : JsError).
Arguments Ok {A} a.
Arguments Throw {A} e.

(** ** Data model (the Prisma rows the services read and write) *)

Record Company := mkCompany {
  company_userId : string;
  company_name : string;
  sector : string;
  targetRaise : Double.t;   (* z.number().positive() on creation *)
  revenue : Double.t;       (* z.number().nonnegative() on creation *)
  kycVerified : bool;
  financialsLinked : bool;
  company_createdAt : Z;
  company_updatedAt : Z
}.

Record Document := mkDocument {
  doc_id : string;
  doc_companyId : string;
  doc_name : string;
  mimeType : string;
  size : Z;
  path : string;
  category : string;
  doc_createdAt : Z;
  doc_updatedAt : Z
}.

Inductive NotificationType := info | success | warning | error.

(** Values of the small objects handed to [JSON.stringify]; a field whose
    value is [undefined] is dropped, as [JSON.stringify] does. *)
Inductive Json :=
| JString (s : string)
| JNumber (n : Z)
| JBool (b : bool)
| JDate (t : Z).

Definition JsObject := list (string * Json).

Definition optional_field (k : string) (v : option Json) : JsObject :=
  match v with Some j => [(k, j)] | None => [] end.

Record Notification := mkNotification {
  ntf_id : string;
  ntf_userId : string;
  ntf_type : NotificationType;
  title : option string;
  message : string;
  data : option JsObject;
  ntf_createdAt : Z;
  ntf_updatedAt : Z;
  readAt : option Z
}.

Record AuditLog := mkAuditLog {
  audit_userId : string;
  action : string;
  resource : string;
  metadata : JsObject;
  audit_createdAt : Z
}.

(** One call of [console.log], [console.warn] or [console.error]. *)
Inductive ConsoleEntry :=
| console_log (line : string)
| console_warn (line : string)
| console_error (label : string) (e : JsError).

(** The store ([db]) together with the process console. *)
Record State := mkState {
  company : gmap string Company;
  document : list Document;
  notification : list Notification;
  auditLog : list AuditLog;
  console : list ConsoleEntry
}.

(** The derived score object. *)
Module Breakdown.
Record t := mk {
  kycVerified : Z;
  financialsLinked : Z;
  documentsUploaded : Z;
  revenueScore : Z
}.
End Breakdown.

Record InvestabilityScore := mkScore {
  score : Z;
  breakdown : Breakdown.t
}.

(** [Object.values(breakdown)], in property insertion order. *)
Definition Object_values (b : Breakdown.t) : list Z :=
  [Breakdown.kycVerified b; Breakdown.financialsLinked b;
   Breakdown.documentsUploaded b; Breakdown.revenueScore b].

(** ** Store queries *)

(** The [documents] relation of a company: the rows whose [companyId] is
    the company's id. *)
Definition documents_of (st : State) (companyId : string) : list Document :=
  filter (fun d => doc_companyId d = companyId) (document st).

(** [db.company.findUnique({ where: { id }, include: { documents: true } })]. *)
Definition company_findUnique_with_documents (st : State) (companyId : string)
  : option (Company * list Document) :=
  match company st !! companyId with
  | Some c => Some (c, documents_of st companyId)
  | None => None
  end.

(** ** Effects: state, exceptions, environment *)

(** What a request draws from outside the store. *)
Record Env := mkEnv {
  now : Z;                        (* new Date() *)
  uuid : string;                  (* uuid() for the notification row *)
  random : Q;                     (* Math.random() *)
  fileId : string;                (* uuid() for the document row *)
  validateFile : option JsError;  (* Some e: FileService.validateFile throws e *)
  sanitizedName : string;         (* sanitizeFileName(file.originalname) *)
  processedSize : Z;              (* processedBuffer.length *)
  finalPath : string;             (* path.join(companyDir, fileName) *)
  fs_access : string -> bool;     (* fs.access(path) succeeds *)
  fs_unlink : string -> bool;     (* fs.unlink(path) succeeds *)
  zod_uuid : string -> option string
    (* z.string().uuid(): None for a UUID, else the message of the issue *)
}.

(** A computation over the store that may throw; the state reached before a
    throw is kept. *)
Definition M (A : Type) : Type := State -> Result A * State.

Definition ret {A} (a : A) : M A := fun st => (Ok a, st).

Definition throw {A} (e : JsError) : M A := fun st => (Throw e, st).

Definition bind {A B} (m : M A) (k : A -> M B) : M B :=
  fun st =>
    match m st with
    | (Ok a, st') => k a st'
    | (Throw e, st') => (Throw e, st')
    end.

Definition try_catch {A} (body : M A) (handler : JsError -> M A) : M A :=
  fun st =>
    match body st with
    | (Ok a, st') => (Ok a, st')
    | (Throw e, st') => handler e st'
    end.

(** A read-only service call. *)
Definition query {A} (f : State -> Result A) : M A := fun st => (f st, st).

Definition gets {A} (f : State -> A) : M A := fun st => (Ok (f st), st).

Definition modify (f : State -> State) : M unit := fun st => (Ok tt, f st).

Declare Scope js_scope.
Delimit Scope js_scope with js.
Notation "'await' x <- m ;; k" := (bind m (fun x => k))
  (at level 10, x name, m at level 99, k at level 200) : js_scope.
Notation "'do' m ;; k" := (bind m (fun _ => k))
  (at level 10, m at level 99, k at level 200) : js_scope.
Local Open Scope js_scope.

(** *** Table writes *)

Definition set_company (f : gmap string Company -> gmap string Company) (st : State) : State :=
  {| company := f (company st); document := document st;
     notification := notification st; auditLog := auditLog st; console := console st |}.

Definition set_document (f : list Document -> list Document) (st : State) : State :=
  {| company := company st; document := f (document st);
     notification := notification st; auditLog := auditLog st; console := console st |}.

Definition set_notification (f : list Notification -> list Notification) (st : State) : State :=
  {| company := company st; document := document st;
     notification := f (notification st); auditLog := auditLog st; console := console st |}.

Definition set_auditLog (f : list AuditLog -> list AuditLog) (st : State) : State :=
  {| company := company st; document := document st;
     notification := notification st; auditLog := f (auditLog st); console := console st |}.

Definition set_console (f : list ConsoleEntry -> list ConsoleEntry) (st : State) : State :=
  {| company := company st; document := document st;
     notification := notification st; auditLog := auditLog st; console := f (console st) |}.

Definition console_write (e : ConsoleEntry) : M unit :=
  modify (set_console (fun c => (c ++ [e])%list)).

(** [db.company.findUnique({ where: { id } })]. *)
Definition db_company_findUnique (id : string) : M (option Company) :=
  gets (fun st => company st !! id).

(** [db.company.update({ where: { id }, data })]; rejects when no row has
    that id. *)
Definition db_company_update (id : string) (data : Company -> Company) : M unit :=
  await c <- db_company_findUnique id ;;
  match c with
  | Some c => modify (set_company (fun m => <[id := data c]> m))
  | None => throw (Error "Record to update not found")
  end.

Definition db_notification_create (n : Notification) : M unit :=
  modify (set_notification (fun l => (l ++ [n])%list)).

Definition db_auditLog_create (a : AuditLog) : M unit :=
  modify (set_auditLog (fun l => (l ++ [a])%list)).

Definition db_document_create (d : Document) : M unit :=
  modify (set_document (fun l => (l ++ [d])%list)).

(** [db.document.findFirst({ where: { id, companyId } })]. *)
Definition db_document_findFirst (id companyId : string) : M (option Document) :=
  gets (fun st =>
    head (filter (fun d => doc_id d = id /\ doc_companyId d = companyId) (document st))).

(** [db.document.delete({ where: { id } })]. *)
Definition db_document_delete (id : string) : M unit :=
  modify (set_document (fun l => filter (fun d => doc_id d <> id) l)).

(** ** InvestabilityService *)

Module InvestabilityService.

Definition maxRevenue : Q := 1000000.
Definition maxPoints : Z := 25.

Definition calculateRevenueScore (revenue : Double.t) : Z :=
  if Qgeb revenue maxRevenue then maxPoints
  else Math_round (fmul (fdiv revenue maxRevenue) (inject_Z maxPoints)).

Definition calculateScore (companyId : string) (st : State) : Result InvestabilityScore :=
  match company_findUnique_with_documents st companyId with
  | None => Throw (Error "Company not found")
  | Some (company, documents) =>
      let breakdown :=
        {| Breakdown.kycVerified := if kycVerified company then 30 else 0;
           Breakdown.financialsLinked := if financialsLinked company then 20 else 0;
           Breakdown.documentsUploaded := Math_min (Z.of_nat (length documents) * 5) 25;
           Breakdown.revenueScore := calculateRevenueScore (revenue company) |} in
      let score := fold_left (fun sum value => sum + value) (Object_values breakdown) 0 in
      Ok {| score := Math_min score 100; breakdown := breakdown |}
  end.

Definition getScoreWithCache (companyId : string) (st : State) : Result InvestabilityScore :=
  calculateScore companyId st.

Definition onCompanyDataChange (companyId : string) : M unit :=
  await newScore <- query (calculateScore companyId) ;;
  console_write
    (console_log ("Score updated for company " ++ companyId ++ ": "
                    ++ Number_toString (score newScore))).

(** The array [recommendations] grows by [push]; [push r x] is [r ++ [x]]. *)
Definition push (r : list string) (x : string) : list string := r ++ [x].

Definition getRecommendations (companyId : string) (st : State) : Result (list string) :=
  match company_findUnique_with_documents st companyId with
  | None => Throw (Error "Company not found")
  | Some (company, documents) =>
      let recommendations := [] in
      let recommendations :=
        if negb (kycVerified company)
        then push recommendations "Complete KYC verification to earn 30 points"
        else recommendations in
      let recommendations :=
        if negb (financialsLinked company)
        then push recommendations "Link your bank account to earn 20 points"
        else recommendations in
      let recommendations :=
        if Z.of_nat (length documents) <? 5
        then
          let needed := 5 - Z.of_nat (length documents) in
          push recommendations
            ("Upload " ++ Number_toString needed ++ " more document"
               ++ (if needed >? 1 then "s" else "")
               ++ " to maximize document points")
        else recommendations in
      let recommendations :=
        if Qltb (revenue company) 1000000
        then push recommendations
               "As your revenue grows, your score will automatically improve"
        else recommendations in
      Ok recommendations
  end.

End InvestabilityService.

(** ** NotificationService *)

Module NotificationService.

Definition create (env : Env) (userId : string) (type : NotificationType)
    (message : string) (title : option string) (data : option JsObject) : M unit :=
  db_notification_create
    {| ntf_id := uuid env;
       ntf_userId := userId;
       ntf_type := type;
       title := title;
       message := message;
       data := data;
       ntf_createdAt := now env;
       ntf_updatedAt := now env;
       readAt := None |}.

Definition notifyOnboardingComplete (env : Env) (userId companyName : string) : M unit :=
  create env userId success
    ("Welcome to Capital Marketplace! Your company " ++ dquote ++ companyName
       ++ dquote ++ " has been successfully onboarded.")
    (Some "Onboarding Complete")
    (Some [("event", JString "onboarding_complete"); ("companyName", JString companyName)]).

Definition notifyKycVerified (env : Env) (userId : string) : M unit :=
  create env userId success
    "Your KYC verification has been completed successfully. You earned 30 investability points!"
    (Some "KYC Verified")
    (Some [("event", JString "kyc_verified"); ("pointsEarned", JNumber 30)]).

Definition notifyFinancialsLinked (env : Env) (userId : string) : M unit :=
  create env userId success
    "Your bank account has been successfully linked. You earned 20 investability points!"
    (Some "Financials Linked")
    (Some [("event", JString "financials_linked"); ("pointsEarned", JNumber 20)]).

Definition notifyDocumentUploaded (env : Env) (userId documentName : string) : M unit :=
  create env userId info
    ("Document " ++ dquote ++ documentName
       ++ dquote ++ " has been uploaded successfully to your data room.")
    (Some "Document Uploaded")
    (Some [("event", JString "document_uploaded"); ("documentName", JString documentName)]).

(** The message is taken byte for byte from the source file, whose arrow
    between the two scores is stored as the eight bytes C3 A2 E2 80 A0 E2 80 99. *)
Definition notifyScoreImproved (env : Env) (userId : string) (oldScore newScore : Z) : M unit :=
  let improvement := newScore - oldScore in
  create env userId success
    ("Great progress! Your investability score improved by " ++ Number_toString improvement
       ++ " points (" ++ Number_toString oldScore ++ " â†’ " ++ Number_toString newScore ++ ").")
    (Some "Score Improved")
    (Some [("event", JString "score_improved"); ("oldScore", JNumber oldScore);
           ("newScore", JNumber newScore); ("improvement", JNumber improvement)]).

(** The API shape of a notification: [title] and [data] are not part of it. *)
Record ApiNotification := mkApiNotification {
  api_id : string;
  api_userId : string;
  api_type : NotificationType;
  api_message : string;
  api_createdAt : Z;
  api_readAt : option Z
}.

Definition transformNotification (notification : Notification) : ApiNotification :=
  {| api_id := ntf_id notification;
     api_userId := ntf_userId notification;
     api_type := ntf_type notification;
     api_message := message notification;
     api_createdAt := ntf_createdAt notification;
     api_readAt := readAt notification |}.

(** The [options] argument of [getForUser]; an absent field takes its
    default ([limit = 50], [offset = 0], [unreadOnly = false]). *)
Record Options := mkOptions {
  limit : option nat;
  offset : option nat;
  unreadOnly : option bool
}.

(** [where: { userId, ...(unreadOnly ? { readAt: null } : {}) }]. *)
Definition selected (userId : string) (unreadOnly : bool) (n : Notification) : Prop :=
  ntf_userId n = userId /\ (unreadOnly = true -> readAt n = None).

(** [orderBy: { createdAt: 'desc' }]. *)
Definition newest_first (a b : Notification) : Prop := ntf_createdAt b <= ntf_createdAt a.

(** What the store promises for that clause: the rows it is given, newest
    first.  The order of rows with equal [createdAt] is the store's choice,
    and it need not be the same in two queries; [order] stands for the
    choice made in one query. *)
Definition orders_newest_first (order : list Notification -> list Notification) : Prop :=
  forall rows, order rows ≡ₚ rows /\ StronglySorted newest_first (order rows).

#[global] Instance selected_dec (userId : string) (unreadOnly : bool) (n : Notification) :
  Decision (selected userId unreadOnly n).
Proof. unfold selected. apply _. Defined.

#[global] Instance newest_first_dec (a b : Notification) : Decision (newest_first a b).
Proof. unfold newest_first. apply _. Defined.

Definition getForUser (order : list Notification -> list Notification)
    (userId : string) (options : Options) (st : State) : list ApiNotification :=
  let limit := default 50%nat (limit options) in
  let offset := default 0%nat (offset options) in
  let unreadOnly := default false (unreadOnly options) in
  let notifications :=
    take limit
      (drop offset
         (order (filter (selected userId unreadOnly) (notification st)))) in
  map transformNotification notifications.

(** [data: { readAt: new Date(), updatedAt: new Date() }]. *)
Definition set_readAt (env : Env) (n : Notification) : Notification :=
  {| ntf_id := ntf_id n; ntf_userId := ntf_userId n; ntf_type := ntf_type n;
     title := title n; message := message n; data := data n;
     ntf_createdAt := ntf_createdAt n; ntf_updatedAt := now env;
     readAt := Some (now env) |}.

(** [db.notification.updateMany({ where, data })] for the two [where]
    clauses of the service. *)
Definition updateMany (cond : Notification -> Prop) `{forall n, Decision (cond n)}
    (env : Env) : M unit :=
  modify (set_notification
            (map (fun n => if decide (cond n) then set_readAt env n else n))).

Definition markAsRead (env : Env) (notificationId userId : string) : M unit :=
  updateMany (fun n => ntf_id n = notificationId /\ ntf_userId n = userId) env.

Definition markAllAsRead (env : Env) (userId : string) : M unit :=
  updateMany (fun n => ntf_userId n = userId /\ readAt n = None) env.

Definition delete (notificationId userId : string) : M unit :=
  modify (set_notification
            (filter (fun n => ~ (ntf_id n = notificationId /\ ntf_userId n = userId)))).

Definition getUnreadCount (userId : string) (st : State) : Z :=
  Z.of_nat (length (filter (fun n => ntf_userId n = userId /\ readAt n = None)
                      (notification st))).

(** [cleanup(olderThanDays = 30)]: [setDate_back now days] is the instant
    [days] calendar days before [now], as [Date.setDate] computes it in local
    time. *)
Definition cleanup (setDate_back : Z -> Z -> Z) (env : Env) (olderThanDays : option Z)
  : M Z :=
  fun st =>
    let olderThanDays := default 30 olderThanDays in
    let cutoffDate := setDate_back (now env) olderThanDays in
    (Ok (Z.of_nat (length (filter (fun n => ntf_createdAt n < cutoffDate /\ readAt n <> None)
                             (notification st)))),
     set_notification
       (filter (fun n => ~ (ntf_createdAt n < cutoffDate /\ readAt n <> None))) st).

End NotificationService.

(** ** FileService (the part that touches the [document] table) *)

Module FileService.

Record UploadedFile := mkUploadedFile {
  originalname : string;
  mimetype : string;
  buffer_length : Z
}.

(** [category || 'other']. *)
Definition or_other (category : option string) : string :=
  match category with
  | Some c => if String.eqb c "" then "other" else c
  | None => "other"
  end.

Definition uploadFile (env : Env) (file : UploadedFile) (companyId : string)
    (category : option string) : M Document :=
  do (match validateFile env with Some e => throw e | None => ret tt end) ;;
  let document :=
    {| doc_id := fileId env;
       doc_companyId := companyId;
       doc_name := sanitizedName env;
       mimeType := mimetype file;
       size := processedSize env;
       path := finalPath env;
       category := or_other category;
       doc_createdAt := now env;
       doc_updatedAt := now env |} in
  do db_document_create document ;;
  ret document.

Definition getFile (env : Env) (fileId companyId : string) : M Document :=
  await document <- db_document_findFirst fileId companyId ;;
  match document with
  | None => throw (Error "File not found")
  | Some document =>
      if fs_access env (path document) then ret document
      else throw (Error "File not found on disk")
  end.

Definition deleteFile (env : Env) (fileId companyId : string) : M unit :=
  await document <- db_document_findFirst fileId companyId ;;
  match document with
  | None => throw (Error "File not found")
  | Some document =>
      do (if fs_unlink env (path document) then ret tt
          else console_write
                 (console_warn ("Failed to delete file from disk: " ++ path document))) ;;
      db_document_delete fileId
  end.

(** A file name as the regular expressions see it: a sequence of UTF-16
    code units. *)
Definition CodeUnits := list N.

Definition code_units (s : string) : CodeUnits :=
  map N_of_ascii (list_ascii_of_string s).

(** The class [[a-zA-Z0-9.-]]. *)
Definition name_char (c : N) : bool :=
  ((97 <=? c) && (c <=? 122) || (65 <=? c) && (c <=? 90) || (48 <=? c) && (c <=? 57)
   || (c =? 46) || (c =? 45))%N.

Definition underscore : N := 95.
Definition dot : N := 46.

(** [.replace(/[^a-zA-Z0-9.-]/g, '_')]. *)
Definition replace_other (s : CodeUnits) : CodeUnits :=
  map (fun c => if name_char c then c else underscore) s.

(** [.replace(/\.{2,}/g, '.')]: every maximal run of two or more dots becomes
    one dot; a dot followed by a dot is dropped. *)
Fixpoint collapse_dots (s : CodeUnits) : CodeUnits :=
  match s with
  | [] => []
  | c :: rest =>
      match rest with
      | d :: _ =>
          if ((c =? dot) && (d =? dot))%N then collapse_dots rest
          else c :: collapse_dots rest
      | [] => [c]
      end
  end.

Definition sanitizeFileName (fileName : CodeUnits) : CodeUnits :=
  take 100 (collapse_dots (replace_other fileName)).

(** [db.document.delete({ where: { id } })] as [cleanupOrphanedFiles] needs
    it: it rejects when no row has that id. *)
Definition db_document_delete_existing (id : string) : M unit :=
  await rows <- gets document ;;
  if bool_decide (Exists (fun d => doc_id d = id) rows)
  then db_document_delete id
  else throw (Error "Record to delete does not exist.").

Record CleanupResult := mkCleanupResult { deleted : Z; errors : Z }.

(** The loop of [cleanupOrphanedFiles] over the rows read at the start. *)
Fixpoint cleanup_loop (env : Env) (documents : list Document) (deleted errors : Z)
  : M CleanupResult :=
  match documents with
  | [] => ret {| deleted := deleted; errors := errors |}
  | doc :: rest =>
      if fs_access env (path doc) then cleanup_loop env rest deleted errors
      else
        await removed <-
          try_catch (do db_document_delete_existing (doc_id doc) ;; ret true)
                    (fun _ => ret false) ;;
        if removed : bool then cleanup_loop env rest (deleted + 1) errors
        else cleanup_loop env rest deleted (errors + 1)
  end.

Definition cleanupOrphanedFiles (env : Env) : M CleanupResult :=
  await documents <- gets document ;;
  cleanup_loop env documents 0 0.

End FileService.

(** ** Route handlers *)

(** One entry of the [details] of a validation reply:
    [{ field: err.path.join('.'), message: err.message }]. *)
Record Issue := mkIssue { issue_field : string; issue_message : string }.

(** The JSON body of a reply, by shape. *)
Inductive Payload :=
| PError (error : string)             (* { success: false, error } *)
| PKyc (verified : bool)              (* data: { success: true, verified } *)
| PLink (linked : bool)               (* data: { success: true, linked } *)
| PSuccess                            (* data: { success: true } *)
| PDocument (d : Document)            (* data: document *)
| PScore (s : InvestabilityScore)     (* data: score *)
| PValidation (error : string) (details : list Issue).
                                      (* { success: false, error, details } *)

Record Reply := mkReply { status : Z; payload : Payload }.

(** [reply.status(code).send(body)] and [reply.send(body)]. *)
Definition status_send (code : Z) (p : Payload) : M Reply :=
  ret {| status := code; payload := p |}.

Definition send (p : Payload) : M Reply := status_send 200 p.

(** A string used as a condition: [undefined] and [''] are falsy. *)
Definition truthy (s : option string) : bool :=
  match s with
  | Some s => negb (String.eqb s "")
  | None => false
  end.

(** [validateRequest(schema)] (middleware/security.ts), the preHandler of
    the two POST routes with a body: it parses the body against the schema;
    when that fails it replies 400 with the issues, otherwise it puts the
    parsed body in the request.  [safeParse] does not throw, so the
    middleware's [catch] is not reached. *)
Definition validateRequest {B : Type} (safeParse : B -> list Issue + B) (body : B)
  : Reply + B :=
  match safeParse body with
  | inl errors =>
      inl {| status := 400; payload := PValidation "Validation failed" errors |}
  | inr data => inr data
  end.

(** A route with a preHandler: the handler runs on the request the
    preHandler leaves, unless the preHandler has replied. *)
Definition with_preHandler {B : Type} (preHandler : B -> Reply + B)
    (handler : B -> M Reply) (body : B) : M Reply :=
  match preHandler body with
  | inl reply => ret reply
  | inr body => handler body
  end.

(** [schema.safeParse] of an object schema on a body of the right shape:
    the issues of its fields in the order of the schema, or the body. *)
Definition safeParse {B : Type} (issues : B -> list Issue) (body : B) : list Issue + B :=
  match issues body with
  | [] => inr body
  | errors => inl errors
  end.

(** [z.string().uuid()] on the field [name]. *)
Definition uuid_issue (env : Env) (name value : string) : list Issue :=
  match zod_uuid env value with
  | Some message => [mkIssue name message]
  | None => []
  end.

Module kycRoutes.

Record KycVerificationRequest := mkRequest {
  companyId : string;
  inquiryId : option string;
  mockVerify : bool
}.

(** [data: { kycVerified: b, updatedAt: new Date() }]. *)
Definition set_kycVerified (b : bool) (env : Env) (c : Company) : Company :=
  {| company_userId := company_userId c;
     company_name := company_name c;
     sector := sector c;
     targetRaise := targetRaise c;
     revenue := revenue c;
     kycVerified := b;
     financialsLinked := financialsLinked c;
     company_createdAt := company_createdAt c;
     company_updatedAt := now env |}.

(** [Math.random() > 0.1]; the literal [0.1] is the double nearest to one
    tenth. *)
Definition verifyWithPersona (env : Env) (inquiryId : string) : bool :=
  Qltb (round64 (1 # 10)) (random env).

(** POST /api/kyc/verify: the handler. *)
Definition post_verify (env : Env) (body : KycVerificationRequest) : M Reply :=
  try_catch
    (await company <- db_company_findUnique (companyId body) ;;
     match company with
     | None => status_send 404 (PError "Company not found")
     | Some company =>
         if kycVerified company
         then status_send 400 (PError "KYC already verified for this company")
         else
           let decision :=
             if mockVerify body then Some true
             else if truthy (inquiryId body)
                  then Some (verifyWithPersona env (default "" (inquiryId body)))
                  else None in
           match decision with
           | None => status_send 400 (PError "Either mockVerify or inquiryId is required")
           | Some verified =>
               do (if verified then
                     do db_company_update (companyId body) (set_kycVerified true env) ;;
                     do NotificationService.notifyKycVerified env (company_userId company) ;;
                     do InvestabilityService.onCompanyDataChange (companyId body) ;;
                     db_auditLog_create
                       {| audit_userId := company_userId company;
                          action := "kyc_verified";
                          resource := "Company:" ++ companyId body;
                          metadata :=
                            (optional_field "inquiryId" (JString <$> inquiryId body)
                               ++ [("mockVerify", JBool (mockVerify body));
                                   ("timestamp", JDate (now env))])%list;
                          audit_createdAt := now env |}
                   else ret tt) ;;
               send (PKyc verified)
           end
     end)
    (fun error =>
       do console_write (console_error "Error verifying KYC:" error) ;;
       status_send 500 (PError "Failed to verify KYC")).

(** [KycVerificationRequestSchema]: [companyId] is a UUID; [inquiryId] is
    optional and [mockVerify] defaults to [false], which the record type
    already says. *)
Definition KycVerificationRequestSchema (env : Env) (body : KycVerificationRequest)
  : list Issue :=
  uuid_issue env "companyId" (companyId body).

(** POST /api/kyc/verify: the route, [preHandler] first. *)
Definition verify (env : Env) : KycVerificationRequest -> M Reply :=
  with_preHandler (validateRequest (safeParse (KycVerificationRequestSchema env)))
    (post_verify env).

End kycRoutes.

Module financialsRoutes.

Record LinkFinancialsRequest := mkRequest {
  companyId : string;
  plaidToken : string;
  accountId : option string
}.

(** [plaidToken.length > 0]. *)
Definition linkWithPlaid (plaidToken : string) (accountId : option string) : bool :=
  0 <? Z.of_nat (String.length plaidToken).

Definition unlinkFromPlaid (companyId : string) : M unit :=
  console_write (console_log ("Unlinking Plaid accounts for company " ++ companyId)).

(** [data: { financialsLinked: b, updatedAt: new Date() }]. *)
Definition set_financialsLinked (b : bool) (env : Env) (c : Company) : Company :=
  {| company_userId := company_userId c;
     company_name := company_name c;
     sector := sector c;
     targetRaise := targetRaise c;
     revenue := revenue c;
     kycVerified := kycVerified c;
     financialsLinked := b;
     company_createdAt := company_createdAt c;
     company_updatedAt := now env |}.

(** POST /api/financials/link: the handler. *)
Definition post_link (env : Env) (body : LinkFinancialsRequest) : M Reply :=
  try_catch
    (await company <- db_company_findUnique (companyId body) ;;
     match company with
     | None => status_send 404 (PError "Company not found")
     | Some company =>
         if financialsLinked company
         then status_send 400 (PError "Financials already linked for this company")
         else
           let linked := linkWithPlaid (plaidToken body) (accountId body) in
           do (if linked then
                 do db_company_update (companyId body) (set_financialsLinked true env) ;;
                 do NotificationService.notifyFinancialsLinked env (company_userId company) ;;
                 do InvestabilityService.onCompanyDataChange (companyId body) ;;
                 db_auditLog_create
                   {| audit_userId := company_userId company;
                      action := "financials_linked";
                      resource := "Company:" ++ companyId body;
                      metadata :=
                        ([("plaidToken", JString "[REDACTED]")]
                           ++ optional_field "accountId" (JString <$> accountId body)
                           ++ [("timestamp", JDate (now env))])%list;
                      audit_createdAt := now env |}
               else ret tt) ;;
           send (PLink linked)
     end)
    (fun error =>
       do console_write (console_error "Error linking financials:" error) ;;
       status_send 500 (PError "Failed to link financial accounts")).

(** DELETE /api/financials/link/:companyId *)
Definition delete_link (env : Env) (companyId : string) : M Reply :=
  try_catch
    (await company <- db_company_findUnique companyId ;;
     match company with
     | None => status_send 404 (PError "Company not found")
     | Some company =>
         if negb (financialsLinked company)
         then status_send 400 (PError "No financial accounts linked")
         else
           do unlinkFromPlaid companyId ;;
           do db_company_update companyId (set_financialsLinked false env) ;;
           do InvestabilityService.onCompanyDataChange companyId ;;
           do db_auditLog_create
                {| audit_userId := company_userId company;
                   action := "financials_unlinked";
                   resource := "Company:" ++ companyId;
                   metadata := [("timestamp", JDate (now env))];
                   audit_createdAt := now env |} ;;
           send PSuccess
     end)
    (fun error =>
       do console_write (console_error "Error unlinking financials:" error) ;;
       status_send 500 (PError "Failed to unlink financial accounts")).

(** [LinkFinancialsRequestSchema]: [companyId] is a UUID and [plaidToken]
    has at least one character; [accountId] is optional. *)
Definition LinkFinancialsRequestSchema (env : Env) (body : LinkFinancialsRequest)
  : list Issue :=
  (uuid_issue env "companyId" (companyId body)
   ++ (if (String.length (plaidToken body) <? 1)%nat
       then [mkIssue "plaidToken" "Plaid token is required"]
       else []))%list.

(** POST /api/financials/link: the route, [preHandler] first.  (The DELETE
    route has no preHandler: [delete_link] is the whole route.) *)
Definition link (env : Env) : LinkFinancialsRequest -> M Reply :=
  with_preHandler (validateRequest (safeParse (LinkFinancialsRequestSchema env)))
    (post_link env).

End financialsRoutes.

Module filesRoutes.

Record UploadRequest := mkRequest {
  companyId : string;
  file : option FileService.UploadedFile;   (* await request.file() *)
  category_field : option string            (* fields?.category?.value *)
}.

(** POST /api/files/:companyId *)
Definition post_upload (env : Env) (request : UploadRequest) : M Reply :=
  try_catch
    (await company <- db_company_findUnique (companyId request) ;;
     match company with
     | None => status_send 404 (PError "Company not found")
     | Some company =>
         match file request with
         | None => status_send 400 (PError "No file provided")
         | Some file =>
             let category := FileService.or_other (category_field request) in
             await document <-
               FileService.uploadFile env file (companyId request) (Some category) ;;
             do NotificationService.notifyDocumentUploaded env
                  (company_userId company) (doc_name document) ;;
             do InvestabilityService.onCompanyDataChange (companyId request) ;;
             do db_auditLog_create
                  {| audit_userId := company_userId company;
                     action := "document_uploaded";
                     resource := "Document:" ++ doc_id document;
                     metadata :=
                       [("fileName", JString (doc_name document));
                        ("fileSize", JNumber (size document));
                        ("mimeType", JString (mimeType document));
                        ("category", JString category);
                        ("timestamp", JDate (now env))];
                     audit_createdAt := now env |} ;;
             status_send 201 (PDocument document)
         end
     end)
    (fun error =>
       do console_write (console_error "Error uploading file:" error) ;;
       status_send 500 (PError (err_message error))).

(** DELETE /api/files/:companyId/:fileId *)
Definition delete_file (env : Env) (companyId fileId : string) : M Reply :=
  try_catch
    (await document <- FileService.getFile env fileId companyId ;;
     await company <- db_company_findUnique companyId ;;
     do FileService.deleteFile env fileId companyId ;;
     do InvestabilityService.onCompanyDataChange companyId ;;
     do (match company with
         | Some company =>
             db_auditLog_create
               {| audit_userId := company_userId company;
                  action := "document_deleted";
                  resource := "Document:" ++ fileId;
                  metadata :=
                    [("fileName", JString (doc_name document));
                     ("fileSize", JNumber (size document));
                     ("mimeType", JString (mimeType document));
                     ("timestamp", JDate (now env))];
                  audit_createdAt := now env |}
         | None => ret tt
         end) ;;
     send PSuccess)
    (fun error =>
       do console_write (console_error "Error deleting file:" error) ;;
       status_send 404 (PError (err_message error))).

End filesRoutes.

Module scoreRoutes.

(** POST /api/score/:companyId/recalculate *)
Definition post_recalculate (companyId : string) : M Reply :=
  try_catch
    (await company <- db_company_findUnique companyId ;;
     match company with
     | None => status_send 404 (PError "Company not found")
     | Some _ =>
         await score <- query (InvestabilityService.calculateScore companyId) ;;
         do InvestabilityService.onCompanyDataChange companyId ;;
         send (PScore score)
     end)
    (fun error =>
       do console_write (console_error "Error recalculating score:" error) ;;
       status_send 500 (PError "Failed to recalculate score")).

(** One point of the simulated score history. *)
Record HistoryEntry := mkEntry {
  date : Z;
  entry_score : Z;
  event : string;
  change : Z
}.

(** [where: { resource: `Company:${companyId}`, action: { in: [...] } }]. *)
Definition history_event (companyId : string) (a : AuditLog) : Prop :=
  resource a = "Company:" ++ companyId
  /\ (action a = "kyc_verified" \/ action a = "financials_linked"
      \/ action a = "document_uploaded").

(** [orderBy: { createdAt: 'asc' }]. *)
Definition oldest_first (a b : AuditLog) : Prop := audit_createdAt a <= audit_createdAt b.

#[global] Instance history_event_dec (companyId : string) (a : AuditLog) :
  Decision (history_event companyId a).
Proof. unfold history_event. apply _. Defined.

#[global] Instance oldest_first_dec (a b : AuditLog) : Decision (oldest_first a b).
Proof. unfold oldest_first. apply _. Defined.

(** The [for] loop of [getScoreHistory]. *)
Fixpoint history_loop (auditEvents : list AuditLog) (currentScore : Z)
    (history : list HistoryEntry) : list HistoryEntry :=
  match auditEvents with
  | [] => history
  | event :: rest =>
      let currentScore :=
        if String.eqb (action event) "kyc_verified" then currentScore + 30
        else if String.eqb (action event) "financials_linked" then currentScore + 20
        else if String.eqb (action event) "document_uploaded" then currentScore + 5
        else currentScore in
      history_loop rest currentScore
        (history
           ++ [{| date := audit_createdAt event;
                  entry_score := Math_min currentScore 100;
                  event := action event;
                  change :=
                    if String.eqb (action event) "kyc_verified" then 30
                    else if String.eqb (action event) "financials_linked" then 20
                    else 5 |}])%list
  end.

(** [orderBy: { createdAt: 'asc' }] is a merge sort here; the order it
    gives to rows with equal [createdAt] is one of those the store may
    choose, and no property below depends on it. *)
Definition getScoreHistory (companyId : string) (st : State) : list HistoryEntry :=
  let auditEvents :=
    merge_sort oldest_first (filter (history_event companyId) (auditLog st)) in
  history_loop auditEvents 0 [].

(** The bodies of the read routes. *)
Record CompanyInfo := mkCompanyInfo {
  info_name : string;
  info_sector : string;
  info_revenue : Double.t;
  info_targetRaise : Double.t;
  documentCount : Z;
  info_kycVerified : bool;
  info_financialsLinked : bool
}.

Inductive ReadPayload :=
| RError (error : string)
| RScore (s : InvestabilityScore)
| RRecommendations (recommendations : list string)
| RBreakdown (s : InvestabilityScore) (recommendations : list string)
    (history : list HistoryEntry) (companyInfo : CompanyInfo).

Record ReadReply := mkReadReply { read_status : Z; read_payload : ReadPayload }.

Definition read_send (code : Z) (p : ReadPayload) : M ReadReply :=
  ret {| read_status := code; read_payload := p |}.

(** GET /api/score/:companyId *)
Definition get_score (companyId : string) : M ReadReply :=
  try_catch
    (await company <- db_company_findUnique companyId ;;
     match company with
     | None => read_send 404 (RError "Company not found")
     | Some _ =>
         await score <- query (InvestabilityService.calculateScore companyId) ;;
         read_send 200 (RScore score)
     end)
    (fun error =>
       do console_write (console_error "Error calculating investability score:" error) ;;
       read_send 500 (RError "Failed to calculate investability score")).

(** GET /api/score/:companyId/recommendations *)
Definition get_recommendations (companyId : string) : M ReadReply :=
  try_catch
    (await company <- db_company_findUnique companyId ;;
     match company with
     | None => read_send 404 (RError "Company not found")
     | Some _ =>
         await recommendations <-
           query (InvestabilityService.getRecommendations companyId) ;;
         read_send 200 (RRecommendations recommendations)
     end)
    (fun error =>
       do console_write (console_error "Error fetching score recommendations:" error) ;;
       read_send 500 (RError "Failed to fetch recommendations")).

(** GET /api/score/:companyId/breakdown *)
Definition get_breakdown (companyId : string) : M ReadReply :=
  try_catch
    (await company <- gets (fun st => company_findUnique_with_documents st companyId) ;;
     match company with
     | None => read_send 404 (RError "Company not found")
     | Some (company, documents) =>
         await score <- query (InvestabilityService.calculateScore companyId) ;;
         await recommendations <-
           query (InvestabilityService.getRecommendations companyId) ;;
         await history <- gets (getScoreHistory companyId) ;;
         read_send 200
           (RBreakdown score recommendations history
              {| info_name := company_name company;
                 info_sector := sector company;
                 info_revenue := revenue company;
                 info_targetRaise := targetRaise company;
                 documentCount := Z.of_nat (length documents);
                 info_kycVerified := kycVerified company;
                 info_financialsLinked := financialsLinked company |})
     end)
    (fun error =>
       do console_write (console_error "Error fetching score breakdown:" error) ;;
       read_send 500 (RError "Failed to fetch score breakdown")).

End scoreRoutes.

(** The requests that change score-relevant data, or ask for recomputation:
    every call site of [onCompanyDataChange].  [handle] runs the handler of
    the request; a preHandler in front of it can only refuse the request
    before the handler starts. *)
Inductive Mutation :=
| VerifyKyc (body : kycRoutes.KycVerificationRequest)
| LinkFinancials (body : financialsRoutes.LinkFinancialsRequest)
| UnlinkFinancials (companyId : string)
| UploadDocument (request : filesRoutes.UploadRequest)
| DeleteDocument (companyId fileId : string)
| Recalculate (companyId : string).

Definition handle (env : Env) (m : Mutation) : M Reply :=
  match m with
  | VerifyKyc body => kycRoutes.post_verify env body
  | LinkFinancials body => financialsRoutes.post_link env body
  | UnlinkFinancials companyId => financialsRoutes.delete_link env companyId
  | UploadDocument request => filesRoutes.post_upload env request
  | DeleteDocument companyId fileId => filesRoutes.delete_file env companyId fileId
  | Recalculate companyId => scoreRoutes.post_recalculate companyId
  end.

(** ** Sample data *)

(** A stand-in for zod's UUID check in the sample environments: five groups
    of 8, 4, 4, 4 and 12 hexadecimal digits. *)
Definition hex_digit (a : ascii) : bool :=
  let n := nat_of_ascii a in
  ((48 <=? n) && (n <=? 57) || (65 <=? n) && (n <=? 70) || (97 <=? n) && (n <=? 102))%nat.

Definition uuid_shape (s : string) : option string :=
  let units := list_ascii_of_string s in
  if ((length units =? 36)%nat
      && forallb (fun ic : nat * ascii =>
                    if ((fst ic =? 8) || (fst ic =? 13) || (fst ic =? 18) || (fst ic =? 23))%nat
                    then Ascii.eqb (snd ic) "-"%char
                    else hex_digit (snd ic))
           (combine (seq 0 36) units))
  then None
  else Some "Invalid uuid".

(** Whole amounts as doubles. *)
Definition whole_0 : Double.t := Double.mk 0 0 eq_refl.
Definition whole_500000 : Double.t := Double.mk 500000 0 eq_refl.
Definition whole_580000 : Double.t := Double.mk 580000 0 eq_refl.
Definition whole_990000 : Double.t := Double.mk 990000 0 eq_refl.
Definition whole_1000000 : Double.t := Double.mk 1000000 0 eq_refl.
Definition whole_2000000 : Double.t := Double.mk 2000000 0 eq_refl.

(** The largest double below 100,000. *)
Definition just_below_100000 : Double.t := Double.mk 6871947673599999 (-36) eq_refl.

(** 980,000 and the largest double below it. *)
Definition whole_980000 : Double.t := Double.mk 980000 0 eq_refl.
Definition below_980000 : Double.t := Double.mk (980000 * 2 ^ 33 - 1) (-33) eq_refl.

Definition sample_company : Company :=
  {| company_userId := "u-1"; company_name := "Test Company"; sector := "Technology";
     targetRaise := whole_1000000; revenue := whole_500000;
     kycVerified := false; financialsLinked := false;
     company_createdAt := 0; company_updatedAt := 0 |}.

Definition sample_document (i : string) (cat : string) : Document :=
  {| doc_id := i; doc_companyId := "c-1"; doc_name := "Document.pdf";
     mimeType := "application/pdf"; size := 1024000;
     path := "/uploads/c-1/" ++ i ++ ".pdf"; category := cat;
     doc_createdAt := 0; doc_updatedAt := 0 |}.

Definition sample_state : State :=
  {| company := {[ "c-1" := sample_company ]};
     document := [sample_document "d-1" "other"; sample_document "d-2" "pitch-deck";
                  sample_document "d-3" "other"];
     notification := []; auditLog := []; console := [] |}.

Definition sample_env : Env :=
  {| now := 1; uuid := "n-1"; random := 1 # 2; fileId := "d-9";
     validateFile := None; sanitizedName := "plan.pdf"; processedSize := 2048;
     finalPath := "/uploads/c-1/d-9.pdf";
     fs_access := fun _ => true; fs_unlink := fun _ => true;
     zod_uuid := uuid_shape |}.

(** ** Definitions used to state the properties *)

(** The machine's binary64 arithmetic (the kernel's floats) and the
    library's specification of it, to compare [round64] with.  A finite
    float is read as the rational it denotes. *)
Definition float_value (f : float) : option Q :=
  match Prim2SF f with
  | S754_zero _ => Some 0%Q
  | S754_finite s m e => Some ((if s then -1 else 1) * inject_Z (Zpos m) * 2 ^ e)%Q
  | _ => None
  end.

Definition float_of_Z (n : Z) : float :=
  if n <? 0 then (- of_uint63 (Uint63.of_Z (- n)))%float else of_uint63 (Uint63.of_Z n).

Definition same_number (a : option Q) (b : Q) : bool :=
  match a with Some x => Qeq_bool x b | None => false end.

(** [a / b] and [a * b] computed by the machine and by the library's
    specification both denote what [fdiv] and [fmul] give. *)
Definition quotient_checked (a b : float) : bool :=
  match float_value a, float_value b with
  | Some x, Some y =>
      same_number (float_value (a / b)%float) (fdiv x y)
      && same_number (float_value (SF2Prim (SF64div (Prim2SF a) (Prim2SF b)))) (fdiv x y)
  | _, _ => false
  end.

Definition product_checked (a b : float) : bool :=
  match float_value a, float_value b with
  | Some x, Some y =>
      same_number (float_value (a * b)%float) (fmul x y)
      && same_number (float_value (SF2Prim (SF64mul (Prim2SF a) (Prim2SF b)))) (fmul x y)
  | _, _ => false
  end.

(** [(revenue / 1000000) * 25] computed by the machine denotes what the
    model computes. *)
Definition revenue_product_checked (revenue : float) : bool :=
  match float_value revenue with
  | Some x =>
      same_number (float_value (revenue / 1000000 * 25)%float) (fmul (fdiv x 1000000) 25)
  | None => false
  end.

(** The revenue term as the specification writes it,
    [round(min(revenue, 1_000_000) / 1_000_000 * 25)], in exact arithmetic
    with [round] rounding half up. *)
Definition revenue_term (revenue : Q) : Z :=
  Math_round (Qmin revenue 1000000 / 1000000 * 25)%Q.


(** The recommendation list as the specification words it: four independent
    conditions, in order; [N = 5 - documentCount], "document" for one and
    "documents" for more. *)
Definition upload_message (N : Z) : string :=
  "Upload " ++ Number_toString N ++ " more "
    ++ (if N =? 1 then "document" else "documents")
    ++ " to maximize document points".

Definition expected_recommendations (kyc fin : bool) (documentCount : Z) (revenue : Q)
  : list string :=
  ((if kyc then [] else ["Complete KYC verification to earn 30 points"])
   ++ (if fin then [] else ["Link your bank account to earn 20 points"])
   ++ (if Z_lt_dec documentCount 5 then [upload_message (5 - documentCount)] else [])
   ++ (if Qlt_le_dec revenue 1000000
       then ["As your revenue grows, your score will automatically improve"]
       else []))%list.



Definition company_negative_revenue : Company :=
  {| company_userId := "u-1"; company_name := "Test Company"; sector := "Technology";
     targetRaise := whole_1000000; revenue := Double.mk (-1000000) 0 eq_refl;
     kycVerified := false; financialsLinked := false;
     company_createdAt := 0; company_updatedAt := 0 |}.

Definition state_negative_revenue : State :=
  {| company := {[ "c-1" := company_negative_revenue ]};
     document := []; notification := []; auditLog := []; console := [] |}.

(** A brand-new company and a fully optimised one (the two fixtures of the
    service's test-suite). *)
Definition optimized_company : Company :=
  {| company_userId := "u-1"; company_name := "Test Company"; sector := "Technology";
     targetRaise := whole_1000000; revenue := whole_2000000;
     kycVerified := true; financialsLinked := true;
     company_createdAt := 0; company_updatedAt := 0 |}.

Definition brand_new_company : Company :=
  {| company_userId := "u-1"; company_name := "Test Company"; sector := "Technology";
     targetRaise := whole_1000000; revenue := whole_0;
     kycVerified := false; financialsLinked := false;
     company_createdAt := 0; company_updatedAt := 0 |}.

Definition brand_new_state : State :=
  {| company := {[ "c-1" := brand_new_company ]};
     document := []; notification := []; auditLog := []; console := [] |}.

Definition optimized_state : State :=
  {| company := {[ "c-1" := optimized_company ]};
     document := [sample_document "d-1" "other"; sample_document "d-2" "other";
                  sample_document "d-3" "other"; sample_document "d-4" "other";
                  sample_document "d-5" "other"];
     notification := []; auditLog := []; console := [] |}.

(** Two document rows that agree on everything but [category]. *)
Definition same_up_to_category (d1 d2 : Document) : Prop :=
  doc_id d1 = doc_id d2 /\ doc_companyId d1 = doc_companyId d2
  /\ doc_name d1 = doc_name d2 /\ mimeType d1 = mimeType d2 /\ size d1 = size d2
  /\ path d1 = path d2 /\ doc_createdAt d1 = doc_createdAt d2
  /\ doc_updatedAt d1 = doc_updatedAt d2.

(** Two states that differ only in the categories assigned to documents. *)
Definition differ_only_in_categories (st1 st2 : State) : Prop :=
  company st1 = company st2
  /\ Forall2 same_up_to_category (document st1) (document st2)
  /\ notification st1 = notification st2
  /\ auditLog st1 = auditLog st2
  /\ console st1 = console st2.

(** [sample_state] with every document filed under another category. *)
Definition recategorized_state : State :=
  {| company := {[ "c-1" := sample_company ]};
     document := [sample_document "d-1" "legal-documents";
                  sample_document "d-2" "business-plan";
                  sample_document "d-3" "financial-statements"];
     notification := []; auditLog := []; console := [] |}.

(** One scoring input of a company raised, the other three held fixed.  The
    inputs are the company row and its document count. *)
Inductive raises : Company * nat -> Company * nat -> Prop :=
| raise_kycVerified c c' n :
    kycVerified c = false -> kycVerified c' = true ->
    financialsLinked c' = financialsLinked c -> (revenue c' == revenue c)%Q ->
    raises (c, n) (c', n)
| raise_financialsLinked c c' n :
    financialsLinked c = false -> financialsLinked c' = true ->
    kycVerified c' = kycVerified c -> (revenue c' == revenue c)%Q ->
    raises (c, n) (c', n)
| raise_documentCount c c' n :
    kycVerified c' = kycVerified c -> financialsLinked c' = financialsLinked c ->
    (revenue c' == revenue c)%Q ->
    raises (c, n) (c', S n)
| raise_revenue c c' n :
    kycVerified c' = kycVerified c -> financialsLinked c' = financialsLinked c ->
    (revenue c <= revenue c')%Q ->
    raises (c, n) (c', n).

(** The notification written by [notifyScoreImproved], recognised by its
    title. *)
Definition score_improved (n : Notification) : Prop :=
  title n = Some "Score Improved".

(** [st'] has the notifications of [st] followed by new rows that all
    satisfy [P]. *)
Definition adds_only (P : Notification -> Prop) (st st' : State) : Prop :=
  exists new, notification st' = (notification st ++ new)%list /\ Forall P new.

(** Whatever the start state, running [m] only adds notifications that
    satisfy [P]. *)
Definition emits_only (P : Notification -> Prop) {A} (m : M A) : Prop :=
  forall st, adds_only P st (snd (m st)).

(** The requests used as examples. *)
Definition verify_request : kycRoutes.KycVerificationRequest :=
  kycRoutes.mkRequest "c-1" None true.

Definition link_request : financialsRoutes.LinkFinancialsRequest :=
  financialsRoutes.mkRequest "c-1" "public-token" None.

(** The fixture of the service's test-suite: one company (id "c-1") with
    the given row and [n] uploaded documents. *)
Definition fixture_documents (n : nat) : list Document :=
  map (fun i => sample_document ("d-" ++ Number_toString (Z.of_nat i)) "other") (seq 1 n).

Definition fixture (c : Company) (n : nat) : State :=
  {| company := {[ "c-1" := c ]}; document := fixture_documents n;
     notification := []; auditLog := []; console := [] |}.

Definition with_flags (kyc fin : bool) (c : Company) : Company :=
  {| company_userId := company_userId c; company_name := company_name c;
     sector := sector c; targetRaise := targetRaise c; revenue := revenue c;
     kycVerified := kyc; financialsLinked := fin;
     company_createdAt := company_createdAt c; company_updatedAt := company_updatedAt c |}.

(** ** Definitions for the properties of the handlers *)

(** The company a request is about. *)
Definition target (m : Mutation) : string :=
  match m with
  | VerifyKyc body => kycRoutes.companyId body
  | LinkFinancials body => financialsRoutes.companyId body
  | UnlinkFinancials companyId => companyId
  | UploadDocument request => filesRoutes.companyId request
  | DeleteDocument companyId _ => companyId
  | Recalculate companyId => companyId
  end.

(** A sequence of requests served one after the other, each with its own
    environment. *)
Definition run (requests : list (Env * Mutation)) (st : State) : State :=
  fold_left (fun st r => snd (handle (fst r) (snd r) st)) requests st.

(** Whatever the start state, [m] ends in a state related to it by [R]. *)
Definition steps_within (R : State -> State -> Prop) {A} (m : M A) : Prop :=
  forall st, R st (snd (m st)).

(** Whenever [m] returns a value, the value satisfies [Q]. *)
Definition returns_only {A} (Q : A -> Prop) (m : M A) : Prop :=
  forall st a, fst (m st) = Ok a -> Q a.

(** The notification [create] writes. *)
Definition new_notification (env : Env) (userId : string) (type : NotificationType)
    (msg : string) (ttl : option string) (d : option JsObject) : Notification :=
  {| ntf_id := uuid env; ntf_userId := userId; ntf_type := type; title := ttl;
     message := msg; data := d; ntf_createdAt := now env; ntf_updatedAt := now env;
     readAt := None |}.

(** The console line [onCompanyDataChange] writes for a score. *)
Definition score_line (companyId : string) (s : InvestabilityScore) : ConsoleEntry :=
  console_log ("Score updated for company " ++ companyId ++ ": "
                 ++ Number_toString (score s)).

(** The verification step of [post_verify]: [Some verified], or [None] when
    the request has neither [mockVerify] nor an [inquiryId]. *)
Definition verification_outcome (env : Env) (body : kycRoutes.KycVerificationRequest)
  : option bool :=
  if kycRoutes.mockVerify body then Some true
  else if truthy (kycRoutes.inquiryId body)
       then Some (kycRoutes.verifyWithPersona env (default "" (kycRoutes.inquiryId body)))
       else None.

(** The rows the handlers write. *)
Definition kyc_notification (env : Env) (userId : string) : Notification :=
  new_notification env userId success
    "Your KYC verification has been completed successfully. You earned 30 investability points!"
    (Some "KYC Verified")
    (Some [("event", JString "kyc_verified"); ("pointsEarned", JNumber 30)]).

Definition financials_notification (env : Env) (userId : string) : Notification :=
  new_notification env userId success
    "Your bank account has been successfully linked. You earned 20 investability points!"
    (Some "Financials Linked")
    (Some [("event", JString "financials_linked"); ("pointsEarned", JNumber 20)]).

Definition upload_notification (env : Env) (userId documentName : string) : Notification :=
  new_notification env userId info
    ("Document " ++ dquote ++ documentName
       ++ dquote ++ " has been uploaded successfully to your data room.")
    (Some "Document Uploaded")
    (Some [("event", JString "document_uploaded"); ("documentName", JString documentName)]).

Definition uploaded_document (env : Env) (request : filesRoutes.UploadRequest)
    (file : FileService.UploadedFile) : Document :=
  {| doc_id := fileId env;
     doc_companyId := filesRoutes.companyId request;
     doc_name := sanitizedName env;
     mimeType := FileService.mimetype file;
     size := processedSize env;
     path := finalPath env;
     category := FileService.or_other (filesRoutes.category_field request);
     doc_createdAt := now env;
     doc_updatedAt := now env |}.

(** Requests and environments used as examples. *)
Definition persona_request : kycRoutes.KycVerificationRequest :=
  kycRoutes.mkRequest "c-1" (Some "inq-1") false.

Definition empty_request : kycRoutes.KycVerificationRequest :=
  kycRoutes.mkRequest "c-1" None false.

Definition unlucky_env : Env :=
  {| now := 1; uuid := "n-1"; random := 1 # 20; fileId := "d-9";
     validateFile := None; sanitizedName := "plan.pdf"; processedSize := 2048;
     finalPath := "/uploads/c-1/d-9.pdf";
     fs_access := fun _ => true; fs_unlink := fun _ => true;
     zod_uuid := uuid_shape |}.

Definition rejecting_env : Env :=
  {| now := 1; uuid := "n-1"; random := 1 # 2; fileId := "d-9";
     validateFile := Some (Error "File type text/html is not allowed");
     sanitizedName := "plan.pdf"; processedSize := 2048;
     finalPath := "/uploads/c-1/d-9.pdf";
     fs_access := fun _ => true; fs_unlink := fun _ => true;
     zod_uuid := uuid_shape |}.

Definition upload_request : filesRoutes.UploadRequest :=
  filesRoutes.mkRequest "c-1"
    (Some (FileService.mkUploadedFile "plan.pdf" "application/pdf" 2048)) None.


Definition missing_request : kycRoutes.KycVerificationRequest :=
  kycRoutes.mkRequest "c-2" None true.

Definition empty_token_request : financialsRoutes.LinkFinancialsRequest :=
  financialsRoutes.mkRequest "6f1c2a9e-3b4d-4c5e-8f70-a1b2c3d4e5f6" "" None.

Definition unknown_company_request : financialsRoutes.LinkFinancialsRequest :=
  financialsRoutes.mkRequest "6f1c2a9e-3b4d-4c5e-8f70-a1b2c3d4e5f6" "public-token" None.


(** The row [db.document.findFirst({ where: { id, companyId } })] returns. *)
Definition findFirst_document (st : State) (fileId companyId : string) : option Document :=
  head (filter (fun d => doc_id d = fileId /\ doc_companyId d = companyId) (document st)).

(** The audit row written when a document is deleted. *)
Definition deletion_audit (env : Env) (userId fileId : string) (d : Document) : AuditLog :=
  {| audit_userId := userId;
     action := "document_deleted";
     resource := "Document:" ++ fileId;
     metadata :=
       [("fileName", JString (doc_name d));
        ("fileSize", JNumber (size d));
        ("mimeType", JString (mimeType d));
        ("timestamp", JDate (now env))];
     audit_createdAt := now env |}.

Definition offline_env : Env :=
  {| now := 1; uuid := "n-1"; random := 1 # 2; fileId := "d-9";
     validateFile := None; sanitizedName := "plan.pdf"; processedSize := 2048;
     finalPath := "/uploads/c-1/d-9.pdf";
     fs_access := fun _ => false; fs_unlink := fun _ => true;
     zod_uuid := uuid_shape |}.

(** What no handler changes in a company row: everything but the two flags
    and [updatedAt]; and [kycVerified], once set, stays set. *)
Definition company_kept (c c' : Company) : Prop :=
  company_userId c' = company_userId c
  /\ company_name c' = company_name c
  /\ sector c' = sector c
  /\ targetRaise c' = targetRaise c
  /\ revenue c' = revenue c
  /\ company_createdAt c' = company_createdAt c
  /\ (kycVerified c = true -> kycVerified c' = true).

(** The company table has the same ids, and each row is kept in that sense. *)
Definition companies_kept (st st' : State) : Prop :=
  forall j,
    match company st !! j, company st' !! j with
    | Some c, Some c' => company_kept c c'
    | None, None => True
    | _, _ => False
    end.

(** Every company row but the one with id [t] is the same. *)
Definition others_untouched (t : string) (st st' : State) : Prop :=
  forall j, j <> t -> company st' !! j = company st !! j.

(** The five kinds of audit row the handlers write: the action and what the
    resource names. *)
Definition handler_audit_row (a : AuditLog) : Prop :=
  (action a = "kyc_verified" /\ exists i, resource a = "Company:" ++ i)
  \/ (action a = "financials_linked" /\ exists i, resource a = "Company:" ++ i)
  \/ (action a = "financials_unlinked" /\ exists i, resource a = "Company:" ++ i)
  \/ (action a = "document_uploaded" /\ exists i, resource a = "Document:" ++ i)
  \/ (action a = "document_deleted" /\ exists i, resource a = "Document:" ++ i).

(** [st'] has the audit rows of [st] followed by new rows that all satisfy
    [P]. *)
Definition audit_adds_only (P : AuditLog -> Prop) (st st' : State) : Prop :=
  exists new, auditLog st' = (auditLog st ++ new)%list /\ Forall P new.

(** What one request does to the document table, seen from company [t]:
    nothing, one more document of [t], or the rows with one id gone, an id
    that a document of [t] carried. *)
Definition documents_step (t : string) (st st' : State) : Prop :=
  document st' = document st
  \/ (exists d, doc_companyId d = t /\ document st' = (document st ++ [d])%list)
  \/ (exists f d, findFirst_document st f t = Some d
                  /\ document st' = filter (fun x => doc_id x <> f) (document st)).

(** The document table is the same. *)
Definition documents_same (st st' : State) : Prop := document st' = document st.

(** Notifications used as examples: two of user "u-1" (one read), one of
    user "u-2". *)
Definition sample_notification (i u : string) (created : Z) (read : option Z)
  : Notification :=
  {| ntf_id := i; ntf_userId := u; ntf_type := info; title := Some "Note";
     message := "hello"; data := None; ntf_createdAt := created;
     ntf_updatedAt := created; readAt := read |}.

Definition inbox_state : State :=
  {| company := {[ "c-1" := sample_company ]};
     document := [];
     notification := [sample_notification "n-1" "u-1" 10 None;
                      sample_notification "n-2" "u-1" 20 (Some 25);
                      sample_notification "n-3" "u-2" 30 None];
     auditLog := []; console := [] |}.

(** Two notifications of one user created at the same instant. *)
Definition twins_state : State :=
  {| company := {[ "c-1" := sample_company ]};
     document := [];
     notification := [sample_notification "n-1" "u-1" 10 None;
                      sample_notification "n-2" "u-1" 10 None];
     auditLog := []; console := [] |}.

(** The rows of one user. *)
Definition notifications_of (userId : string) (st : State) : list Notification :=
  filter (fun n => ntf_userId n = userId) (notification st).

(** Whether a name has a dot directly followed by a dot. *)
Fixpoint adjacent_dots (s : FileService.CodeUnits) : bool :=
  match s with
  | c :: (d :: _) as rest =>
      ((c =? FileService.dot) && (d =? FileService.dot))%N || adjacent_dots rest
  | _ => false
  end.

(** The units a sanitized name is made of: letters, digits, dot, hyphen and
    the underscore. *)
Definition safe_unit (c : N) : Prop :=
  FileService.name_char c = true \/ c = FileService.underscore.

(** The file of a document is present on disk. *)
Definition on_disk (env : Env) (d : Document) : Prop := fs_access env (path d) = true.

(** An environment where only the file of "d-2" is missing. *)
Definition lossy_env : Env :=
  {| now := 1; uuid := "n-1"; random := 1 # 2; fileId := "d-9";
     validateFile := None; sanitizedName := "plan.pdf"; processedSize := 2048;
     finalPath := "/uploads/c-1/d-9.pdf";
     fs_access := fun p => negb (String.eqb p "/uploads/c-1/d-2.pdf");
     fs_unlink := fun _ => true;
     zod_uuid := uuid_shape |}.

(** * Properties *)

Import InvestabilityService.

(** ** Rounding *)

Lemma Math_round_bounds (x : Q) :
  (inject_Z (Math_round x) - (1 # 2) <= x < inject_Z (Math_round x) + (1 # 2))%Q.
Proof.
  unfold Math_round.
  pose proof (Qfloor_le (x + (1 # 2))) as Hlo.
  pose proof (Qlt_floor (x + (1 # 2))) as Hhi.
  rewrite inject_Z_plus in Hhi. change (inject_Z 1) with 1%Q in Hhi.
  split; lra.
Qed.

Lemma Math_round_mono (x y : Q) : (x <= y)%Q -> Math_round x <= Math_round y.
Proof. intros H. unfold Math_round. apply Qfloor_resp_le. lra. Qed.

Lemma Math_round_comp (x y : Q) : (x == y)%Q -> Math_round x = Math_round y.
Proof. intros H. unfold Math_round. apply Qfloor_comp. lra. Qed.

Lemma Math_round_half (k : Z) : Math_round (inject_Z k + (1 # 2)) = k + 1.
Proof.
  unfold Math_round.
  assert (inject_Z k + (1 # 2) + (1 # 2) == inject_Z (k + 1))%Q as E
    by (rewrite inject_Z_plus; change (inject_Z 1) with 1%Q; lra).
  rewrite (Qfloor_comp _ _ E). apply Qfloor_Z.
Qed.

Lemma Math_round_unique (x : Q) (n : Z) :
  (inject_Z n - (1 # 2) <= x < inject_Z n + (1 # 2))%Q -> Math_round x = n.
Proof.
  intros [Hlo Hhi].
  pose proof (Math_round_bounds x) as [Mlo Mhi].
  set (m := Math_round x) in *.
  assert (inject_Z m < inject_Z (n + 1))%Q as H1
    by (rewrite inject_Z_plus; change (inject_Z 1) with 1%Q; lra).
  assert (inject_Z n < inject_Z (m + 1))%Q as H2
    by (rewrite inject_Z_plus; change (inject_Z 1) with 1%Q; lra).
  rewrite <- Zlt_Qlt in H1, H2. lia.
Qed.

(** ** Rounding to the nearest double *)

Lemma round_half_even_comp (x y : Q) : (x == y)%Q -> round_half_even x = round_half_even y.
Proof.
  intros H. unfold round_half_even. rewrite (Qfloor_comp _ _ H).
  assert ((x - inject_Z (Qfloor y) ?= 1 # 2) = (y - inject_Z (Qfloor y) ?= 1 # 2))%Q as ->
    by (rewrite H; reflexivity).
  reflexivity.
Qed.

Lemma round_half_even_bounds (q : Q) :
  (q - (1 # 2) <= inject_Z (round_half_even q) <= q + (1 # 2))%Q.
Proof.
  unfold round_half_even.
  pose proof (Qfloor_le q) as Hlo. pose proof (Qlt_floor q) as Hhi.
  rewrite inject_Z_plus in Hhi. change (inject_Z 1) with 1%Q in Hhi.
  set (f := Qfloor q) in *.
  destruct (q - inject_Z f ?= 1 # 2)%Q eqn:E.
  - apply Qeq_alt in E.
    destruct (Z.even f);
      [|rewrite inject_Z_plus; change (inject_Z 1) with 1%Q]; split; lra.
  - apply Qlt_alt in E. split; lra.
  - apply Qgt_alt in E. rewrite inject_Z_plus. change (inject_Z 1) with 1%Q. split; lra.
Qed.

Lemma round_half_even_Z (n : Z) : round_half_even (inject_Z n) = n.
Proof.
  unfold round_half_even. rewrite Qfloor_Z.
  assert (((inject_Z n - inject_Z n)%Q ?= (1 # 2)%Q)%Q = Lt) as ->
    by (apply (proj1 (Qlt_alt _ _)); generalize (inject_Z n); intros z; lra).
  reflexivity.
Qed.

Lemma inject_Z_lt_inv (a b : Z) : (inject_Z a < inject_Z b)%Q -> a < b.
Proof. rewrite <- Zlt_Qlt. trivial. Qed.

Lemma round_half_even_mono (x y : Q) :
  (x <= y)%Q -> round_half_even x <= round_half_even y.
Proof.
  intros H.
  destruct (Z_le_gt_dec (round_half_even x) (round_half_even y)) as [L|G]; [exact L|].
  pose proof (round_half_even_bounds x) as [_ Hx].
  pose proof (round_half_even_bounds y) as [Hy _].
  assert (inject_Z (round_half_even y) + 1 <= inject_Z (round_half_even x))%Q as Hg.
  { change 1%Q with (inject_Z 1). rewrite <- inject_Z_plus, <- Zle_Qle. lia. }
  assert (x == y)%Q as E by lra.
  rewrite (round_half_even_comp _ _ E). lia.
Qed.


(** Powers of two. *)
Lemma pow2_pos (e : Z) : (0 < 2 ^ e)%Q.
Proof. apply Qpower_0_lt. reflexivity. Qed.

Lemma pow2_plus (a b : Z) : (2 ^ (a + b) == 2 ^ a * 2 ^ b)%Q.
Proof. apply Qpower_plus. discriminate. Qed.

Lemma pow2_le (a b : Z) : a <= b -> (2 ^ a <= 2 ^ b)%Q.
Proof. intros H. apply Qpower_le_compat_l; [exact H | discriminate]. Qed.

Lemma pow2_lt_inv (a b : Z) : (2 ^ a < 2 ^ b)%Q -> a < b.
Proof. intros H. apply (Qpower_lt_compat_l_inv 2); [exact H | reflexivity]. Qed.

Lemma pow2_Z (n : Z) : 0 <= n -> (2 ^ n == inject_Z (2 ^ n))%Q.
Proof. intros H. rewrite Zpower_Qpower by exact H. reflexivity. Qed.

Lemma Qabs_num_den (x : Q) :
  (Qabs x * inject_Z (Zpos (Qden x)) == inject_Z (Z.abs (Qnum x)))%Q.
Proof.
  destruct x as [n d]. unfold Qabs, Qeq, inject_Z. simpl. lia.
Qed.

Lemma ilog2_spec (x : Q) :
  ~ (x == 0)%Q -> (2 ^ ilog2 x <= Qabs x < 2 ^ (ilog2 x + 1))%Q.
Proof.
  intros Hx. unfold ilog2.
  pose proof (Qabs_num_den x) as Hnd.
  assert (0 < Z.abs (Qnum x)) as Hn.
  { destruct x as [n d]. unfold Qeq in Hx. simpl in *. lia. }
  pose proof (Z.log2_spec _ Hn) as [Na Nb].
  pose proof (Z.log2_spec (Zpos (Qden x)) ltac:(lia)) as [Da Db].
  pose proof (Z.log2_nonneg (Z.abs (Qnum x))) as Ha.
  pose proof (Z.log2_nonneg (Zpos (Qden x))) as Hb.
  set (a := Z.log2 (Z.abs (Qnum x))) in *.
  set (b := Z.log2 (Zpos (Qden x))) in *.
  set (n := Z.abs (Qnum x)) in *. set (d := Zpos (Qden x)) in *.
  set (q := Qabs x) in *.
  assert (0 < inject_Z d)%Q as Hd
    by (change 0%Q with (inject_Z 0); rewrite <- Zlt_Qlt; lia).
  (* q < 2^(a-b+1) *)
  assert (q < 2 ^ (a - b + 1))%Q as Hhi.
  { apply (Qmult_lt_r _ _ (inject_Z d) Hd). rewrite Hnd.
    apply Qlt_le_trans with (inject_Z (2 ^ (Z.succ a))); [rewrite <- Zlt_Qlt; exact Nb|].
    apply Qle_trans with (2 ^ (a - b + 1) * inject_Z (2 ^ b))%Q.
    - rewrite <- (pow2_Z b Hb), <- pow2_plus, <- pow2_Z by lia.
      replace (a - b + 1 + b) with (Z.succ a) by lia. apply Qle_refl.
    - apply Qmult_le_l; [apply pow2_pos|]. rewrite <- Zle_Qle. exact Da. }
  (* 2^(a-b-1) <= q *)
  assert (2 ^ (a - b - 1) <= q)%Q as Hlo.
  { apply (Qmult_le_r _ _ (inject_Z d) Hd). rewrite Hnd.
    apply Qle_trans with (inject_Z (2 ^ a)); [|rewrite <- Zle_Qle; exact Na].
    apply Qle_trans with (2 ^ (a - b - 1) * inject_Z (2 ^ (Z.succ b)))%Q.
    - apply Qmult_le_l; [apply pow2_pos|]. rewrite <- Zle_Qle. lia.
    - rewrite <- (pow2_Z (Z.succ b)), <- pow2_plus, <- pow2_Z by lia.
      replace (a - b - 1 + Z.succ b) with a by lia. apply Qle_refl. }
  destruct (Qle_bool (2 ^ (a - b)) q) eqn:E.
  - apply Qle_bool_iff in E. split; assumption.
  - assert (q < 2 ^ (a - b))%Q as E'.
    { apply Qnot_le_lt. intros C. apply Qle_bool_iff in C. congruence. }
    replace (a - b - 1 + 1) with (a - b) by lia. split; assumption.
Qed.

Lemma ilog2_comp (x y : Q) : ~ (x == 0)%Q -> (x == y)%Q -> ilog2 x = ilog2 y.
Proof.
  intros Hx E.
  assert (~ (y == 0)%Q) as Hy by (rewrite <- E; exact Hx).
  pose proof (ilog2_spec x Hx) as [X1 X2]. pose proof (ilog2_spec y Hy) as [Y1 Y2].
  assert (Qabs x == Qabs y)%Q as EA by (apply Qabs_wd; exact E).
  assert (ilog2 x < ilog2 y + 1) by (apply pow2_lt_inv; lra).
  assert (ilog2 y < ilog2 x + 1) by (apply pow2_lt_inv; lra).
  lia.
Qed.

Lemma ilog2_mono (x y : Q) : (0 < x)%Q -> (x <= y)%Q -> ilog2 x <= ilog2 y.
Proof.
  intros Hx Hxy.
  pose proof (ilog2_spec x ltac:(lra)) as [X1 _].
  pose proof (ilog2_spec y ltac:(lra)) as [_ Y2].
  rewrite Qabs_pos in X1, Y2 by lra.
  assert (ilog2 x < ilog2 y + 1) by (apply pow2_lt_inv; lra).
  lia.
Qed.

(** The scaled magnitude lies below 2^53, and from 2^52 on for a normal
    number. *)
Lemma scaled_magnitude (a : Q) :
  (0 < a)%Q ->
  let e := ulp_exponent a in
  -1074 <= e
  /\ (a / 2 ^ e < 2 ^ 53)%Q
  /\ (-1074 < e -> (2 ^ (e + 52) <= a)%Q /\ (2 ^ 52 <= a / 2 ^ e)%Q).
Proof.
  intros Ha e. unfold ulp_exponent in e.
  pose proof (ilog2_spec a ltac:(lra)) as [L1 L2]. rewrite Qabs_pos in L1, L2 by lra.
  pose proof (pow2_pos e) as He.
  split; [unfold e; lia|]. split.
  - apply Qlt_shift_div_r; [exact He|]. rewrite <- pow2_plus.
    eapply Qlt_le_trans; [exact L2|]. apply pow2_le. unfold e. lia.
  - intros Hn. assert (e = ilog2 a - 52) as Ee by (unfold e in *; lia).
    assert (2 ^ (e + 52) <= a)%Q as H1
      by (replace (e + 52) with (ilog2 a) by lia; exact L1).
    split; [exact H1|].
    apply Qle_shift_div_l; [exact He|]. rewrite <- pow2_plus.
    replace (52 + e) with (e + 52) by lia. exact H1.
Qed.

Lemma zero_div (a c : Q) : (a == 0)%Q -> (a / c == inject_Z 0)%Q.
Proof. intros H. rewrite H. unfold Qdiv. apply Qmult_0_l. Qed.

Lemma round64_magnitude_comp (a b : Q) :
  (a == b)%Q -> (round64_magnitude a == round64_magnitude b)%Q.
Proof.
  intros E. unfold round64_magnitude, ulp_exponent.
  destruct (Qeq_dec a 0) as [Z0|N0].
  - assert (b == 0)%Q as Zb by (rewrite <- E; exact Z0).
    rewrite (round_half_even_comp (a / _) (inject_Z 0)),
      (round_half_even_comp (b / _) (inject_Z 0)).
    + rewrite round_half_even_Z. change (inject_Z 0) with 0%Q. lra.
    + apply zero_div. exact Zb.
    + apply zero_div. exact Z0.
  - rewrite (ilog2_comp a b N0 E).
    rewrite (round_half_even_comp (a / _) (b / _)) by (rewrite E; reflexivity).
    reflexivity.
Qed.

Lemma round64_magnitude_0 : (round64_magnitude 0 == 0)%Q.
Proof. reflexivity. Qed.

Lemma round64_magnitude_nonneg (a : Q) : (0 <= a)%Q -> (0 <= round64_magnitude a)%Q.
Proof.
  intros H. unfold round64_magnitude.
  apply Qmult_le_0_compat; [|apply Qlt_le_weak, pow2_pos].
  change 0%Q with (inject_Z 0). rewrite <- Zle_Qle.
  rewrite <- (round_half_even_Z 0). apply round_half_even_mono.
  apply Qle_shift_div_l; [apply pow2_pos|]. rewrite Qmult_0_l. exact H.
Qed.

Lemma round64_magnitude_mono (a b : Q) :
  (0 <= a)%Q -> (a <= b)%Q -> (round64_magnitude a <= round64_magnitude b)%Q.
Proof.
  intros Ha Hab.
  destruct (Qeq_dec a 0) as [Z0|N0].
  { rewrite (round64_magnitude_comp a 0 Z0), round64_magnitude_0.
    apply round64_magnitude_nonneg. lra. }
  assert (0 < a)%Q as Ha' by (destruct (Qlt_le_dec 0 a); [assumption | exfalso; apply N0; lra]).
  assert (0 < b)%Q as Hb' by lra.
  destruct (scaled_magnitude a Ha') as (Ea & Ua & _).
  destruct (scaled_magnitude b Hb') as (Eb & _ & Lb).
  unfold round64_magnitude.
  pose proof (ilog2_mono a b Ha' Hab) as Hl.
  set (ea := ulp_exponent a) in *. set (eb := ulp_exponent b) in *.
  assert (ea <= eb) as Hle by (unfold ea, eb, ulp_exponent; lia).
  destruct (Z.eq_dec ea eb) as [E|N].
  - rewrite E. apply Qmult_le_compat_r; [|apply Qlt_le_weak, pow2_pos].
    rewrite <- Zle_Qle. apply round_half_even_mono.
    apply Qmult_le_compat_r; [exact Hab|].
    apply Qlt_le_weak, Qinv_lt_0_compat, pow2_pos.
  - destruct (Lb ltac:(lia)) as [_ Lb'].
    assert (round_half_even (a / 2 ^ ea) <= 2 ^ 53) as Hu.
    { rewrite <- (round_half_even_Z (2 ^ 53)). apply round_half_even_mono.
      apply Qlt_le_weak. exact Ua. }
    assert (2 ^ 52 <= round_half_even (b / 2 ^ eb)) as Hl2.
    { rewrite <- (round_half_even_Z (2 ^ 52)) at 1. apply round_half_even_mono. exact Lb'. }
    apply Qle_trans with (inject_Z (2 ^ 53) * 2 ^ ea)%Q.
    { apply Qmult_le_compat_r; [|apply Qlt_le_weak, pow2_pos]. rewrite <- Zle_Qle. exact Hu. }
    apply Qle_trans with (inject_Z (2 ^ 52) * 2 ^ eb)%Q.
    2: { apply Qmult_le_compat_r; [|apply Qlt_le_weak, pow2_pos]. rewrite <- Zle_Qle. exact Hl2. }
    rewrite <- (pow2_Z 53), <- (pow2_Z 52), <- !pow2_plus by lia.
    apply pow2_le. lia.
Qed.

Lemma round64_nonneg (x : Q) : (0 <= x)%Q -> (0 <= round64 x)%Q.
Proof.
  intros H. unfold round64.
  assert (Qle_bool 0 x = true) as -> by (apply Qle_bool_iff; exact H).
  apply round64_magnitude_nonneg. exact H.
Qed.

Lemma round64_nonpos (x : Q) : (x <= 0)%Q -> (round64 x <= 0)%Q.
Proof.
  intros H. unfold round64.
  destruct (Qle_bool 0 x) eqn:E.
  - apply Qle_bool_iff in E. assert (x == 0)%Q as E0 by lra.
    rewrite (round64_magnitude_comp x 0 E0), round64_magnitude_0. lra.
  - pose proof (round64_magnitude_nonneg (- x) ltac:(lra)). lra.
Qed.

Lemma round64_mono (x y : Q) : (x <= y)%Q -> (round64 x <= round64 y)%Q.
Proof.
  intros H.
  destruct (Qlt_le_dec x 0) as [Hx|Hx], (Qlt_le_dec y 0) as [Hy|Hy].
  - unfold round64.
    assert (Qle_bool 0 x = false) as -> by (apply not_true_is_false; rewrite Qle_bool_iff; lra).
    assert (Qle_bool 0 y = false) as -> by (apply not_true_is_false; rewrite Qle_bool_iff; lra).
    pose proof (round64_magnitude_mono (- y) (- x) ltac:(lra) ltac:(lra)). lra.
  - eapply Qle_trans; [apply round64_nonpos; lra | apply round64_nonneg; exact Hy].
  - lra.
  - unfold round64.
    assert (Qle_bool 0 x = true) as -> by (apply Qle_bool_iff; exact Hx).
    assert (Qle_bool 0 y = true) as -> by (apply Qle_bool_iff; exact Hy).
    apply round64_magnitude_mono; assumption.
Qed.

Lemma round64_comp (x y : Q) : (x == y)%Q -> (round64 x == round64 y)%Q.
Proof. intros H. apply Qle_antisym; apply round64_mono; lra. Qed.

Lemma half_ulp_min_small : (0 <= half_ulp_min <= 1 # 1000000000000000000000000000000)%Q.
Proof.
  split; apply Qle_bool_imp_le; vm_compute; reflexivity.
Qed.

Lemma round64_magnitude_error (a B : Q) :
  (0 <= a <= B)%Q ->
  (a - (B * (1 # 2 ^ 53) + half_ulp_min) <= round64_magnitude a
   <= a + (B * (1 # 2 ^ 53) + half_ulp_min))%Q.
Proof.
  intros [Ha HB].
  change (1 # 2 ^ 53)%Q with (1 # 9007199254740992)%Q.
  pose proof half_ulp_min_small as [Hh _].
  destruct (Qeq_dec a 0) as [Z0|N0].
  { rewrite (round64_magnitude_comp a 0 Z0), round64_magnitude_0. split; lra. }
  assert (0 < a)%Q as Ha' by (destruct (Qlt_le_dec 0 a); [assumption | exfalso; apply N0; lra]).
  destruct (scaled_magnitude a Ha') as (Ea & _ & La).
  unfold round64_magnitude.
  set (e := ulp_exponent a) in *.
  pose proof (pow2_pos e) as HP.
  pose proof (round_half_even_bounds (a / 2 ^ e)) as [Bl Bh].
  set (m := round_half_even (a / 2 ^ e)) in *.
  assert (a == a / 2 ^ e * 2 ^ e)%Q as EX by (field; lra).
  set (q := (a / 2 ^ e)%Q) in *.
  assert (2 ^ e * (1 # 2) <= a * (1 # 9007199254740992) + half_ulp_min)%Q as HPb.
  { destruct (Z.eq_dec e (-1074)) as [E0|N0'].
    - rewrite E0. unfold half_ulp_min.
      assert (2 ^ (-1074) * (1 # 2) == 2 ^ (-1075))%Q as -> by reflexivity.
      assert (0 <= a * (1 # 9007199254740992))%Q
        by (apply Qmult_le_0_compat; [exact Ha | discriminate]).
      lra.
    - destruct (La ltac:(lia)) as [L1 _]. rewrite pow2_plus in L1.
      change (2 ^ 52)%Q with (4503599627370496 # 1)%Q in L1. lra. }
  set (P := (2 ^ e)%Q) in *.
  assert ((inject_Z m - q) * P <= (1 # 2) * P)%Q as H1
    by (apply Qmult_le_compat_r; lra).
  assert ((q - inject_Z m) * P <= (1 # 2) * P)%Q as H2
    by (apply Qmult_le_compat_r; lra).
  assert (a * (1 # 9007199254740992) <= B * (1 # 9007199254740992))%Q as HaB
    by (apply Qmult_le_compat_r; [exact HB | discriminate]).
  split.
  - rewrite EX at 1. lra.
  - rewrite EX at 1. lra.
Qed.

(** The relative error of one rounding is at most 2^-53, or the absolute one
    at most 2^-1075. *)
Lemma round64_error (x B : Q) :
  (- B <= x <= B)%Q ->
  (x - (B * (1 # 2 ^ 53) + half_ulp_min) <= round64 x
   <= x + (B * (1 # 2 ^ 53) + half_ulp_min))%Q.
Proof.
  intros [Hl Hh]. unfold round64.
  destruct (Qle_bool 0 x) eqn:E.
  - apply Qle_bool_iff in E. apply round64_magnitude_error. split; assumption.
  - assert (x <= 0)%Q as E'.
    { destruct (Qlt_le_dec 0 x) as [L|L]; [|exact L].
      apply Qlt_le_weak, Qle_bool_iff in L. congruence. }
    pose proof (round64_magnitude_error (- x) B ltac:(split; lra)) as [Ml Mh].
    split; lra.
Qed.

Lemma round64_1 : (round64 1 == 1)%Q.
Proof. apply Qeq_bool_eq. vm_compute. reflexivity. Qed.

Lemma round64_m1 : (round64 (-1) == -1)%Q.
Proof. apply Qeq_bool_eq. vm_compute. reflexivity. Qed.

(** The double product is within 10^-14 of the exact value, for revenues up
    to a million either side of zero. *)
Lemma scaled_product_close (r : Q) :
  (-1000000 <= r <= 1000000)%Q ->
  (r / 1000000 * 25 - (1 # 10 ^ 14) <= fmul (fdiv r 1000000) 25
   <= r / 1000000 * 25 + (1 # 10 ^ 14))%Q.
Proof.
  intros [Hl Hh]. unfold fmul, fdiv.
  assert (r / 1000000 == r * (1 # 1000000))%Q as Ex
    by (unfold Qdiv; change (/ 1000000)%Q with (1 # 1000000)%Q; reflexivity).
  set (x := (r / 1000000)%Q) in *.
  assert (-1 <= x <= 1)%Q as Hx by (split; lra).
  pose proof (round64_error x 1 ltac:(change (- (1))%Q with (-1)%Q; exact Hx)) as [Xl Xh].
  pose proof half_ulp_min_small as [Hh0 Hh1].
  change (1 # 2 ^ 53)%Q with (1 # 9007199254740992)%Q in *.
  set (xh := round64 x) in *.
  assert (-26 <= xh * 25 <= 26)%Q as Hy by (split; lra).
  pose proof (round64_error (xh * 25) 26 Hy) as [Yl Yh].
  change (1 # 2 ^ 53)%Q with (1 # 9007199254740992)%Q in *.
  change (1 # 10 ^ 14)%Q with (1 # 100000000000000)%Q.
  set (yh := round64 (xh * 25)) in *.
  set (eta := half_ulp_min) in *.
  split; lra.
Qed.

(** No product overflows: whatever the revenue, the quotient and the product
    stay below 2^1010 in magnitude, far from 2^1024. *)
Lemma double_bound (d : Double.t) : (- 2 ^ 1024 <= d <= 2 ^ 1024)%Q.
Proof.
  destruct d as [m e ok]. unfold Double.value. cbn [Double.mantissa Double.exponent].
  unfold double_ok in ok. apply andb_prop in ok as [ok Hhi]. apply andb_prop in ok as [Hm Hlo].
  apply Z.ltb_lt in Hm. apply Z.leb_le in Hlo. apply Z.leb_le in Hhi.
  pose proof (pow2_pos e) as He. pose proof (pow2_le e 971 Hhi) as Hp.
  assert (2 ^ 1024 == inject_Z (2 ^ 53) * 2 ^ 971)%Q as ->
    by (rewrite <- (pow2_Z 53), <- pow2_plus by lia; reflexivity).
  assert (- inject_Z (2 ^ 53) <= inject_Z m <= inject_Z (2 ^ 53))%Q as [M1 M2].
  { rewrite <- inject_Z_opp, <- !Zle_Qle. lia. }
  set (P := (2 ^ e)%Q) in *. set (T := (2 ^ 971)%Q) in *.
  set (B := inject_Z (2 ^ 53)) in *. set (q := inject_Z m) in *.
  assert (0 < B)%Q as HB by (unfold B; change 0%Q with (inject_Z 0); rewrite <- Zlt_Qlt; lia).
  assert (q * P <= B * P)%Q by (apply Qmult_le_compat_r; lra).
  assert (- B * P <= q * P)%Q by (apply Qmult_le_compat_r; lra).
  assert (B * P <= B * T)%Q by (apply Qmult_le_l; assumption).
  split; lra.
Qed.

Lemma revenue_product_finite (revenue : Double.t) :
  (- 2 ^ 1010 <= fmul (fdiv revenue 1000000) 25 <= 2 ^ 1010)%Q.
Proof.
  pose proof (double_bound revenue) as [Hl Hh].
  assert (- 2 ^ 1005 <= fdiv revenue 1000000 <= 2 ^ 1005)%Q as [Dl Dh].
  { unfold fdiv. split.
    - apply Qle_trans with (round64 (- 2 ^ 1024 / 1000000)).
      + apply Qle_bool_imp_le. vm_compute. reflexivity.
      + apply round64_mono. unfold Qdiv.
        apply Qmult_le_compat_r; [exact Hl | discriminate].
    - apply Qle_trans with (round64 (2 ^ 1024 / 1000000)).
      + apply round64_mono. unfold Qdiv.
        apply Qmult_le_compat_r; [exact Hh | discriminate].
      + apply Qle_bool_imp_le. vm_compute. reflexivity. }
  unfold fmul. split.
  - apply Qle_trans with (round64 (- 2 ^ 1005 * 25)).
    + apply Qle_bool_imp_le. vm_compute. reflexivity.
    + apply round64_mono. apply Qmult_le_compat_r; [exact Dl | discriminate].
  - apply Qle_trans with (round64 (2 ^ 1005 * 25)).
    + apply round64_mono. apply Qmult_le_compat_r; [exact Dh | discriminate].
    + apply Qle_bool_imp_le. vm_compute. reflexivity.
Qed.

(** A double is its own rounding. *)
Lemma round64_magnitude_grid (m e : Z) :
  0 <= m < 2 ^ 53 -> -1074 <= e ->
  (round64_magnitude (inject_Z m * 2 ^ e) == inject_Z m * 2 ^ e)%Q.
Proof.
  intros [M0 M1] He.
  destruct (Z.eq_dec m 0) as [->|Nm].
  { rewrite (round64_magnitude_comp _ 0) by apply Qmult_0_l.
    rewrite round64_magnitude_0, Qmult_0_l. reflexivity. }
  pose proof (pow2_pos e) as HP.
  assert (0 < inject_Z m)%Q as Hm
    by (change 0%Q with (inject_Z 0); rewrite <- Zlt_Qlt; lia).
  assert (0 < inject_Z m * 2 ^ e)%Q as Hx by (apply Qmult_lt_0_compat; assumption).
  pose proof (ilog2_spec (inject_Z m * 2 ^ e) ltac:(lra)) as [L1 _].
  rewrite Qabs_pos in L1 by lra.
  unfold round64_magnitude, ulp_exponent.
  set (l := ilog2 (inject_Z m * 2 ^ e)) in *.
  assert (l < e + 53) as Hl.
  { apply pow2_lt_inv. eapply Qle_lt_trans; [exact L1|].
    rewrite Z.add_comm, pow2_plus, (pow2_Z 53) by lia.
    apply Qmult_lt_compat_r; [exact HP|]. rewrite <- Zlt_Qlt. exact M1. }
  set (u := Z.max (l - 52) (-1074)).
  assert (u <= e) as Hu by (unfold u; lia).
  assert (2 ^ e == inject_Z (2 ^ (e - u)) * 2 ^ u)%Q as Ee.
  { rewrite <- pow2_Z, <- pow2_plus by lia. replace (e - u + u) with e by lia. reflexivity. }
  pose proof (pow2_pos u) as HU.
  rewrite (round_half_even_comp _ (inject_Z (m * 2 ^ (e - u)))).
  - rewrite round_half_even_Z, inject_Z_mult, Ee. ring.
  - rewrite inject_Z_mult, Ee. field. lra.
Qed.

Lemma round64_of_double (d : Double.t) : (round64 d == d)%Q.
Proof.
  destruct d as [m e ok]. unfold Double.value. cbn [Double.mantissa Double.exponent].
  unfold double_ok in ok. apply andb_prop in ok as [ok Hhi]. apply andb_prop in ok as [Hm Hlo].
  apply Z.ltb_lt in Hm. apply Z.leb_le in Hlo. clear Hhi.
  pose proof (pow2_pos e) as HP.
  unfold round64.
  destruct (Z_le_gt_dec 0 m) as [M0|M0].
  - assert (Qle_bool 0 (inject_Z m * 2 ^ e) = true) as ->.
    { apply Qle_bool_iff. apply Qmult_le_0_compat; [|lra].
      change 0%Q with (inject_Z 0). rewrite <- Zle_Qle. exact M0. }
    apply round64_magnitude_grid; lia.
  - assert (inject_Z m < 0)%Q as Hneg
      by (change 0%Q with (inject_Z 0); rewrite <- Zlt_Qlt; lia).
    assert (inject_Z m * 2 ^ e < 0)%Q as Hx.
    { assert (0 < (- inject_Z m) * 2 ^ e)%Q by (apply Qmult_lt_0_compat; lra). lra. }
    assert (Qle_bool 0 (inject_Z m * 2 ^ e) = false) as ->
      by (apply not_true_is_false; rewrite Qle_bool_iff; lra).
    rewrite (round64_magnitude_comp _ (inject_Z (- m) * 2 ^ e))
      by (rewrite inject_Z_opp; ring).
    rewrite round64_magnitude_grid by lia.
    rewrite inject_Z_opp. ring.
Qed.

(** The rounding of a number up to the largest double is a double. *)
Lemma double_ok_intro (m e : Z) :
  Z.abs m < 2 ^ 53 -> -1074 <= e <= 971 -> double_ok m e = true.
Proof.
  intros Hm [H1 H2]. unfold double_ok.
  apply andb_true_intro. split; [apply andb_true_intro; split|].
  - apply Z.ltb_lt. exact Hm.
  - apply Z.leb_le. exact H1.
  - apply Z.leb_le. exact H2.
Qed.

Lemma round64_magnitude_is_double (a : Q) :
  (0 <= a <= inject_Z (2 ^ 53 - 1) * 2 ^ 971)%Q ->
  exists m e, 0 <= m < 2 ^ 53 /\ -1074 <= e <= 971
              /\ (round64_magnitude a == inject_Z m * 2 ^ e)%Q.
Proof.
  intros [H0 Hmax].
  destruct (Qeq_dec a 0) as [Z0|N0].
  { exists 0, 0. split; [lia|]. split; [lia|].
    rewrite (round64_magnitude_comp a 0 Z0), round64_magnitude_0. reflexivity. }
  assert (0 < a)%Q as Ha by (destruct (Qlt_le_dec 0 a); [assumption | exfalso; apply N0; lra]).
  destruct (scaled_magnitude a Ha) as (Elo & Ub & _).
  pose proof (ilog2_spec a ltac:(lra)) as [L1 _]. rewrite Qabs_pos in L1 by lra.
  assert (a < 2 ^ 1024)%Q as Hlt.
  { eapply Qle_lt_trans; [exact Hmax|].
    replace 1024 with (53 + 971) by lia. rewrite pow2_plus, (pow2_Z 53) by lia.
    apply Qmult_lt_compat_r; [apply pow2_pos|]. rewrite <- Zlt_Qlt. lia. }
  assert (ilog2 a < 1024) as Hl by (apply pow2_lt_inv; lra).
  unfold round64_magnitude.
  set (u := ulp_exponent a) in *.
  assert (u <= 971) as Hu by (unfold u, ulp_exponent; lia).
  pose proof (pow2_pos u) as HU.
  assert (0 <= round_half_even (a / 2 ^ u)) as M0.
  { rewrite <- (round_half_even_Z 0). apply round_half_even_mono.
    apply Qle_shift_div_l; [exact HU|]. rewrite Qmult_0_l. lra. }
  assert (round_half_even (a / 2 ^ u) <= 2 ^ 53) as M1.
  { rewrite <- (round_half_even_Z (2 ^ 53)). apply round_half_even_mono.
    apply Qlt_le_weak. rewrite <- pow2_Z by lia. exact Ub. }
  set (mm := round_half_even (a / 2 ^ u)) in *.
  destruct (Z.eq_dec mm (2 ^ 53)) as [E|N].
  - assert (u <= 970) as Hu'.
    { destruct (Z.eq_dec u 971) as [E971|]; [|lia]. exfalso.
      assert (mm <= 2 ^ 53 - 1); [|lia].
      unfold mm. rewrite <- (round_half_even_Z (2 ^ 53 - 1)).
      apply round_half_even_mono. apply Qle_shift_div_r; [exact HU|].
      rewrite E971. exact Hmax. }
    exists (2 ^ 52), (u + 1). split; [lia|]. split; [lia|].
    rewrite E, Z.add_comm, pow2_plus.
    change (inject_Z (2 ^ 53)) with (inject_Z (2 ^ 52) * 2 ^ 1)%Q at 1. ring.
  - exists mm, u. split; [lia|]. split; [lia|]. reflexivity.
Qed.

Lemma round64_is_double (x : Q) :
  (Qabs x <= inject_Z (2 ^ 53 - 1) * 2 ^ 971)%Q ->
  exists d : Double.t, (d == round64 x)%Q.
Proof.
  intros H. unfold round64.
  destruct (Qle_bool 0 x) eqn:E.
  - apply Qle_bool_iff in E. rewrite Qabs_pos in H by exact E.
    destruct (round64_magnitude_is_double x (conj E H)) as (m & e & Hm & He & Hr).
    exists (Double.mk m e (double_ok_intro m e ltac:(lia) He)).
    unfold Double.value. cbn [Double.mantissa Double.exponent]. rewrite Hr. reflexivity.
  - assert (x <= 0)%Q as E'.
    { destruct (Qlt_le_dec 0 x) as [L|L]; [|exact L].
      apply Qlt_le_weak, Qle_bool_iff in L. congruence. }
    rewrite Qabs_neg in H by exact E'.
    destruct (round64_magnitude_is_double (- x) ltac:(split; [lra | exact H]))
      as (m & e & Hm & He & Hr).
    exists (Double.mk (- m) e (double_ok_intro (- m) e ltac:(lia) He)).
    unfold Double.value. cbn [Double.mantissa Double.exponent].
    rewrite Hr, inject_Z_opp. ring.
Qed.

(** No integer is nearer to [q] than [round_half_even q]. *)
Lemma round_half_even_nearest (q : Q) (k : Z) :
  (Qabs (inject_Z (round_half_even q) - q) <= Qabs (inject_Z k - q))%Q.
Proof.
  pose proof (Qfloor_le q) as Hlo. pose proof (Qlt_floor q) as Hhi.
  rewrite inject_Z_plus in Hhi. change (inject_Z 1) with 1%Q in Hhi.
  assert (inject_Z k <= inject_Z (Qfloor q) \/ inject_Z (Qfloor q) + 1 <= inject_Z k)%Q as Hk.
  { destruct (Z_le_gt_dec k (Qfloor q)) as [L|G].
    - left. rewrite <- Zle_Qle. exact L.
    - right. change 1%Q with (inject_Z 1). rewrite <- inject_Z_plus, <- Zle_Qle. lia. }
  unfold round_half_even.
  set (f := Qfloor q) in *.
  assert (inject_Z (f + 1) == inject_Z f + 1)%Q as Ef
    by (rewrite inject_Z_plus; reflexivity).
  destruct (q - inject_Z f ?= 1 # 2)%Q eqn:E.
  - apply Qeq_alt in E.
    destruct (Z.even f); [|rewrite Ef];
      apply Qabs_case; intros; apply Qabs_case; intros; destruct Hk; lra.
  - apply Qlt_alt in E.
    apply Qabs_case; intros; apply Qabs_case; intros; destruct Hk; lra.
  - apply Qgt_alt in E. rewrite Ef.
    apply Qabs_case; intros; apply Qabs_case; intros; destruct Hk; lra.
Qed.

(** No double is nearer to a magnitude than its rounding. *)
Lemma round64_magnitude_nearest (a : Q) (m e : Z) :
  (0 <= a)%Q -> Z.abs m < 2 ^ 53 -> -1074 <= e ->
  (Qabs (round64_magnitude a - a) <= Qabs (inject_Z m * 2 ^ e - a))%Q.
Proof.
  intros Ha Hm He.
  destruct (Qeq_dec a 0) as [Z0|N0].
  { rewrite (round64_magnitude_comp a 0 Z0), round64_magnitude_0.
    assert (0 - a == 0)%Q as -> by lra. apply Qabs_nonneg. }
  assert (0 < a)%Q as Ha' by (destruct (Qlt_le_dec 0 a); [assumption | exfalso; apply N0; lra]).
  destruct (scaled_magnitude a Ha') as (Elo & _ & Lb).
  unfold round64_magnitude.
  set (u := ulp_exponent a) in *.
  pose proof (pow2_pos u) as HU. pose proof (pow2_pos e) as HE.
  assert (a == a / 2 ^ u * 2 ^ u)%Q as EX by (field; lra).
  set (q := (a / 2 ^ u)%Q) in *.
  assert (0 <= q)%Q as Hq.
  { unfold q. apply Qle_shift_div_l; [exact HU|]. rewrite Qmult_0_l. exact Ha. }
  (* the distance to any multiple of 2^u *)
  assert (forall k : Z,
             Qabs (inject_Z (round_half_even q) * 2 ^ u - a)
             <= Qabs (inject_Z k * 2 ^ u - a))%Q as Hmult.
  { intros k. pose proof (round_half_even_nearest q k) as Hn.
    assert (forall z : Q, z * 2 ^ u - a == (z - q) * 2 ^ u)%Q as Ez
      by (intros z; rewrite EX at 1; ring).
    rewrite !Ez, !Qabs_Qmult, (Qabs_pos (2 ^ u)) by lra.
    apply Qmult_le_compat_r; [exact Hn | lra]. }
  destruct (Z_le_gt_dec u e) as [Hue|Hue].
  - (* the double is a multiple of 2^u *)
    assert (inject_Z m * 2 ^ e == inject_Z (m * 2 ^ (e - u)) * 2 ^ u)%Q as ->.
    { rewrite inject_Z_mult, <- pow2_Z, <- Qmult_assoc, <- pow2_plus by lia.
      replace (e - u + u) with e by lia. reflexivity. }
    apply Hmult.
  - (* the double lies below 2^(u+52), which is a multiple of 2^u below a *)
    destruct (Lb ltac:(lia)) as [L1 _].
    assert (inject_Z m * 2 ^ e <= 2 ^ (u + 52))%Q as Hd.
    { apply Qle_trans with (inject_Z (2 ^ 53) * 2 ^ e)%Q.
      - apply Qmult_le_compat_r; [|lra]. rewrite <- Zle_Qle. lia.
      - rewrite <- pow2_Z, <- pow2_plus by lia. apply pow2_le. lia. }
    eapply Qle_trans; [apply (Hmult (2 ^ 52))|].
    rewrite <- pow2_Z, <- pow2_plus by lia. replace (52 + u) with (u + 52) by lia.
    set (t := (2 ^ (u + 52))%Q) in *. set (d := (inject_Z m * 2 ^ e)%Q) in *.
    apply Qabs_case; intros; apply Qabs_case; intros; lra.
Qed.

(** [round64 x] is a double nearest to [x]: no double is nearer. *)
Lemma round64_nearest (x : Q) (d : Double.t) :
  (Qabs (round64 x - x) <= Qabs (d - x))%Q.
Proof.
  destruct d as [m e ok]. unfold Double.value. cbn [Double.mantissa Double.exponent].
  unfold double_ok in ok. apply andb_prop in ok as [ok _]. apply andb_prop in ok as [Hm Hlo].
  apply Z.ltb_lt in Hm. apply Z.leb_le in Hlo.
  unfold round64.
  destruct (Qle_bool 0 x) eqn:E.
  - apply Qle_bool_iff in E. apply round64_magnitude_nearest; assumption.
  - assert (x <= 0)%Q as E'.
    { destruct (Qlt_le_dec 0 x) as [L|L]; [|exact L].
      apply Qlt_le_weak, Qle_bool_iff in L. congruence. }
    pose proof (round64_magnitude_nearest (- x) (- m) e ltac:(lra) ltac:(lia) Hlo) as Hn.
    rewrite inject_Z_opp in Hn.
    assert (- round64_magnitude (- x) - x == - (round64_magnitude (- x) - - x))%Q as -> by ring.
    assert (inject_Z m * 2 ^ e - x == - (- inject_Z m * 2 ^ e - - x))%Q as -> by ring.
    rewrite !Qabs_opp. exact Hn.
Qed.

(** On a tie the even integer is taken. *)
Lemma round_half_even_tie (q : Q) :
  (q - inject_Z (Qfloor q) == 1 # 2)%Q -> Z.even (round_half_even q) = true.
Proof.
  intros H. unfold round_half_even.
  apply Qeq_alt in H. rewrite H.
  destruct (Z.even (Qfloor q)) eqn:E; [exact E|].
  rewrite Z.even_add, E. reflexivity.
Qed.

(** ** The model against the machine *)

(** [round64] against the machine: the 25 revenues where the exact product
    is a half with their neighbours, a thousand other whole amounts up to a
    million, fractional and negative amounts; and single quotients and
    products down to the subnormal range. *)
Example revenue_product_as_on_the_machine :
  forallb revenue_product_checked
    (flat_map (fun k => [float_of_Z (40000 * Z.of_nat k - 20001);
                         float_of_Z (40000 * Z.of_nat k - 20000);
                         float_of_Z (40000 * Z.of_nat k - 19999)]) (seq 1 25)
     ++ map (fun i => float_of_Z (997 * Z.of_nat i)) (seq 0 1003)
     ++ map (fun i => (float_of_Z (Z.of_nat i) * 1000 / 7)%float) (seq 0 200)
     ++ map (fun i => (- (float_of_Z (Z.of_nat i) * 10000 / 3))%float) (seq 0 100)
     ++ [float_of_Z (-1); float_of_Z (-20000); float_of_Z (-1000000);
         (1 / 3)%float; (580000 - 1 / 1024)%float; (100000 - 1 / 68719476736)%float])%list
  = true.
Proof. vm_compute. reflexivity. Qed.

Example rounding_as_on_the_machine :
  forallb (fun ab => quotient_checked (fst ab) (snd ab) && product_checked (fst ab) (snd ab))
    ([(1, 10); (1, 3); (2, 3); (580000, 1000000); (1, 1000000); (5, 1000000);
      (0x1p-1074, 2); (0x3p-1074, 2); (0x1p-1022, 3); (0x1.fffffffffffffp+52, 3);
      (0x1.ffffffffffffep-1023, 0x1.0000000000001p+0); (0x1p-1060, 0x1.8p+3);
      (-7, 9); (0, 5); (0x1p+1000, 0x1p+20)]%float
     ++ flat_map (fun i => map (fun j => (float_of_Z (Z.of_nat i), float_of_Z (Z.of_nat j)))
                           (seq 1 12)) (seq 0 12))%list
  = true.
Proof. vm_compute. reflexivity. Qed.

(** ** The revenue sub-score *)

Lemma Qgeb_true (a b : Q) : Qgeb a b = true <-> (b <= a)%Q.
Proof. unfold Qgeb. apply Qle_bool_iff. Qed.

Lemma Qgeb_false (a b : Q) : Qgeb a b = false <-> (a < b)%Q.
Proof.
  unfold Qgeb. split; intros H.
  - apply Qnot_le_lt. intros Hle. apply Qle_bool_iff in Hle. congruence.
  - destruct (Qle_bool b a) eqn:E; [|reflexivity].
    apply Qle_bool_iff in E. lra.
Qed.

Lemma Qltb_true (a b : Q) : Qltb a b = true <-> (a < b)%Q.
Proof.
  unfold Qltb. rewrite negb_true_iff. apply Qgeb_false.
Qed.

Lemma Qltb_false (a b : Q) : Qltb a b = false <-> (b <= a)%Q.
Proof.
  unfold Qltb. rewrite negb_false_iff. apply Qgeb_true.
Qed.

(** A revenue just below 100,000, the double 99999.999999999985: its
    quotient rounds up and its product is 2.5 exactly, so the code gives 3
    points where the exact product, just below 2.5, rounds to 2. *)
Example revenue_just_below_100000 :
  calculateRevenueScore just_below_100000 = 3
  /\ revenue_term just_below_100000 = 2
  /\ float_value 0x1.869ffffffffffp+16%float = Some (Qred just_below_100000).
Proof. repeat split; vm_compute; reflexivity. Qed.

Lemma product_mono (r1 r2 : Q) :
  (r1 <= r2)%Q -> (fmul (fdiv r1 1000000) 25 <= fmul (fdiv r2 1000000) 25)%Q.
Proof.
  intros H. unfold fmul, fdiv. apply round64_mono.
  apply Qmult_le_compat_r; [|discriminate].
  apply round64_mono. unfold Qdiv.
  apply Qmult_le_compat_r; [exact H | discriminate].
Qed.

Lemma product_comp (r1 r2 : Q) :
  (r1 == r2)%Q -> (fmul (fdiv r1 1000000) 25 == fmul (fdiv r2 1000000) 25)%Q.
Proof. intros H. apply Qle_antisym; apply product_mono; lra. Qed.

Lemma product_at_cap : (fmul (fdiv 1000000 1000000) 25 == 25)%Q.
Proof. apply Qeq_bool_eq. vm_compute. reflexivity. Qed.

Lemma product_at_0 : (fmul (fdiv 0 1000000) 25 == 0)%Q.
Proof. apply Qeq_bool_eq. vm_compute. reflexivity. Qed.

(** ** The revenue sub-score *)

Lemma calculateRevenueScore_cases (revenue : Double.t) :
  ((1000000 <= revenue)%Q /\ calculateRevenueScore revenue = 25)
  \/ ((revenue < 1000000)%Q
      /\ calculateRevenueScore revenue = Math_round (fmul (fdiv revenue 1000000) 25)).
Proof.
  unfold calculateRevenueScore, maxRevenue, maxPoints.
  destruct (Qgeb revenue 1000000) eqn:E.
  - left. apply Qgeb_true in E. split; [exact E | reflexivity].
  - right. apply Qgeb_false in E. split; [exact E | reflexivity].
Qed.


Lemma calculateRevenueScore_le_25 (revenue : Double.t) : calculateRevenueScore revenue <= 25.
Proof.
  destruct (calculateRevenueScore_cases revenue) as [[H E] | [H E]]; rewrite E; [lia|].
  pose proof (product_mono revenue 1000000 (Qlt_le_weak _ _ H)) as Hm.
  pose proof product_at_cap as Hc.
  apply (Math_round_mono _ 25%Q). lra.
Qed.

Lemma calculateRevenueScore_nonneg (revenue : Double.t) :
  (0 <= revenue)%Q -> 0 <= calculateRevenueScore revenue.
Proof.
  intros H0.
  destruct (calculateRevenueScore_cases revenue) as [[H E] | [H E]]; rewrite E; [lia|].
  pose proof (product_mono 0 revenue H0) as Hm.
  pose proof product_at_0 as Hc.
  apply (Math_round_mono 0%Q). lra.
Qed.

Lemma calculateRevenueScore_mono (r1 r2 : Double.t) :
  (r1 <= r2)%Q -> calculateRevenueScore r1 <= calculateRevenueScore r2.
Proof.
  intros Hle.
  destruct (calculateRevenueScore_cases r2) as [[H2 E2] | [H2 E2]].
  - rewrite E2. apply calculateRevenueScore_le_25.
  - destruct (calculateRevenueScore_cases r1) as [[H1 E1] | [H1 E1]]; [lra|].
    rewrite E1, E2. apply Math_round_mono, product_mono, Hle.
Qed.

(** ** The score of an existing company *)

Lemma calculateScore_found (st : State) (companyId : string) (c : Company) :
  company st !! companyId = Some c ->
  calculateScore companyId st =
    Ok {| score :=
            Math_min
              (0 + (if kycVerified c then 30 else 0)
                 + (if financialsLinked c then 20 else 0)
                 + Math_min (Z.of_nat (length (documents_of st companyId)) * 5) 25
                 + calculateRevenueScore (revenue c)) 100;
          breakdown :=
            {| Breakdown.kycVerified := if kycVerified c then 30 else 0;
               Breakdown.financialsLinked := if financialsLinked c then 20 else 0;
               Breakdown.documentsUploaded :=
                 Math_min (Z.of_nat (length (documents_of st companyId)) * 5) 25;
               Breakdown.revenueScore := calculateRevenueScore (revenue c) |} |}.
Proof.
  intros H. unfold calculateScore, company_findUnique_with_documents.
  rewrite H. reflexivity.
Qed.




(** The double product is within 10^-14 of the exact value, so away from
    the halves the code and the exact formula round alike. *)
Lemma calculateRevenueScore_away_from_half (revenue : Double.t) (k : Z) :
  (-1000000 <= revenue < 1000000)%Q ->
  (inject_Z k * 40000 - 20000 + (1 # 1000000000) <= revenue
   <= inject_Z k * 40000 + 20000 - (1 # 1000000000))%Q ->
  calculateRevenueScore revenue = k /\ revenue_term revenue = k.
Proof.
  intros [Hlo Hhi] [Kl Kh].
  assert (revenue / 1000000 * 25 == revenue * (1 # 40000))%Q as Ex
    by (unfold Qdiv; change (/ 1000000)%Q with (1 # 1000000)%Q; ring).
  split.
  - destruct (calculateRevenueScore_cases revenue) as [[H _] | [_ E]]; [lra|].
    rewrite E. apply Math_round_unique.
    pose proof (scaled_product_close revenue ltac:(split; lra)) as [Cl Ch].
    change (1 # 10 ^ 14)%Q with (1 # 100000000000000)%Q in *.
    set (p := fmul (fdiv revenue 1000000) 25) in *.
    set (x := (revenue / 1000000 * 25)%Q) in *.
    split; lra.
  - unfold revenue_term.
    assert (Qmin revenue 1000000 == revenue)%Q as Hm by (apply Q.min_l; lra).
    rewrite (Math_round_comp _ (revenue / 1000000 * 25)%Q) by (rewrite Hm; reflexivity).
    apply Math_round_unique.
    set (x := (revenue / 1000000 * 25)%Q) in *.
    split; lra.
Qed.




(** C5. For an id that references no company, both [calculateScore] and
    [getRecommendations] throw "Company not found" (the NotFound kind); the
    result carries no score and no list. *)
Theorem missing_company_not_found (st : State) (companyId : string) :
  company st !! companyId = None ->
  calculateScore companyId st = Throw (Error "Company not found")
  /\ getRecommendations companyId st = Throw (Error "Company not found").
Proof.
  intros H.
  unfold calculateScore, getRecommendations, company_findUnique_with_documents.
  rewrite H. split; reflexivity.
Qed.

Lemma missing_company_not_found_witness :
  calculateScore "c-2" sample_state = Throw (Error "Company not found")
  /\ getRecommendations "c-2" sample_state = Throw (Error "Company not found").
Proof.
  apply (missing_company_not_found sample_state "c-2").
  reflexivity.
Defined.

(** For an existing company the four components sum to at most 100, so the
    cap never bites: the score is the exact sum, an integer at most 100;
    with a non-negative revenue (what the creation schema admits) it is at
    least 0. *)
Lemma score_range_cap_redundant (st : State) (companyId : string) (c : Company) :
  company st !! companyId = Some c ->
  exists s,
    calculateScore companyId st = Ok s
    /\ score s <= 100
    /\ Breakdown.kycVerified (breakdown s) + Breakdown.financialsLinked (breakdown s)
         + Breakdown.documentsUploaded (breakdown s) + Breakdown.revenueScore (breakdown s)
       <= 100
    /\ score s =
         Breakdown.kycVerified (breakdown s) + Breakdown.financialsLinked (breakdown s)
           + Breakdown.documentsUploaded (breakdown s) + Breakdown.revenueScore (breakdown s)
    /\ ((0 <= revenue c)%Q -> 0 <= score s).
Proof.
  intros H.
  rewrite (calculateScore_found st companyId c H).
  eexists. split; [reflexivity|]. cbn [score breakdown Breakdown.kycVerified
    Breakdown.financialsLinked Breakdown.documentsUploaded Breakdown.revenueScore].
  pose proof (calculateRevenueScore_le_25 (revenue c)) as Hhi.
  unfold Math_min.
  repeat split; try (destruct (kycVerified c), (financialsLinked c); lia).
  intros Hrev.
  pose proof (calculateRevenueScore_nonneg (revenue c) Hrev) as Hlo.
  destruct (kycVerified c), (financialsLinked c); lia.
Qed.

Lemma score_range_cap_redundant_at_optimized :
  exists s,
    calculateScore "c-1" optimized_state = Ok s
    /\ 0 <= score s <= 100
    /\ score s =
         Breakdown.kycVerified (breakdown s) + Breakdown.financialsLinked (breakdown s)
           + Breakdown.documentsUploaded (breakdown s) + Breakdown.revenueScore (breakdown s).
Proof.
  destruct (score_range_cap_redundant optimized_state "c-1" optimized_company)
    as (s & Hs & Hhi & _ & Hsum & Hlo).
  - reflexivity.
  - exists s. split; [exact Hs|]. split; [|exact Hsum].
    split; [apply Hlo; apply Qle_bool_imp_le; vm_compute; reflexivity | exact Hhi].
Defined.

(** C6. The score is not always between 0 and 100: [calculateRevenueScore]
    has no lower guard, so a company whose stored revenue is -1,000,000 (the
    update route stores the body's revenue unvalidated) gets -25 revenue
    points and a score of -25.  The four components still sum to the score:
    the cap is redundant here too. *)
Theorem score_negative_for_negative_revenue :
  company state_negative_revenue !! "c-1" = Some company_negative_revenue
  /\ (revenue company_negative_revenue == -1000000)%Q
  /\ calculateScore "c-1" state_negative_revenue =
       Ok {| score := -25;
             breakdown :=
               {| Breakdown.kycVerified := 0;
                  Breakdown.financialsLinked := 0;
                  Breakdown.documentsUploaded := 0;
                  Breakdown.revenueScore := -25 |} |}.
Proof.
  split; [reflexivity|].
  split; [apply Qeq_bool_eq; vm_compute; reflexivity|].
  vm_compute. reflexivity.
Qed.

(** ** Recommendations *)

Lemma getRecommendations_found (st : State) (companyId : string) (c : Company) :
  company st !! companyId = Some c ->
  exists l, getRecommendations companyId st = Ok l.
Proof.
  intros H. unfold getRecommendations, company_findUnique_with_documents.
  rewrite H. eexists. reflexivity.
Qed.

(** The template literal of the source and the wording of the specification
    agree on every count the branch can see. *)
Lemma upload_message_template (n : nat) :
  (n < 5)%nat ->
  let needed := 5 - Z.of_nat n in
  "Upload " ++ Number_toString needed ++ " more document"
    ++ (if needed >? 1 then "s" else "") ++ " to maximize document points"
  = upload_message needed.
Proof.
  intros H.
  destruct n as [|[|[|[|[|n]]]]]; try reflexivity. lia.
Qed.

(** C3. For an existing company [getRecommendations] returns exactly the
    messages whose conditions hold, in the fixed order: KYC, bank account,
    "Upload N more document(s) ..." with N = 5 - documentCount, revenue.
    (The sentence punctuation that closes each quotation in the
    specification is not part of the message.) *)
Theorem getRecommendations_exact (st : State) (companyId : string) (c : Company) :
  company st !! companyId = Some c ->
  getRecommendations companyId st =
    Ok (expected_recommendations (kycVerified c) (financialsLinked c)
          (Z.of_nat (length (documents_of st companyId))) (revenue c)).
Proof.
  intros H. unfold getRecommendations, company_findUnique_with_documents.
  rewrite H. unfold expected_recommendations, push. f_equal.
  set (n := length (documents_of st companyId)).
  destruct (Z_lt_dec (Z.of_nat n) 5) as [Hn | Hn].
  - assert ((Z.of_nat n <? 5) = true) as Hb by (apply Z.ltb_lt; exact Hn).
    rewrite Hb. rewrite (upload_message_template n) by lia.
    destruct (kycVerified c), (financialsLinked c),
      (Qltb (revenue c) 1000000) eqn:E, (Qlt_le_dec (revenue c) 1000000);
      try reflexivity;
      first [ apply Qltb_true in E | apply Qltb_false in E ]; lra.
  - assert ((Z.of_nat n <? 5) = false) as Hb by (apply Z.ltb_ge; lia).
    rewrite Hb.
    destruct (kycVerified c), (financialsLinked c),
      (Qltb (revenue c) 1000000) eqn:E, (Qlt_le_dec (revenue c) 1000000);
      try reflexivity;
      first [ apply Qltb_true in E | apply Qltb_false in E ]; lra.
Qed.

Lemma getRecommendations_exact_witness :
  getRecommendations "c-1" sample_state =
    Ok ["Complete KYC verification to earn 30 points";
        "Link your bank account to earn 20 points";
        "Upload 2 more documents to maximize document points";
        "As your revenue grows, your score will automatically improve"].
Proof.
  apply (getRecommendations_exact sample_state "c-1" sample_company).
  reflexivity.
Defined.

(** C7. A brand-new company (no KYC, no linked financials, revenue 0, no
    documents) gets exactly four recommendations; a fully optimised one (KYC
    done, financials linked, at least 5 documents, revenue at least
    1,000,000) gets the empty list. *)
Theorem getRecommendations_extremes (st : State) (companyId : string) (c : Company) :
  company st !! companyId = Some c ->
  (kycVerified c = false -> financialsLinked c = false ->
   (revenue c == 0)%Q -> documents_of st companyId = [] ->
   exists l, getRecommendations companyId st = Ok l /\ length l = 4%nat)
  /\ (kycVerified c = true -> financialsLinked c = true ->
      (5 <= length (documents_of st companyId))%nat -> (1000000 <= revenue c)%Q ->
      getRecommendations companyId st = Ok []).
Proof.
  intros H. unfold getRecommendations, company_findUnique_with_documents.
  rewrite H. split.
  - intros Hk Hf Hr Hd. rewrite Hk, Hf, Hd.
    assert (Qltb (revenue c) 1000000 = true) as E
      by (apply Qltb_true; rewrite Hr; reflexivity).
    rewrite E. eexists. split; reflexivity.
  - intros Hk Hf Hd Hr. rewrite Hk, Hf.
    assert (Qltb (revenue c) 1000000 = false) as E by (apply Qltb_false; exact Hr).
    assert ((Z.of_nat (length (documents_of st companyId)) <? 5) = false) as E5
      by (apply Z.ltb_ge; lia).
    rewrite E, E5. reflexivity.
Qed.

Lemma getRecommendations_extremes_witness :
  (exists l, getRecommendations "c-1" brand_new_state = Ok l /\ length l = 4%nat)
  /\ getRecommendations "c-1" optimized_state = Ok [].
Proof.
  split.
  - apply (proj1 (getRecommendations_extremes brand_new_state "c-1" brand_new_company
                    eq_refl)); reflexivity.
  - apply (proj2 (getRecommendations_extremes optimized_state "c-1" optimized_company
                    eq_refl)).
    + reflexivity.
    + reflexivity.
    + simpl. lia.
    + unfold Qle. simpl. lia.
Defined.

(** ** Documents count, whatever their category *)

Lemma documents_of_length (st1 st2 : State) (companyId : string) :
  Forall2 same_up_to_category (document st1) (document st2) ->
  length (documents_of st1 companyId) = length (documents_of st2 companyId).
Proof.
  unfold documents_of. intros H.
  induction H as [|d1 d2 l1 l2 Hd _ IH]; [reflexivity|].
  destruct Hd as (_ & Hc & _).
  rewrite !filter_cons. rewrite Hc.
  destruct (decide (doc_companyId d2 = companyId)); simpl; congruence.
Qed.

(** C9. The score sees documents only through their count: two states that
    differ only in the categories assigned to the documents give the same
    result (score and breakdown) for every company. *)
Theorem calculateScore_ignores_category (st1 st2 : State) (companyId : string) :
  differ_only_in_categories st1 st2 ->
  calculateScore companyId st1 = calculateScore companyId st2.
Proof.
  intros (Hc & Hd & _).
  unfold calculateScore, company_findUnique_with_documents.
  rewrite Hc. destruct (company st2 !! companyId) as [c|]; [|reflexivity].
  rewrite (documents_of_length st1 st2 companyId Hd). reflexivity.
Qed.

Lemma calculateScore_ignores_category_witness :
  calculateScore "c-1" sample_state = calculateScore "c-1" recategorized_state.
Proof.
  apply (calculateScore_ignores_category sample_state recategorized_state "c-1").
  unfold differ_only_in_categories, same_up_to_category. simpl.
  repeat split; try reflexivity.
  repeat constructor.
Defined.

(** ** Monotonicity *)

Lemma raises_revenueScore (p p' : Company * nat) :
  raises p p' ->
  calculateRevenueScore (revenue (fst p)) <= calculateRevenueScore (revenue (fst p')).
Proof.
  intros Hr. destruct Hr; simpl; apply calculateRevenueScore_mono; lra.
Qed.

Lemma raises_sum (p p' : Company * nat) :
  raises p p' ->
  (if kycVerified (fst p) then 30 else 0) + (if financialsLinked (fst p) then 20 else 0)
    + Z.min (Z.of_nat (snd p) * 5) 25 + calculateRevenueScore (revenue (fst p))
  <= (if kycVerified (fst p') then 30 else 0) + (if financialsLinked (fst p') then 20 else 0)
       + Z.min (Z.of_nat (snd p') * 5) 25 + calculateRevenueScore (revenue (fst p')).
Proof.
  intros Hr. pose proof (raises_revenueScore p p' Hr) as Hrev.
  destruct Hr as [c c' n Hk Hk' Hf _ | c c' n Hf Hf' Hk _ | c c' n Hk Hf _ | c c' n Hk Hf _];
    simpl in *; rewrite ?Hk, ?Hk', ?Hf, ?Hf';
    destruct (kycVerified c), (financialsLinked c); try discriminate; lia.
Qed.

(** C10. Raising one input (KYC false to true, financials false to true,
    one more document, or a larger revenue) with the others held fixed never
    lowers the score. *)
Theorem calculateScore_monotone (st st' : State) (companyId : string) (c c' : Company) :
  company st !! companyId = Some c ->
  company st' !! companyId = Some c' ->
  raises (c, length (documents_of st companyId)) (c', length (documents_of st' companyId)) ->
  exists s s',
    calculateScore companyId st = Ok s
    /\ calculateScore companyId st' = Ok s'
    /\ score s <= score s'.
Proof.
  intros H H' Hr.
  rewrite (calculateScore_found st companyId c H).
  rewrite (calculateScore_found st' companyId c' H').
  do 2 eexists. split; [reflexivity|]. split; [reflexivity|].
  cbn [score]. unfold Math_min.
  pose proof (raises_sum _ _ Hr) as Hs. simpl in Hs. lia.
Qed.

Lemma calculateScore_monotone_witness :
  exists s s',
    calculateScore "c-1" sample_state = Ok s
    /\ calculateScore "c-1" (snd (kycRoutes.post_verify sample_env verify_request sample_state))
       = Ok s'
    /\ score s <= score s'.
Proof.
  apply (calculateScore_monotone sample_state
           (snd (kycRoutes.post_verify sample_env verify_request sample_state)) "c-1"
           sample_company
           {| company_userId := "u-1"; company_name := "Test Company";
              sector := "Technology"; targetRaise := whole_1000000; revenue := whole_500000;
              kycVerified := true; financialsLinked := false;
              company_createdAt := 0; company_updatedAt := 1 |}).
  - reflexivity.
  - reflexivity.
  - apply raise_kycVerified; reflexivity.
Defined.

(** ** The change trigger *)

(** Recomputation is observable: on an existing company it appends one line
    to the console and touches nothing else. *)
Lemma onCompanyDataChange_found (st : State) (companyId : string) (c : Company) :
  company st !! companyId = Some c ->
  exists s,
    calculateScore companyId st = Ok s
    /\ onCompanyDataChange companyId st =
         (Ok tt,
          set_console
            (fun l => (l ++ [console_log ("Score updated for company " ++ companyId ++ ": "
                                           ++ Number_toString (score s))])%list) st).
Proof.
  intros H.
  destruct (calculateScore companyId st) as [s|e] eqn:E.
  - exists s. split; [reflexivity|].
    unfold onCompanyDataChange, bind, query. rewrite E. reflexivity.
  - rewrite (calculateScore_found st companyId c H) in E. discriminate.
Qed.

Lemma onCompanyDataChange_logs (st : State) (companyId : string) (c : Company) :
  company st !! companyId = Some c ->
  length (console (snd (onCompanyDataChange companyId st))) = S (length (console st)).
Proof.
  intros H. destruct (onCompanyDataChange_found st companyId c H) as (s & _ & E).
  rewrite E. simpl. rewrite length_app. simpl. lia.
Qed.

(** A notification is observable as well: [create] appends a row. *)
Lemma create_appends (env : Env) (userId : string) (type : NotificationType)
    (msg : string) (ttl : option string) (d : option JsObject) (st : State) :
  length (notification (snd (NotificationService.create env userId type msg ttl d st)))
  = S (length (notification st)).
Proof.
  unfold NotificationService.create, db_notification_create, modify. simpl.
  rewrite length_app. simpl. lia.
Qed.

(** C4. Verifying KYC for a company already verified, or linking financials
    for a company already linked, is refused with status 400 and the
    "already" message (the AlreadyDone kind), and the handler leaves the whole
    state as it was: the company row, the notifications (no success
    notification) and the console (no recomputation, which would have logged
    a line).  The statement is about the route handler; the request-wide
    audit hook of the server, which runs before any handler, is not part of
    it. *)
Theorem already_done_no_side_effects (env : Env) (st : State) :
  (forall (body : kycRoutes.KycVerificationRequest) (c : Company),
      company st !! kycRoutes.companyId body = Some c ->
      kycVerified c = true ->
      kycRoutes.post_verify env body st =
        (Ok {| status := 400; payload := PError "KYC already verified for this company" |},
         st))
  /\ (forall (body : financialsRoutes.LinkFinancialsRequest) (c : Company),
         company st !! financialsRoutes.companyId body = Some c ->
         financialsLinked c = true ->
         financialsRoutes.post_link env body st =
           (Ok {| status := 400;
                  payload := PError "Financials already linked for this company" |},
            st)).
Proof.
  split; intros body c H Hdone.
  - unfold kycRoutes.post_verify, try_catch, bind, db_company_findUnique, gets.
    rewrite H, Hdone. reflexivity.
  - unfold financialsRoutes.post_link, try_catch, bind, db_company_findUnique, gets.
    rewrite H, Hdone. reflexivity.
Qed.

Lemma already_done_no_side_effects_witness :
  kycRoutes.post_verify sample_env verify_request optimized_state =
    (Ok {| status := 400; payload := PError "KYC already verified for this company" |},
     optimized_state)
  /\ financialsRoutes.post_link sample_env link_request optimized_state =
       (Ok {| status := 400;
              payload := PError "Financials already linked for this company" |},
        optimized_state).
Proof.
  split.
  - apply (proj1 (already_done_no_side_effects sample_env optimized_state)
             verify_request optimized_company); reflexivity.
  - apply (proj2 (already_done_no_side_effects sample_env optimized_state)
             link_request optimized_company); reflexivity.
Defined.

(** ** Which notifications a request can add *)

Section NotificationFrame.

Variable P : Notification -> Prop.

Lemma adds_only_refl (st : State) : adds_only P st st.
Proof. exists []. split; [symmetry; apply app_nil_r | constructor]. Qed.

Lemma adds_only_same (st st' : State) :
  notification st' = notification st -> adds_only P st st'.
Proof. intros H. exists []. rewrite H. split; [symmetry; apply app_nil_r | constructor]. Qed.

Lemma adds_only_trans (st1 st2 st3 : State) :
  adds_only P st1 st2 -> adds_only P st2 st3 -> adds_only P st1 st3.
Proof.
  intros (n1 & E1 & F1) (n2 & E2 & F2). exists (n1 ++ n2)%list. split.
  - rewrite E2, E1. symmetry. apply app_assoc.
  - apply Forall_app. split; assumption.
Qed.

Lemma emits_only_ret {A} (a : A) : emits_only P (ret a).
Proof. intros st. apply adds_only_refl. Qed.

Lemma emits_only_throw {A} (e : JsError) : emits_only P (@throw A e).
Proof. intros st. apply adds_only_refl. Qed.

Lemma emits_only_gets {A} (f : State -> A) : emits_only P (gets f).
Proof. intros st. apply adds_only_refl. Qed.

Lemma emits_only_query {A} (f : State -> Result A) : emits_only P (query f).
Proof. intros st. apply adds_only_refl. Qed.

Lemma emits_only_modify (f : State -> State) :
  (forall st, notification (f st) = notification st) -> emits_only P (modify f).
Proof. intros H st. apply adds_only_same. simpl. apply H. Qed.

Lemma emits_only_bind {A B} (m : M A) (k : A -> M B) :
  emits_only P m -> (forall a, emits_only P (k a)) -> emits_only P (bind m k).
Proof.
  intros Hm Hk st. unfold bind. specialize (Hm st).
  destruct (m st) as [[a|e] st1]; simpl in *.
  - eapply adds_only_trans; [exact Hm | apply Hk].
  - exact Hm.
Qed.

Lemma emits_only_try_catch {A} (body : M A) (handler : JsError -> M A) :
  emits_only P body -> (forall e, emits_only P (handler e)) ->
  emits_only P (try_catch body handler).
Proof.
  intros Hm Hk st. unfold try_catch. specialize (Hm st).
  destruct (body st) as [[a|e] st1]; simpl in *.
  - exact Hm.
  - eapply adds_only_trans; [exact Hm | apply Hk].
Qed.

Lemma emits_only_create (env : Env) (userId : string) (type : NotificationType)
    (msg : string) (ttl : option string) (d : option JsObject) :
  (forall i t, P {| ntf_id := i; ntf_userId := userId; ntf_type := type; title := ttl;
                    message := msg; data := d; ntf_createdAt := t; ntf_updatedAt := t;
                    readAt := None |}) ->
  emits_only P (NotificationService.create env userId type msg ttl d).
Proof.
  intros H st. eexists. split; [reflexivity|].
  constructor; [apply H | constructor].
Qed.

End NotificationFrame.

Create HintDb js.
#[local] Hint Unfold status_send send console_write
  db_company_findUnique db_company_update db_notification_create db_auditLog_create
  db_document_create db_document_findFirst db_document_delete
  onCompanyDataChange
  NotificationService.notifyKycVerified NotificationService.notifyFinancialsLinked
  NotificationService.notifyDocumentUploaded
  FileService.uploadFile FileService.getFile FileService.deleteFile
  financialsRoutes.unlinkFromPlaid : js.

(** Walks through a computation: binds, handlers, branches, and at the leaves
    either a write that leaves the notification table alone or a [create]
    whose title is not the score-improvement one. *)
Ltac frame :=
  autounfold with js; cbv zeta;
  repeat first
    [ apply emits_only_try_catch
    | apply emits_only_bind
    | apply emits_only_ret
    | apply emits_only_throw
    | apply emits_only_gets
    | apply emits_only_query
    | apply emits_only_modify; intros; reflexivity
    | apply emits_only_create; unfold score_improved; simpl; intros ? ? ?; discriminate
    | progress intros
    | match goal with
      | |- emits_only _ (match ?x with _ => _ end) => destruct x
      end ].

Lemma post_verify_frame (env : Env) (body : kycRoutes.KycVerificationRequest) :
  emits_only (fun n => ~ score_improved n) (kycRoutes.post_verify env body).
Proof. unfold kycRoutes.post_verify. frame. Qed.

Lemma post_link_frame (env : Env) (body : financialsRoutes.LinkFinancialsRequest) :
  emits_only (fun n => ~ score_improved n) (financialsRoutes.post_link env body).
Proof. unfold financialsRoutes.post_link. frame. Qed.

Lemma delete_link_frame (env : Env) (companyId : string) :
  emits_only (fun n => ~ score_improved n) (financialsRoutes.delete_link env companyId).
Proof. unfold financialsRoutes.delete_link. frame. Qed.

Lemma post_upload_frame (env : Env) (request : filesRoutes.UploadRequest) :
  emits_only (fun n => ~ score_improved n) (filesRoutes.post_upload env request).
Proof. unfold filesRoutes.post_upload. frame. Qed.

Lemma delete_file_frame (env : Env) (companyId fileId : string) :
  emits_only (fun n => ~ score_improved n) (filesRoutes.delete_file env companyId fileId).
Proof. unfold filesRoutes.delete_file. frame. Qed.

Lemma post_recalculate_frame (companyId : string) :
  emits_only (fun n => ~ score_improved n) (scoreRoutes.post_recalculate companyId).
Proof. unfold scoreRoutes.post_recalculate. frame. Qed.

Lemma handle_frame (env : Env) (m : Mutation) :
  emits_only (fun n => ~ score_improved n) (handle env m).
Proof.
  destruct m; simpl.
  - apply post_verify_frame.
  - apply post_link_frame.
  - apply delete_link_frame.
  - apply post_upload_frame.
  - apply delete_file_frame.
  - apply post_recalculate_frame.
Qed.

(** C8. For an existing company [onCompanyDataChange] recomputes the score
    (it logs it) and returns with the company table, the document table and
    the notification table unchanged; and no request that changes
    score-relevant data ever adds a score-improvement notification: what
    [notifyScoreImproved] would write never appears. *)
Theorem onCompanyDataChange_persists_nothing (st : State) (companyId : string) (c : Company) :
  company st !! companyId = Some c ->
  (exists s st',
      calculateScore companyId st = Ok s
      /\ onCompanyDataChange companyId st = (Ok tt, st')
      /\ company st' = company st
      /\ document st' = document st
      /\ notification st' = notification st
      /\ auditLog st' = auditLog st
      /\ console st' =
           (console st ++ [console_log ("Score updated for company " ++ companyId ++ ": "
                                          ++ Number_toString (score s))])%list)
  /\ emits_only (fun _ => False) (onCompanyDataChange companyId)
  /\ (forall (env : Env) (m : Mutation),
         emits_only (fun n => ~ score_improved n) (handle env m)).
Proof.
  intros H. split; [|split].
  - destruct (onCompanyDataChange_found st companyId c H) as (s & Hs & E).
    exists s. eexists. split; [exact Hs|]. split; [exact E|].
    repeat split; reflexivity.
  - frame.
  - exact handle_frame.
Qed.

Lemma onCompanyDataChange_persists_nothing_witness :
  (exists s st',
      calculateScore "c-1" sample_state = Ok s
      /\ onCompanyDataChange "c-1" sample_state = (Ok tt, st')
      /\ company st' = company sample_state
      /\ document st' = document sample_state
      /\ notification st' = notification sample_state
      /\ auditLog st' = auditLog sample_state
      /\ console st' =
           (console sample_state
              ++ [console_log ("Score updated for company " ++ "c-1" ++ ": "
                                 ++ Number_toString (score s))])%list)
  /\ emits_only (fun _ => False) (onCompanyDataChange "c-1")
  /\ (forall (env : Env) (m : Mutation),
         emits_only (fun n => ~ score_improved n) (handle env m)).
Proof.
  apply (onCompanyDataChange_persists_nothing sample_state "c-1" sample_company).
  reflexivity.
Defined.

(** The predicate [score_improved] does recognise the primitive: a handler
    that called [notifyScoreImproved] would not pass [handle_frame]. *)
Lemma notifyScoreImproved_detected (env : Env) (userId : string) (oldScore newScore : Z) :
  ~ emits_only (fun n => ~ score_improved n)
      (NotificationService.notifyScoreImproved env userId oldScore newScore).
Proof.
  intros H. destruct (H brand_new_state) as (new & E & F).
  simpl in E. subst new.
  apply Forall_cons in F. destruct F as [F _]. apply F. reflexivity.
Qed.

(** ** The values of the service's test-suite *)

Example test_base_score :
  calculateScore "c-1" (fixture sample_company 0) =
    Ok {| score := 13; breakdown := Breakdown.mk 0 0 0 13 |}.
Proof. reflexivity. Qed.

Example test_kyc_verified :
  score <$> (match calculateScore "c-1" (fixture (with_flags true false sample_company) 0) with
             | Ok s => Some s | Throw _ => None end) = Some 43.
Proof. reflexivity. Qed.

Example test_financials_linked :
  score <$> (match calculateScore "c-1" (fixture (with_flags false true sample_company) 0) with
             | Ok s => Some s | Throw _ => None end) = Some 33.
Proof. reflexivity. Qed.

Example test_three_documents :
  calculateScore "c-1" (fixture sample_company 3) =
    Ok {| score := 28; breakdown := Breakdown.mk 0 0 15 13 |}.
Proof. reflexivity. Qed.

Example test_six_documents :
  calculateScore "c-1" (fixture sample_company 6) =
    Ok {| score := 38; breakdown := Breakdown.mk 0 0 25 13 |}.
Proof. reflexivity. Qed.

Example test_maximum_score :
  calculateScore "c-1" (fixture optimized_company 5) =
    Ok {| score := 100; breakdown := Breakdown.mk 30 20 25 25 |}.
Proof. reflexivity. Qed.

Example test_all_zero :
  calculateScore "c-1" (fixture brand_new_company 0) =
    Ok {| score := 0; breakdown := Breakdown.mk 0 0 0 0 |}.
Proof. reflexivity. Qed.

Example test_new_company_recommendations :
  getRecommendations "c-1" (fixture sample_company 0) =
    Ok ["Complete KYC verification to earn 30 points";
        "Link your bank account to earn 20 points";
        "Upload 5 more documents to maximize document points";
        "As your revenue grows, your score will automatically improve"].
Proof. reflexivity. Qed.

Example test_two_documents_recommendation :
  getRecommendations "c-1" (fixture (with_flags true true optimized_company) 2) =
    Ok ["Upload 3 more documents to maximize document points"].
Proof. reflexivity. Qed.

Example test_four_documents_singular :
  getRecommendations "c-1" (fixture optimized_company 4) =
    Ok ["Upload 1 more document to maximize document points"].
Proof. reflexivity. Qed.

Example test_optimized_recommendations :
  getRecommendations "c-1" (fixture optimized_company 5) = Ok [].
Proof. reflexivity. Qed.

(** A first verification succeeds, notifies once and recomputes; the second
    attempt is refused and adds nothing. *)
Example test_verify_twice :
  let st1 := snd (kycRoutes.post_verify sample_env verify_request sample_state) in
  let r2 := kycRoutes.post_verify sample_env verify_request st1 in
  length (notification st1) = 1%nat
  /\ console st1 = [console_log "Score updated for company c-1: 58"]
  /\ fst r2 = Ok {| status := 400;
                    payload := PError "KYC already verified for this company" |}
  /\ snd r2 = st1.
Proof. repeat split; reflexivity. Qed.

(** * Further properties of the modelled code *)

(** ** Running a computation step by step *)

Lemma bind_ok {A B} (m : M A) (k : A -> M B) (st st' : State) (a : A) :
  m st = (Ok a, st') -> bind m k st = k a st'.
Proof. intros H. unfold bind. rewrite H. reflexivity. Qed.

Lemma bind_throw {A B} (m : M A) (k : A -> M B) (st st' : State) (e : JsError) :
  m st = (Throw e, st') -> bind m k st = (Throw e, st').
Proof. intros H. unfold bind. rewrite H. reflexivity. Qed.

Lemma try_catch_ok {A} (body : M A) (handler : JsError -> M A) (st st' : State) (a : A) :
  body st = (Ok a, st') -> try_catch body handler st = (Ok a, st').
Proof. intros H. unfold try_catch. rewrite H. reflexivity. Qed.

Lemma try_catch_throw {A} (body : M A) (handler : JsError -> M A) (st st' : State)
    (e : JsError) :
  body st = (Throw e, st') -> try_catch body handler st = handler e st'.
Proof. intros H. unfold try_catch. rewrite H. reflexivity. Qed.

Lemma db_company_findUnique_eq (id : string) (st : State) :
  db_company_findUnique id st = (Ok (company st !! id), st).
Proof. reflexivity. Qed.

Lemma db_company_update_found (id : string) (data : Company -> Company) (st : State)
    (c : Company) :
  company st !! id = Some c ->
  db_company_update id data st = (Ok tt, set_company (fun m => <[id := data c]> m) st).
Proof.
  intros H. unfold db_company_update.
  rewrite (bind_ok _ _ st st (Some c)); [reflexivity|].
  rewrite db_company_findUnique_eq, H. reflexivity.
Qed.

Lemma onCompanyDataChange_missing (st : State) (companyId : string) :
  company st !! companyId = None ->
  onCompanyDataChange companyId st = (Throw (Error "Company not found"), st).
Proof.
  intros H. unfold onCompanyDataChange.
  apply bind_throw. unfold query, calculateScore, company_findUnique_with_documents.
  rewrite H. reflexivity.
Qed.

(** ** The score without the cap *)

Lemma calculateScore_uncapped (st : State) (companyId : string) (c : Company) :
  company st !! companyId = Some c ->
  calculateScore companyId st =
    Ok {| score :=
            (if kycVerified c then 30 else 0) + (if financialsLinked c then 20 else 0)
              + Z.min (Z.of_nat (length (documents_of st companyId)) * 5) 25
              + calculateRevenueScore (revenue c);
          breakdown :=
            {| Breakdown.kycVerified := if kycVerified c then 30 else 0;
               Breakdown.financialsLinked := if financialsLinked c then 20 else 0;
               Breakdown.documentsUploaded :=
                 Z.min (Z.of_nat (length (documents_of st companyId)) * 5) 25;
               Breakdown.revenueScore := calculateRevenueScore (revenue c) |} |}.
Proof.
  intros H. rewrite (calculateScore_found st companyId c H).
  unfold Math_min. f_equal. f_equal.
  pose proof (calculateRevenueScore_le_25 (revenue c)).
  destruct (kycVerified c), (financialsLinked c); lia.
Qed.

(** ** KYC verification *)

Lemma post_verify_run (env : Env) (body : kycRoutes.KycVerificationRequest) (st : State)
    (c : Company) :
  company st !! kycRoutes.companyId body = Some c ->
  kycVerified c = false ->
  kycRoutes.post_verify env body st =
    match verification_outcome env body with
    | None =>
        (Ok {| status := 400;
               payload := PError "Either mockVerify or inquiryId is required" |}, st)
    | Some false => (Ok {| status := 200; payload := PKyc false |}, st)
    | Some true =>
        let st2 :=
          set_notification
            (fun l => (l ++ [kyc_notification env (company_userId c)])%list)
            (set_company
               (fun m => <[kycRoutes.companyId body := kycRoutes.set_kycVerified true env c]> m)
               st) in
        match calculateScore (kycRoutes.companyId body) st2 with
        | Ok s' =>
            (Ok {| status := 200; payload := PKyc true |},
             set_auditLog
               (fun l =>
                  (l ++ [{| audit_userId := company_userId c;
                            action := "kyc_verified";
                            resource := "Company:" ++ kycRoutes.companyId body;
                            metadata :=
                              (optional_field "inquiryId" (JString <$> kycRoutes.inquiryId body)
                                 ++ [("mockVerify", JBool (kycRoutes.mockVerify body));
                                     ("timestamp", JDate (now env))])%list;
                            audit_createdAt := now env |}])%list)
               (set_console
                  (fun l => (l ++ [score_line (kycRoutes.companyId body) s'])%list) st2))
        | Throw e =>
            (Ok {| status := 500; payload := PError "Failed to verify KYC" |},
             set_console (fun l => (l ++ [console_error "Error verifying KYC:" e])%list) st2)
        end
    end.
Proof.
  intros H Hk.
  unfold kycRoutes.post_verify, try_catch, bind.
  rewrite db_company_findUnique_eq, H, Hk. cbv zeta.
  change (if kycRoutes.mockVerify body then Some true
          else if truthy (kycRoutes.inquiryId body)
               then Some (kycRoutes.verifyWithPersona env
                            (default "" (kycRoutes.inquiryId body)))
               else None)
    with (verification_outcome env body).
  destruct (verification_outcome env body) as [[|]|]; try reflexivity.
  rewrite (db_company_update_found _ _ _ _ H).
  unfold NotificationService.notifyKycVerified, NotificationService.create,
    db_notification_create, modify.
  fold (new_notification env (company_userId c) success
          "Your KYC verification has been completed successfully. You earned 30 investability points!"
          (Some "KYC Verified")
          (Some [("event", JString "kyc_verified"); ("pointsEarned", JNumber 30)])).
  fold (kyc_notification env (company_userId c)).
  unfold onCompanyDataChange, bind, query.
  destruct (calculateScore _ _) as [s'|e]; reflexivity.
Qed.



(** X2. [post_verify] changes nothing in three cases: an unknown company
    (404), a request with neither [mockVerify] nor an [inquiryId] (400), and
    a verification that the provider does not pass (200 with
    [verified = false]). *)
Theorem kyc_verification_no_effect (env : Env) (body : kycRoutes.KycVerificationRequest)
    (st : State) :
  (company st !! kycRoutes.companyId body = None ->
   kycRoutes.post_verify env body st =
     (Ok {| status := 404; payload := PError "Company not found" |}, st))
  /\ (forall c, company st !! kycRoutes.companyId body = Some c -> kycVerified c = false ->
         verification_outcome env body = None ->
         kycRoutes.post_verify env body st =
           (Ok {| status := 400;
                  payload := PError "Either mockVerify or inquiryId is required" |}, st))
  /\ (forall c, company st !! kycRoutes.companyId body = Some c -> kycVerified c = false ->
         verification_outcome env body = Some false ->
         kycRoutes.post_verify env body st =
           (Ok {| status := 200; payload := PKyc false |}, st)).
Proof.
  split; [|split].
  - intros H. unfold kycRoutes.post_verify, try_catch, bind.
    rewrite db_company_findUnique_eq, H. reflexivity.
  - intros c H Hk Hout. rewrite (post_verify_run env body st c H Hk), Hout. reflexivity.
  - intros c H Hk Hout. rewrite (post_verify_run env body st c H Hk), Hout. reflexivity.
Qed.

Lemma kyc_verification_no_effect_witness :
  kycRoutes.post_verify sample_env missing_request sample_state =
    (Ok {| status := 404; payload := PError "Company not found" |}, sample_state)
  /\ kycRoutes.post_verify sample_env empty_request sample_state =
       (Ok {| status := 400;
              payload := PError "Either mockVerify or inquiryId is required" |},
        sample_state)
  /\ kycRoutes.post_verify unlucky_env persona_request sample_state =
       (Ok {| status := 200; payload := PKyc false |}, sample_state).
Proof.
  split; [|split].
  - apply (proj1 (kyc_verification_no_effect sample_env missing_request sample_state)).
    reflexivity.
  - apply (proj1 (proj2 (kyc_verification_no_effect sample_env empty_request sample_state))
             sample_company); reflexivity.
  - apply (proj2 (proj2 (kyc_verification_no_effect unlucky_env persona_request sample_state))
             sample_company); reflexivity.
Defined.

(** ** Linking and unlinking financials *)

Lemma post_link_run (env : Env) (body : financialsRoutes.LinkFinancialsRequest) (st : State)
    (c : Company) :
  company st !! financialsRoutes.companyId body = Some c ->
  financialsLinked c = false ->
  financialsRoutes.post_link env body st =
    if financialsRoutes.linkWithPlaid (financialsRoutes.plaidToken body)
         (financialsRoutes.accountId body)
    then
      let st2 :=
        set_notification
          (fun l => (l ++ [financials_notification env (company_userId c)])%list)
          (set_company
             (fun m => <[financialsRoutes.companyId body :=
                           financialsRoutes.set_financialsLinked true env c]> m)
             st) in
      match calculateScore (financialsRoutes.companyId body) st2 with
      | Ok s' =>
          (Ok {| status := 200; payload := PLink true |},
           set_auditLog
             (fun l =>
                (l ++ [{| audit_userId := company_userId c;
                          action := "financials_linked";
                          resource := "Company:" ++ financialsRoutes.companyId body;
                          metadata :=
                            ([("plaidToken", JString "[REDACTED]")]
                               ++ optional_field "accountId"
                                    (JString <$> financialsRoutes.accountId body)
                               ++ [("timestamp", JDate (now env))])%list;
                          audit_createdAt := now env |}])%list)
             (set_console
                (fun l => (l ++ [score_line (financialsRoutes.companyId body) s'])%list) st2))
      | Throw e =>
          (Ok {| status := 500; payload := PError "Failed to link financial accounts" |},
           set_console
             (fun l => (l ++ [console_error "Error linking financials:" e])%list) st2)
      end
    else (Ok {| status := 200; payload := PLink false |}, st).
Proof.
  intros H Hf.
  unfold financialsRoutes.post_link, try_catch, bind.
  rewrite db_company_findUnique_eq, H, Hf. cbv zeta.
  destruct (financialsRoutes.linkWithPlaid _ _); [|reflexivity].
  rewrite (db_company_update_found _ _ _ _ H).
  unfold NotificationService.notifyFinancialsLinked, NotificationService.create,
    db_notification_create, modify.
  unfold onCompanyDataChange, bind, query, financials_notification, new_notification.
  destruct (calculateScore _ _) as [s'|e]; reflexivity.
Qed.

Lemma delete_link_run (env : Env) (companyId : string) (st : State) (c : Company) :
  company st !! companyId = Some c ->
  financialsLinked c = true ->
  financialsRoutes.delete_link env companyId st =
    let st2 :=
      set_company
        (fun m => <[companyId := financialsRoutes.set_financialsLinked false env c]> m)
        (set_console
           (fun l => (l ++ [console_log ("Unlinking Plaid accounts for company "
                                           ++ companyId)])%list) st) in
    match calculateScore companyId st2 with
    | Ok s' =>
        (Ok {| status := 200; payload := PSuccess |},
         set_auditLog
           (fun l =>
              (l ++ [{| audit_userId := company_userId c;
                        action := "financials_unlinked";
                        resource := "Company:" ++ companyId;
                        metadata := [("timestamp", JDate (now env))];
                        audit_createdAt := now env |}])%list)
           (set_console (fun l => (l ++ [score_line companyId s'])%list) st2))
    | Throw e =>
        (Ok {| status := 500; payload := PError "Failed to unlink financial accounts" |},
         set_console
           (fun l => (l ++ [console_error "Error unlinking financials:" e])%list) st2)
    end.
Proof.
  intros H Hf.
  unfold financialsRoutes.delete_link, try_catch, bind.
  rewrite db_company_findUnique_eq, H, Hf. cbn [negb].
  unfold financialsRoutes.unlinkFromPlaid, console_write, modify.
  rewrite (db_company_update_found _ _ _ c); [|exact H].
  unfold onCompanyDataChange, bind, query. cbv zeta.
  destruct (calculateScore _ _) as [s'|e]; reflexivity.
Qed.

Lemma linkWithPlaid_nonempty (token : string) (accountId : option string) :
  token <> "" -> financialsRoutes.linkWithPlaid token accountId = true.
Proof.
  intros H. unfold financialsRoutes.linkWithPlaid.
  destruct token as [|a token]; [congruence|].
  apply Z.ltb_lt. simpl. lia.
Qed.





(** The KYC route: a [companyId] that is not a UUID is refused before the
    handler starts; any other body goes to the handler as it is. *)
Lemma verify_route (env : Env) (body : kycRoutes.KycVerificationRequest) :
  kycRoutes.verify env body =
    match zod_uuid env (kycRoutes.companyId body) with
    | None => kycRoutes.post_verify env body
    | Some message =>
        ret {| status := 400;
               payload := PValidation "Validation failed" [mkIssue "companyId" message] |}
    end.
Proof.
  unfold kycRoutes.verify, with_preHandler, validateRequest, safeParse,
    kycRoutes.KycVerificationRequestSchema, uuid_issue.
  destruct (zod_uuid env (kycRoutes.companyId body)); reflexivity.
Qed.

(** A body that passes the schema goes to the handler as it is. *)
Lemma link_route_valid (env : Env) (body : financialsRoutes.LinkFinancialsRequest) :
  zod_uuid env (financialsRoutes.companyId body) = None ->
  financialsRoutes.plaidToken body <> "" ->
  financialsRoutes.link env body = financialsRoutes.post_link env body.
Proof.
  intros Hid Htok.
  unfold financialsRoutes.link, with_preHandler, validateRequest, safeParse,
    financialsRoutes.LinkFinancialsRequestSchema, uuid_issue.
  rewrite Hid. destruct (financialsRoutes.plaidToken body); [contradiction | reflexivity].
Qed.

Lemma link_route_empty_token (env : Env) (body : financialsRoutes.LinkFinancialsRequest)
    (st : State) :
  financialsRoutes.plaidToken body = "" ->
  financialsRoutes.link env body st =
    (Ok {| status := 400;
           payload :=
             PValidation "Validation failed"
               (uuid_issue env "companyId" (financialsRoutes.companyId body)
                  ++ [mkIssue "plaidToken" "Plaid token is required"])%list |}, st).
Proof.
  intros Htok.
  unfold financialsRoutes.link, with_preHandler, validateRequest, safeParse,
    financialsRoutes.LinkFinancialsRequestSchema.
  rewrite Htok. cbn [String.length Nat.ltb Nat.leb].
  destruct (uuid_issue env "companyId" (financialsRoutes.companyId body)); reflexivity.
Qed.

Lemma linkWithPlaid_true (plaidToken : string) (accountId : option string) :
  plaidToken <> "" -> financialsRoutes.linkWithPlaid plaidToken accountId = true.
Proof.
  intros H. unfold financialsRoutes.linkWithPlaid.
  destruct plaidToken; [contradiction|]. cbn [String.length]. apply Z.ltb_lt. lia.
Qed.

(** X5. The financials routes change nothing when they refuse.  POST /link
    with an empty token is stopped by the preHandler, whatever the company:
    400 "Validation failed" with the issue "Plaid token is required" on
    [plaidToken], so the handler's reply [linked = false] is never given
    through the route; with a body that passes the schema and an unknown
    company the reply is 404.  DELETE /link replies 404 for an unknown
    company and 400 for a company that is not linked. *)
Theorem financials_no_effect (env : Env) (st : State) :
  (forall body, financialsRoutes.plaidToken body = "" ->
     financialsRoutes.link env body st =
       (Ok {| status := 400;
              payload :=
                PValidation "Validation failed"
                  (uuid_issue env "companyId" (financialsRoutes.companyId body)
                     ++ [mkIssue "plaidToken" "Plaid token is required"])%list |}, st))
  /\ (forall body r st',
        financialsRoutes.link env body st = (Ok r, st') -> payload r <> PLink false)
  /\ (forall body, zod_uuid env (financialsRoutes.companyId body) = None ->
        financialsRoutes.plaidToken body <> "" ->
        company st !! financialsRoutes.companyId body = None ->
        financialsRoutes.link env body st =
          (Ok {| status := 404; payload := PError "Company not found" |}, st))
  /\ (forall companyId, company st !! companyId = None ->
        financialsRoutes.delete_link env companyId st =
          (Ok {| status := 404; payload := PError "Company not found" |}, st))
  /\ (forall companyId c, company st !! companyId = Some c -> financialsLinked c = false ->
        financialsRoutes.delete_link env companyId st =
          (Ok {| status := 400; payload := PError "No financial accounts linked" |}, st)).
Proof.
  split; [|split; [|split; [|split]]].
  - intros body Htok. apply link_route_empty_token. exact Htok.
  - intros body r st' E.
    destruct (string_dec (financialsRoutes.plaidToken body) "") as [Htok|Htok].
    { rewrite (link_route_empty_token env body st Htok) in E.
      inversion E. subst. discriminate. }
    revert E.
    unfold financialsRoutes.link, with_preHandler, validateRequest, safeParse.
    destruct (financialsRoutes.LinkFinancialsRequestSchema env body) as [|i l].
    2: { intros E. inversion E. subst. discriminate. }
    destruct (company st !! financialsRoutes.companyId body) as [c|] eqn:H.
    + destruct (financialsLinked c) eqn:Hf.
      * unfold financialsRoutes.post_link, try_catch, bind.
        rewrite db_company_findUnique_eq, H, Hf.
        intros E. inversion E. subst. discriminate.
      * rewrite (post_link_run env body st c H Hf), (linkWithPlaid_true _ _ Htok). cbv zeta.
        destruct (calculateScore _ _); intros E; inversion E; subst; discriminate.
    + unfold financialsRoutes.post_link, try_catch, bind.
      rewrite db_company_findUnique_eq, H.
      intros E. inversion E. subst. discriminate.
  - intros body Hid Htok H. rewrite (link_route_valid env body Hid Htok).
    unfold financialsRoutes.post_link, try_catch, bind.
    rewrite db_company_findUnique_eq, H. reflexivity.
  - intros companyId H. unfold financialsRoutes.delete_link, try_catch, bind.
    rewrite db_company_findUnique_eq, H. reflexivity.
  - intros companyId c H Hf. unfold financialsRoutes.delete_link, try_catch, bind.
    rewrite db_company_findUnique_eq, H, Hf. reflexivity.
Qed.

Lemma financials_no_effect_witness :
  financialsRoutes.link sample_env empty_token_request sample_state =
    (Ok {| status := 400;
           payload :=
             PValidation "Validation failed"
               [mkIssue "plaidToken" "Plaid token is required"] |}, sample_state)
  /\ financialsRoutes.link sample_env unknown_company_request sample_state =
       (Ok {| status := 404; payload := PError "Company not found" |}, sample_state)
  /\ financialsRoutes.delete_link sample_env "c-2" sample_state =
       (Ok {| status := 404; payload := PError "Company not found" |}, sample_state)
  /\ financialsRoutes.delete_link sample_env "c-1" sample_state =
       (Ok {| status := 400; payload := PError "No financial accounts linked" |},
        sample_state).
Proof.
  destruct (financials_no_effect sample_env sample_state)
    as (Hempty & _ & Hunknown & Hmiss & Hnot).
  split; [|split; [|split]].
  - apply (Hempty empty_token_request). reflexivity.
  - apply (Hunknown unknown_company_request); [reflexivity | discriminate | reflexivity].
  - apply Hmiss. reflexivity.
  - apply (Hnot "c-1" sample_company); reflexivity.
Defined.

(** X6. Linking and then unlinking is a round trip for the score: the company
    ends with the flag cleared and the score it started with, its row
    differing from the original only in [updatedAt]; the notification written
    by the link stays. *)
Theorem link_then_unlink (env env' : Env) (body : financialsRoutes.LinkFinancialsRequest)
    (st : State) (c : Company) :
  company st !! financialsRoutes.companyId body = Some c ->
  financialsLinked c = false ->
  financialsRoutes.plaidToken body <> "" ->
  exists st1 st2,
    financialsRoutes.post_link env body st =
      (Ok {| status := 200; payload := PLink true |}, st1)
    /\ financialsRoutes.delete_link env' (financialsRoutes.companyId body) st1 =
         (Ok {| status := 200; payload := PSuccess |}, st2)
    /\ calculateScore (financialsRoutes.companyId body) st2
       = calculateScore (financialsRoutes.companyId body) st
    /\ company st2 !! financialsRoutes.companyId body =
         Some {| company_userId := company_userId c; company_name := company_name c;
                 sector := sector c; targetRaise := targetRaise c; revenue := revenue c;
                 kycVerified := kycVerified c; financialsLinked := false;
                 company_createdAt := company_createdAt c;
                 company_updatedAt := now env' |}
    /\ notification st2 =
         (notification st ++ [financials_notification env (company_userId c)])%list.
Proof.
  intros H Hf Htok.
  rewrite (post_link_run env body st c H Hf).
  rewrite (linkWithPlaid_nonempty _ _ Htok). cbv zeta.
  set (st2 := set_notification _ _).
  assert (company st2 !! financialsRoutes.companyId body
          = Some (financialsRoutes.set_financialsLinked true env c)) as H2
    by (subst st2; simpl; apply lookup_insert_eq).
  rewrite (calculateScore_uncapped st2 _ _ H2).
  eexists. eexists. split; [reflexivity|].
  match goal with
  | |- financialsRoutes.delete_link _ ?i ?s = _ /\ _ =>
      assert (company s !! i = Some (financialsRoutes.set_financialsLinked true env c))
        as H3 by (simpl; apply lookup_insert_eq);
      rewrite (delete_link_run env' i s _ H3 eq_refl)
  end.
  cbv zeta.
  match goal with
  | |- context [calculateScore ?i ?s] =>
      assert (company s !! i
              = Some (financialsRoutes.set_financialsLinked false env'
                        (financialsRoutes.set_financialsLinked true env c)))
        as H4 by (simpl; apply lookup_insert_eq);
      rewrite (calculateScore_uncapped s i _ H4)
  end.
  split; [reflexivity|].
  split.
  - match goal with
    | |- calculateScore ?i ?s = _ =>
        assert (company s !! i
                = Some (financialsRoutes.set_financialsLinked false env'
                          (financialsRoutes.set_financialsLinked true env c)))
          as H5 by (simpl; apply lookup_insert_eq);
        rewrite (calculateScore_uncapped s i _ H5)
    end.
    rewrite (calculateScore_uncapped st _ _ H).
    cbn [financialsRoutes.set_financialsLinked kycVerified financialsLinked revenue].
    rewrite Hf. reflexivity.
  - split; [simpl; apply lookup_insert_eq | reflexivity].
Qed.

Lemma link_then_unlink_witness :
  exists st1 st2,
    financialsRoutes.post_link sample_env link_request sample_state =
      (Ok {| status := 200; payload := PLink true |}, st1)
    /\ financialsRoutes.delete_link sample_env "c-1" st1 =
         (Ok {| status := 200; payload := PSuccess |}, st2)
    /\ calculateScore "c-1" st2 = calculateScore "c-1" sample_state.
Proof.
  destruct (link_then_unlink sample_env sample_env link_request sample_state sample_company)
    as (st1 & st2 & H1 & H2 & H3 & _).
  - reflexivity.
  - reflexivity.
  - simpl. discriminate.
  - exists st1, st2. repeat split; assumption.
Defined.

(** ** Uploading and deleting documents *)

Lemma or_other_idempotent (category : option string) :
  FileService.or_other (Some (FileService.or_other category)) = FileService.or_other category.
Proof.
  destruct category as [c|]; [|reflexivity].
  unfold FileService.or_other.
  destruct (String.eqb c "") eqn:E; [reflexivity|]. rewrite E. reflexivity.
Qed.


Lemma post_upload_run (env : Env) (request : filesRoutes.UploadRequest) (st : State)
    (c : Company) (file : FileService.UploadedFile) :
  company st !! filesRoutes.companyId request = Some c ->
  filesRoutes.file request = Some file ->
  filesRoutes.post_upload env request st =
    match validateFile env with
    | Some e =>
        (Ok {| status := 500; payload := PError (err_message e) |},
         set_console (fun l => (l ++ [console_error "Error uploading file:" e])%list) st)
    | None =>
        let doc := uploaded_document env request file in
        let st2 :=
          set_notification
            (fun l => (l ++ [upload_notification env (company_userId c) (doc_name doc)])%list)
            (set_document (fun l => (l ++ [doc])%list) st) in
        match calculateScore (filesRoutes.companyId request) st2 with
        | Ok s' =>
            (Ok {| status := 201; payload := PDocument doc |},
             set_auditLog
               (fun l =>
                  (l ++ [{| audit_userId := company_userId c;
                            action := "document_uploaded";
                            resource := "Document:" ++ doc_id doc;
                            metadata :=
                              [("fileName", JString (doc_name doc));
                               ("fileSize", JNumber (size doc));
                               ("mimeType", JString (mimeType doc));
                               ("category",
                                JString (FileService.or_other
                                           (filesRoutes.category_field request)));
                               ("timestamp", JDate (now env))];
                            audit_createdAt := now env |}])%list)
               (set_console
                  (fun l => (l ++ [score_line (filesRoutes.companyId request) s'])%list) st2))
        | Throw e =>
            (Ok {| status := 500; payload := PError (err_message e) |},
             set_console (fun l => (l ++ [console_error "Error uploading file:" e])%list) st2)
        end
    end.
Proof.
  intros H Hfile.
  unfold filesRoutes.post_upload, try_catch, bind.
  rewrite db_company_findUnique_eq, H, Hfile. cbv zeta.
  unfold FileService.uploadFile, bind.
  destruct (validateFile env) as [e|]; [reflexivity|].
  unfold ret, db_document_create, modify.
  rewrite or_other_idempotent.
  unfold NotificationService.notifyDocumentUploaded, NotificationService.create,
    db_notification_create, modify.
  unfold onCompanyDataChange, bind, query, upload_notification, new_notification,
    uploaded_document.
  destruct (calculateScore _ _) as [s'|e]; reflexivity.
Qed.



(** X8. An upload that does not go through writes no row: a file rejected by
    validation is answered 500 with the validation error's own message and
    only a console line is added; a request without a file (400) or for an
    unknown company (404) changes nothing at all. *)
Theorem upload_rejected (env : Env) (request : filesRoutes.UploadRequest) (st : State) :
  (company st !! filesRoutes.companyId request = None ->
   filesRoutes.post_upload env request st =
     (Ok {| status := 404; payload := PError "Company not found" |}, st))
  /\ (forall c, company st !! filesRoutes.companyId request = Some c ->
        filesRoutes.file request = None ->
        filesRoutes.post_upload env request st =
          (Ok {| status := 400; payload := PError "No file provided" |}, st))
  /\ (forall c file e, company st !! filesRoutes.companyId request = Some c ->
        filesRoutes.file request = Some file ->
        validateFile env = Some e ->
        exists st',
          filesRoutes.post_upload env request st =
            (Ok {| status := 500; payload := PError (err_message e) |}, st')
          /\ company st' = company st /\ document st' = document st
          /\ notification st' = notification st /\ auditLog st' = auditLog st
          /\ console st' = (console st ++ [console_error "Error uploading file:" e])%list).
Proof.
  split; [|split].
  - intros H. unfold filesRoutes.post_upload, try_catch, bind.
    rewrite db_company_findUnique_eq, H. reflexivity.
  - intros c H Hfile. unfold filesRoutes.post_upload, try_catch, bind.
    rewrite db_company_findUnique_eq, H, Hfile. reflexivity.
  - intros c file e H Hfile Hval.
    rewrite (post_upload_run env request st c file H Hfile), Hval.
    eexists. repeat split; reflexivity.
Qed.

Lemma upload_rejected_witness :
  exists st',
    filesRoutes.post_upload rejecting_env upload_request sample_state =
      (Ok {| status := 500; payload := PError "File type text/html is not allowed" |}, st')
    /\ document st' = document sample_state
    /\ notification st' = notification sample_state.
Proof.
  destruct (proj2 (proj2 (upload_rejected rejecting_env upload_request sample_state))
              sample_company
              (FileService.mkUploadedFile "plan.pdf" "application/pdf" 2048)
              (Error "File type text/html is not allowed"))
    as (st' & Hr & _ & Hd & Hn & _).
  - reflexivity.
  - reflexivity.
  - reflexivity.
  - exists st'. repeat split; assumption.
Defined.

Lemma db_document_findFirst_eq (fileId companyId : string) (st : State) :
  db_document_findFirst fileId companyId st
  = (Ok (findFirst_document st fileId companyId), st).
Proof. reflexivity. Qed.

Lemma delete_file_run (env : Env) (companyId fileId : string) (st : State) (d : Document) :
  findFirst_document st fileId companyId = Some d ->
  filesRoutes.delete_file env companyId fileId st =
    if fs_access env (path d) then
      let st1 :=
        if fs_unlink env (path d) then st
        else set_console
               (fun l => (l ++ [console_warn ("Failed to delete file from disk: "
                                                ++ path d)])%list) st in
      let st2 := set_document (fun l => filter (fun x => doc_id x <> fileId) l) st1 in
      match calculateScore companyId st2 with
      | Ok s' =>
          (Ok {| status := 200; payload := PSuccess |},
           match company st !! companyId with
           | Some c =>
               set_auditLog
                 (fun l => (l ++ [deletion_audit env (company_userId c) fileId d])%list)
                 (set_console (fun l => (l ++ [score_line companyId s'])%list) st2)
           | None => set_console (fun l => (l ++ [score_line companyId s'])%list) st2
           end)
      | Throw e =>
          (Ok {| status := 404; payload := PError (err_message e) |},
           set_console (fun l => (l ++ [console_error "Error deleting file:" e])%list) st2)
      end
    else
      (Ok {| status := 404; payload := PError "File not found on disk" |},
       set_console
         (fun l => (l ++ [console_error "Error deleting file:"
                            (Error "File not found on disk")])%list) st).
Proof.
  intros Hd.
  unfold filesRoutes.delete_file, try_catch, bind, FileService.getFile, bind.
  rewrite db_document_findFirst_eq, Hd.
  destruct (fs_access env (path d)); [|reflexivity].
  unfold ret. rewrite db_company_findUnique_eq.
  unfold FileService.deleteFile, bind.
  rewrite db_document_findFirst_eq, Hd.
  cbv zeta.
  destruct (fs_unlink env (path d));
    unfold ret, console_write, modify, db_document_delete, modify,
      onCompanyDataChange, bind, query;
    (destruct (calculateScore _ _) as [s'|e]; [|reflexivity]);
    destruct (company st !! companyId); reflexivity.
Qed.

Lemma findFirst_document_None (st : State) (fileId companyId : string) :
  Forall (fun d => ~ (doc_id d = fileId /\ doc_companyId d = companyId)) (document st) ->
  findFirst_document st fileId companyId = None.
Proof.
  unfold findFirst_document. intros H.
  induction H as [|d l Hd _ IH]; [reflexivity|].
  rewrite filter_cons.
  destruct (decide (doc_id d = fileId /\ doc_companyId d = companyId)); [contradiction|].
  exact IH.
Qed.

Lemma findFirst_document_Some (st : State) (fileId companyId : string) (d : Document) :
  findFirst_document st fileId companyId = Some d ->
  In d (document st) /\ doc_id d = fileId /\ doc_companyId d = companyId.
Proof.
  unfold findFirst_document.
  induction (document st) as [|x l IH]; [discriminate|].
  rewrite filter_cons.
  destruct (decide (doc_id x = fileId /\ doc_companyId x = companyId)) as [Hx|Hx].
  - simpl. intros [= <-]. split; [left; reflexivity | exact Hx].
  - intros H. destruct (IH H) as (Hin & Hrest). split; [right; exact Hin | exact Hrest].
Qed.

Lemma filter_other_ids (l : list Document) (fileId : string) :
  Forall (fun x => doc_id x <> fileId) l ->
  filter (fun x => doc_id x <> fileId) l = l.
Proof.
  intros H. induction H as [|x l Hx _ IH]; [reflexivity|].
  rewrite filter_cons. destruct (decide (doc_id x <> fileId)); [|contradiction].
  rewrite IH. reflexivity.
Qed.




(** X10. A delete that does not go through removes nothing: when no document
    has both that id and that company (so a document of another company is
    out of reach), the reply is 404 "File not found"; when the row exists but
    the file is gone from disk, 404 "File not found on disk".  In both cases
    every table is unchanged and one console line is added. *)
Theorem delete_refused (env : Env) (companyId fileId : string) (st : State) :
  (Forall (fun d => ~ (doc_id d = fileId /\ doc_companyId d = companyId)) (document st) ->
   exists st',
     filesRoutes.delete_file env companyId fileId st =
       (Ok {| status := 404; payload := PError "File not found" |}, st')
     /\ company st' = company st /\ document st' = document st
     /\ notification st' = notification st /\ auditLog st' = auditLog st
     /\ console st' =
          (console st ++ [console_error "Error deleting file:" (Error "File not found")])%list)
  /\ (forall d, findFirst_document st fileId companyId = Some d ->
        fs_access env (path d) = false ->
        exists st',
          filesRoutes.delete_file env companyId fileId st =
            (Ok {| status := 404; payload := PError "File not found on disk" |}, st')
          /\ company st' = company st /\ document st' = document st
          /\ notification st' = notification st /\ auditLog st' = auditLog st
          /\ console st' =
               (console st ++ [console_error "Error deleting file:"
                                 (Error "File not found on disk")])%list).
Proof.
  split.
  - intros H. apply findFirst_document_None in H.
    unfold filesRoutes.delete_file, try_catch, bind, FileService.getFile, bind.
    rewrite db_document_findFirst_eq, H.
    eexists. repeat split; reflexivity.
  - intros d Hd Hdisk.
    rewrite (delete_file_run env companyId fileId st d Hd), Hdisk.
    eexists. repeat split; reflexivity.
Qed.

Lemma delete_refused_witness :
  (exists st',
     filesRoutes.delete_file sample_env "c-2" "d-2" sample_state =
       (Ok {| status := 404; payload := PError "File not found" |}, st')
     /\ document st' = document sample_state)
  /\ (exists st',
        filesRoutes.delete_file offline_env "c-1" "d-2" sample_state =
          (Ok {| status := 404; payload := PError "File not found on disk" |}, st')
        /\ document st' = document sample_state).
Proof.
  split.
  - destruct (proj1 (delete_refused sample_env "c-2" "d-2" sample_state))
      as (st' & Hr & _ & Hd & _).
    + simpl. repeat constructor; simpl; intros [_ Hc]; discriminate.
    + exists st'. split; assumption.
  - destruct (proj2 (delete_refused offline_env "c-1" "d-2" sample_state)
                (sample_document "d-2" "pitch-deck"))
      as (st' & Hr & _ & Hd & _).
    + reflexivity.
    + reflexivity.
    + exists st'. split; assumption.
Defined.

(** ** Recalculation *)

(** X11. POST recalculate replies 200 with exactly the score [calculateScore]
    gives for an existing company and 404 for an unknown one; it never writes
    to a table: the only trace is one console line with the score. *)
Theorem recalculate_reads_only (companyId : string) (st : State) :
  (company st !! companyId = None ->
   scoreRoutes.post_recalculate companyId st =
     (Ok {| status := 404; payload := PError "Company not found" |}, st))
  /\ (forall c, company st !! companyId = Some c ->
        exists s,
          calculateScore companyId st = Ok s
          /\ scoreRoutes.post_recalculate companyId st =
               (Ok {| status := 200; payload := PScore s |},
                set_console (fun l => (l ++ [score_line companyId s])%list) st)).
Proof.
  split.
  - intros H. unfold scoreRoutes.post_recalculate, try_catch, bind.
    rewrite db_company_findUnique_eq, H. reflexivity.
  - intros c H.
    destruct (onCompanyDataChange_found st companyId c H) as (s & Hs & E).
    exists s. split; [exact Hs|].
    unfold scoreRoutes.post_recalculate, try_catch, bind.
    rewrite db_company_findUnique_eq, H. unfold query. rewrite Hs, E. reflexivity.
Qed.

Lemma recalculate_reads_only_witness :
  scoreRoutes.post_recalculate "c-2" sample_state =
    (Ok {| status := 404; payload := PError "Company not found" |}, sample_state)
  /\ exists s,
       calculateScore "c-1" sample_state = Ok s
       /\ scoreRoutes.post_recalculate "c-1" sample_state =
            (Ok {| status := 200; payload := PScore s |},
             set_console (fun l => (l ++ [score_line "c-1" s])%list) sample_state).
Proof.
  split.
  - apply (proj1 (recalculate_reads_only "c-2" sample_state)). reflexivity.
  - apply (proj2 (recalculate_reads_only "c-1" sample_state) sample_company). reflexivity.
Defined.

(** ** Invariants of the handlers *)

Section Steps.

Variable R : State -> State -> Prop.
Hypothesis R_refl : forall st, R st st.
Hypothesis R_trans : forall st1 st2 st3, R st1 st2 -> R st2 st3 -> R st1 st3.

Lemma steps_ret {A} (a : A) : steps_within R (ret a).
Proof. intros st. apply R_refl. Qed.

Lemma steps_throw {A} (e : JsError) : steps_within R (@throw A e).
Proof. intros st. apply R_refl. Qed.

Lemma steps_gets {A} (f : State -> A) : steps_within R (gets f).
Proof. intros st. apply R_refl. Qed.

Lemma steps_query {A} (f : State -> Result A) : steps_within R (query f).
Proof. intros st. apply R_refl. Qed.

Lemma steps_modify (f : State -> State) :
  (forall st, R st (f st)) -> steps_within R (modify f).
Proof. intros H st. apply H. Qed.

Lemma steps_bind {A B} (m : M A) (k : A -> M B) :
  steps_within R m -> (forall a, steps_within R (k a)) -> steps_within R (bind m k).
Proof.
  intros Hm Hk st. unfold bind. specialize (Hm st).
  destruct (m st) as [[a|e] st1]; simpl in *.
  - eapply R_trans; [exact Hm | apply Hk].
  - exact Hm.
Qed.

Lemma steps_try_catch {A} (body : M A) (handler : JsError -> M A) :
  steps_within R body -> (forall e, steps_within R (handler e)) ->
  steps_within R (try_catch body handler).
Proof.
  intros Hm Hk st. unfold try_catch. specialize (Hm st).
  destruct (body st) as [[a|e] st1]; simpl in *.
  - exact Hm.
  - eapply R_trans; [exact Hm | apply Hk].
Qed.

End Steps.

Lemma company_kept_refl (c : Company) : company_kept c c.
Proof. unfold company_kept. repeat split; auto. Qed.

Lemma company_kept_trans (c1 c2 c3 : Company) :
  company_kept c1 c2 -> company_kept c2 c3 -> company_kept c1 c3.
Proof. unfold company_kept. intros H1 H2. intuition congruence. Qed.

Lemma companies_kept_refl (st : State) : companies_kept st st.
Proof.
  intros j. destruct (company st !! j); [apply company_kept_refl | exact I].
Qed.

Lemma companies_kept_trans (st1 st2 st3 : State) :
  companies_kept st1 st2 -> companies_kept st2 st3 -> companies_kept st1 st3.
Proof.
  intros H1 H2 j. specialize (H1 j). specialize (H2 j).
  destruct (company st1 !! j), (company st2 !! j), (company st3 !! j);
    try contradiction; try exact I.
  eapply company_kept_trans; eassumption.
Qed.

Lemma companies_kept_same (st st' : State) :
  company st' = company st -> companies_kept st st'.
Proof. intros H j. rewrite H. apply companies_kept_refl. Qed.

Lemma others_untouched_refl (t : string) (st : State) : others_untouched t st st.
Proof. intros j _. reflexivity. Qed.

Lemma others_untouched_trans (t : string) (st1 st2 st3 : State) :
  others_untouched t st1 st2 -> others_untouched t st2 st3 -> others_untouched t st1 st3.
Proof. intros H1 H2 j Hj. rewrite (H2 j Hj). apply H1, Hj. Qed.

Lemma db_company_update_kept (id : string) (data : Company -> Company) :
  (forall c, company_kept c (data c)) ->
  steps_within companies_kept (db_company_update id data).
Proof.
  intros Hdata st. destruct (company st !! id) as [c|] eqn:E.
  - rewrite (db_company_update_found id data st c E). cbn [snd].
    intros j. cbn [company set_company].
    destruct (decide (id = j)) as [->|Hne].
    + rewrite lookup_insert_eq, E. apply Hdata.
    + rewrite lookup_insert_ne by exact Hne.
      destruct (company st !! j); [apply company_kept_refl | exact I].
  - unfold db_company_update, bind. rewrite db_company_findUnique_eq, E.
    apply companies_kept_refl.
Qed.

Lemma db_company_update_others (id : string) (data : Company -> Company) :
  steps_within (others_untouched id) (db_company_update id data).
Proof.
  intros st. destruct (company st !! id) as [c|] eqn:E.
  - rewrite (db_company_update_found id data st c E). cbn [snd].
    intros j Hj. cbn [company set_company]. apply lookup_insert_ne. congruence.
  - unfold db_company_update, bind. rewrite db_company_findUnique_eq, E.
    apply others_untouched_refl.
Qed.

Lemma set_kycVerified_kept (env : Env) (c : Company) :
  company_kept c (kycRoutes.set_kycVerified true env c).
Proof. unfold company_kept. repeat split; auto. Qed.

Lemma set_financialsLinked_kept (b : bool) (env : Env) (c : Company) :
  company_kept c (financialsRoutes.set_financialsLinked b env c).
Proof. unfold company_kept. repeat split; auto. Qed.

Create HintDb handlers.
#[local] Hint Unfold status_send send console_write
  db_company_findUnique db_notification_create db_auditLog_create
  db_document_create db_document_findFirst db_document_delete
  onCompanyDataChange
  NotificationService.notifyKycVerified NotificationService.notifyFinancialsLinked
  NotificationService.notifyDocumentUploaded NotificationService.create
  FileService.uploadFile FileService.getFile FileService.deleteFile
  financialsRoutes.unlinkFromPlaid : handlers.

(** Walks through a handler for a reflexive and transitive relation on
    states; [leaf] closes the writes. *)
Ltac walk refl trans leaf :=
  autounfold with handlers; cbv zeta;
  repeat first
    [ leaf
    | apply (steps_try_catch _ trans)
    | apply (steps_bind _ trans)
    | apply (steps_ret _ refl)
    | apply (steps_throw _ refl)
    | apply (steps_gets _ refl)
    | apply (steps_query _ refl)
    | progress intros
    | match goal with
      | |- steps_within _ (match ?x with _ => _ end) => destruct x
      end ].

Ltac kept_leaf :=
  first
    [ apply steps_modify; intros; apply companies_kept_same; reflexivity
    | apply db_company_update_kept; intros;
      first [ apply set_kycVerified_kept | apply set_financialsLinked_kept ] ].

Lemma handle_companies_kept (env : Env) (m : Mutation) :
  steps_within companies_kept (handle env m).
Proof.
  destruct m; simpl;
    [ unfold kycRoutes.post_verify | unfold financialsRoutes.post_link
    | unfold financialsRoutes.delete_link | unfold filesRoutes.post_upload
    | unfold filesRoutes.delete_file | unfold scoreRoutes.post_recalculate ];
    walk companies_kept_refl companies_kept_trans kept_leaf.
Qed.

Ltac others_leaf :=
  first
    [ apply steps_modify; intros ? ? ?; reflexivity
    | apply db_company_update_others ].

Lemma handle_others_untouched (env : Env) (m : Mutation) :
  steps_within (others_untouched (target m)) (handle env m).
Proof.
  destruct m; simpl;
    [ unfold kycRoutes.post_verify | unfold financialsRoutes.post_link
    | unfold financialsRoutes.delete_link | unfold filesRoutes.post_upload
    | unfold filesRoutes.delete_file | unfold scoreRoutes.post_recalculate ];
    walk uconstr:(others_untouched_refl _) uconstr:(others_untouched_trans _) others_leaf.
Qed.

Lemma run_cons (r : Env * Mutation) (requests : list (Env * Mutation)) (st : State) :
  run (r :: requests) st = run requests (snd (handle (fst r) (snd r) st)).
Proof. reflexivity. Qed.

Lemma run_companies_kept (requests : list (Env * Mutation)) (st : State) :
  companies_kept st (run requests st).
Proof.
  revert st. induction requests as [|r requests IH]; intros st.
  - apply companies_kept_refl.
  - rewrite run_cons. eapply companies_kept_trans; [apply handle_companies_kept | apply IH].
Qed.

(** X12. Whatever sequence of requests is served, the company table keeps
    the same ids (no handler creates or deletes a company); each row keeps
    its owner, name, sector, target raise, revenue and creation time; and a
    company that is KYC-verified stays verified. *)
Theorem requests_keep_companies (requests : list (Env * Mutation)) (st : State)
    (j : string) :
  (company st !! j = None -> company (run requests st) !! j = None)
  /\ (forall c, company st !! j = Some c ->
        exists c', company (run requests st) !! j = Some c' /\ company_kept c c').
Proof.
  pose proof (run_companies_kept requests st j) as H.
  split.
  - intros Hn. rewrite Hn in H.
    destruct (company (run requests st) !! j); [contradiction | reflexivity].
  - intros c Hc. rewrite Hc in H.
    destruct (company (run requests st) !! j) as [c'|]; [|contradiction].
    exists c'. split; [reflexivity | exact H].
Qed.

Lemma requests_keep_companies_witness :
  exists c',
    company (run [(sample_env, VerifyKyc verify_request);
                  (sample_env, UnlinkFinancials "c-1");
                  (sample_env, UploadDocument upload_request)] optimized_state) !! "c-1"
    = Some c'
    /\ company_kept optimized_company c'.
Proof.
  apply (proj2 (requests_keep_companies
                  [(sample_env, VerifyKyc verify_request);
                   (sample_env, UnlinkFinancials "c-1");
                   (sample_env, UploadDocument upload_request)] optimized_state "c-1")).
  reflexivity.
Defined.

(** ** One request, one company *)

Lemma NoDup_map_inj {A B} (f : A -> B) (l : list A) (x y : A) :
  NoDup (map f l) -> In x l -> In y l -> f x = f y -> x = y.
Proof.
  induction l as [|a l IH]; [intros _ []|].
  simpl. intros Hnd Hx Hy Hf. apply NoDup_cons in Hnd. destruct Hnd as [Ha Hnd].
  destruct Hx as [->|Hx], Hy as [->|Hy]; try reflexivity.
  - exfalso. apply Ha. apply list_elem_of_In, in_map_iff. exists y. split; [congruence|exact Hy].
  - exfalso. apply Ha. apply list_elem_of_In, in_map_iff. exists x. split; [congruence|exact Hx].
  - apply IH; assumption.
Qed.

Lemma filter_delete_others (l : list Document) (f t j : string) (d : Document) :
  NoDup (map doc_id l) -> In d l -> doc_id d = f -> doc_companyId d = t -> j <> t ->
  filter (fun x => doc_companyId x = j) (filter (fun x => doc_id x <> f) l)
  = filter (fun x => doc_companyId x = j) l.
Proof.
  intros Hnd Hin Hid Hcid Hj.
  induction l as [|x l IH]; [reflexivity|].
  simpl in Hnd. pose proof Hnd as Hnd'. apply NoDup_cons in Hnd'.
  destruct Hnd' as [Hnotin Hnd'].
  rewrite (filter_cons (fun x => doc_id x <> f)).
  destruct (decide (doc_id x <> f)) as [Hx|Hx].
  - rewrite !(filter_cons (fun x => doc_companyId x = j)).
    destruct Hin as [->|Hin]; [contradiction|].
    rewrite (IH Hnd' Hin). reflexivity.
  - assert (doc_id x = f) as Hxf by (destruct (decide (doc_id x = f)); tauto).
    assert (x = d) as ->.
    { apply (NoDup_map_inj doc_id (x :: l)); [exact Hnd | left; reflexivity | exact Hin |].
      congruence. }
    rewrite (filter_cons (fun x => doc_companyId x = j)).
    destruct (decide (doc_companyId d = j)); [congruence|].
    rewrite filter_other_ids; [reflexivity|].
    apply Forall_forall. intros y Hy Heq. apply Hnotin.
    apply list_elem_of_In, in_map_iff. exists y. split; [congruence|].
    apply list_elem_of_In. exact Hy.
Qed.

Lemma documents_step_others (t j : string) (st st' : State) :
  documents_step t st st' ->
  NoDup (map doc_id (document st)) ->
  j <> t ->
  documents_of st' j = documents_of st j.
Proof.
  intros Hstep Hnd Hj. unfold documents_of.
  destruct Hstep as [E | [(d & Hd & E) | (f & d & Hd & E)]]; rewrite E.
  - reflexivity.
  - rewrite filter_app, filter_cons, filter_nil.
    destruct (decide (doc_companyId d = j)); [congruence|]. apply app_nil_r.
  - destruct (findFirst_document_Some st f t d Hd) as (Hin & Hid & Hcid).
    apply (filter_delete_others _ f t j d); assumption.
Qed.

Lemma steps_db_company_update (R : State -> State -> Prop) (id : string)
    (data : Company -> Company) :
  (forall st, R st st) ->
  (forall f st, R st (set_company f st)) ->
  steps_within R (db_company_update id data).
Proof.
  intros Hrefl Hset st. destruct (company st !! id) as [c|] eqn:E.
  - rewrite (db_company_update_found id data st c E). apply Hset.
  - unfold db_company_update, bind. rewrite db_company_findUnique_eq, E. apply Hrefl.
Qed.

Lemma documents_same_refl (st : State) : documents_same st st.
Proof. reflexivity. Qed.

Lemma documents_same_trans (st1 st2 st3 : State) :
  documents_same st1 st2 -> documents_same st2 st3 -> documents_same st1 st3.
Proof. unfold documents_same. congruence. Qed.

Ltac same_leaf :=
  first
    [ apply steps_modify; intros ?; reflexivity
    | apply steps_db_company_update; intros; reflexivity ].

Lemma post_verify_documents (env : Env) (body : kycRoutes.KycVerificationRequest) :
  steps_within documents_same (kycRoutes.post_verify env body).
Proof.
  unfold kycRoutes.post_verify. walk documents_same_refl documents_same_trans same_leaf.
Qed.

Lemma post_link_documents (env : Env) (body : financialsRoutes.LinkFinancialsRequest) :
  steps_within documents_same (financialsRoutes.post_link env body).
Proof.
  unfold financialsRoutes.post_link.
  walk documents_same_refl documents_same_trans same_leaf.
Qed.

Lemma delete_link_documents (env : Env) (companyId : string) :
  steps_within documents_same (financialsRoutes.delete_link env companyId).
Proof.
  unfold financialsRoutes.delete_link.
  walk documents_same_refl documents_same_trans same_leaf.
Qed.

Lemma post_recalculate_documents (companyId : string) :
  steps_within documents_same (scoreRoutes.post_recalculate companyId).
Proof.
  unfold scoreRoutes.post_recalculate.
  walk documents_same_refl documents_same_trans same_leaf.
Qed.

Lemma post_upload_documents (env : Env) (request : filesRoutes.UploadRequest) (st : State) :
  documents_step (filesRoutes.companyId request) st
    (snd (filesRoutes.post_upload env request st)).
Proof.
  destruct (company st !! filesRoutes.companyId request) as [c|] eqn:H.
  - destruct (filesRoutes.file request) as [file|] eqn:Hfile.
    + rewrite (post_upload_run env request st c file H Hfile).
      destruct (validateFile env); [left; reflexivity|]. cbv zeta.
      destruct (calculateScore _ _); right; left;
        exists (uploaded_document env request file); split; reflexivity.
    + left. unfold filesRoutes.post_upload, try_catch, bind.
      rewrite db_company_findUnique_eq, H, Hfile. reflexivity.
  - left. unfold filesRoutes.post_upload, try_catch, bind.
    rewrite db_company_findUnique_eq, H. reflexivity.
Qed.

Lemma delete_file_documents (env : Env) (companyId fileId : string) (st : State) :
  documents_step companyId st (snd (filesRoutes.delete_file env companyId fileId st)).
Proof.
  destruct (findFirst_document st fileId companyId) as [d|] eqn:Hd.
  - rewrite (delete_file_run env companyId fileId st d Hd).
    destruct (fs_access env (path d)); [|left; reflexivity]. cbv zeta.
    right. right. exists fileId, d. split; [exact Hd|].
    destruct (fs_unlink env (path d));
      (destruct (calculateScore _ _); [destruct (company st !! companyId)|]); reflexivity.
  - left. unfold filesRoutes.delete_file, try_catch, bind, FileService.getFile, bind.
    rewrite db_document_findFirst_eq, Hd. reflexivity.
Qed.

Lemma handle_documents_step (env : Env) (m : Mutation) (st : State) :
  documents_step (target m) st (snd (handle env m st)).
Proof.
  destruct m; simpl.
  - left. apply post_verify_documents.
  - left. apply post_link_documents.
  - left. apply delete_link_documents.
  - apply post_upload_documents.
  - apply delete_file_documents.
  - left. apply post_recalculate_documents.
Qed.

(** X13. A request only concerns its own company: the row of every other
    company is unchanged, and, document ids being unique, so are the
    documents and therefore the score and the recommendations of every other
    company. *)
Theorem request_touches_one_company (env : Env) (m : Mutation) (st : State) (j : string) :
  j <> target m ->
  NoDup (map doc_id (document st)) ->
  company (snd (handle env m st)) !! j = company st !! j
  /\ documents_of (snd (handle env m st)) j = documents_of st j
  /\ calculateScore j (snd (handle env m st)) = calculateScore j st
  /\ getRecommendations j (snd (handle env m st)) = getRecommendations j st.
Proof.
  intros Hj Hnd.
  pose proof (handle_others_untouched env m st j Hj) as Hc.
  pose proof (documents_step_others (target m) j st _ (handle_documents_step env m st) Hnd Hj)
    as Hd.
  split; [exact Hc|]. split; [exact Hd|].
  unfold calculateScore, getRecommendations, company_findUnique_with_documents.
  rewrite Hc, Hd. split; reflexivity.
Qed.

Lemma request_touches_one_company_witness :
  calculateScore "c-1"
    (snd (handle sample_env (DeleteDocument "c-2" "d-2") sample_state))
  = calculateScore "c-1" sample_state.
Proof.
  apply (request_touches_one_company sample_env (DeleteDocument "c-2" "d-2")
           sample_state "c-1").
  - simpl. discriminate.
  - apply (bool_decide_eq_true_1 _). vm_compute. reflexivity.
Defined.

(** ** The audit log *)

Lemma audit_adds_only_refl (P : AuditLog -> Prop) (st : State) : audit_adds_only P st st.
Proof. exists []. split; [symmetry; apply app_nil_r | constructor]. Qed.

Lemma audit_adds_only_same (P : AuditLog -> Prop) (st st' : State) :
  auditLog st' = auditLog st -> audit_adds_only P st st'.
Proof. intros H. exists []. rewrite H. split; [symmetry; apply app_nil_r | constructor]. Qed.

Lemma audit_adds_only_trans (P : AuditLog -> Prop) (st1 st2 st3 : State) :
  audit_adds_only P st1 st2 -> audit_adds_only P st2 st3 -> audit_adds_only P st1 st3.
Proof.
  intros (n1 & E1 & F1) (n2 & E2 & F2). exists (n1 ++ n2)%list. split.
  - rewrite E2, E1. symmetry. apply app_assoc.
  - apply Forall_app. split; assumption.
Qed.

Ltac audit_shape :=
  unfold handler_audit_row; cbn [action resource];
  first
    [ left; split; [reflexivity | eexists; reflexivity]
    | right; left; split; [reflexivity | eexists; reflexivity]
    | right; right; left; split; [reflexivity | eexists; reflexivity]
    | right; right; right; left; split; [reflexivity | eexists; reflexivity]
    | right; right; right; right; split; [reflexivity | eexists; reflexivity] ].

Ltac audit_leaf :=
  first
    [ apply steps_modify; intros ?; apply audit_adds_only_same; reflexivity
    | apply steps_modify; intros ?; eexists; split;
      [reflexivity | constructor; [audit_shape | constructor]]
    | apply steps_db_company_update; intros;
      [apply audit_adds_only_refl | apply audit_adds_only_same; reflexivity] ].

Lemma handle_audit (env : Env) (m : Mutation) :
  steps_within (audit_adds_only handler_audit_row) (handle env m).
Proof.
  destruct m; simpl;
    [ unfold kycRoutes.post_verify | unfold financialsRoutes.post_link
    | unfold financialsRoutes.delete_link | unfold filesRoutes.post_upload
    | unfold filesRoutes.delete_file | unfold scoreRoutes.post_recalculate ];
    walk uconstr:(audit_adds_only_refl _) uconstr:(audit_adds_only_trans _) audit_leaf.
Qed.

Lemma run_audit (requests : list (Env * Mutation)) (st : State) :
  audit_adds_only handler_audit_row st (run requests st).
Proof.
  revert st. induction requests as [|r requests IH]; intros st.
  - apply audit_adds_only_refl.
  - rewrite run_cons. eapply audit_adds_only_trans; [apply handle_audit | apply IH].
Qed.

(** X14. The audit log is append-only under the handlers: whatever sequence
    of requests is served, the old rows are still there, in order, followed
    by new rows, each of one of five kinds: kyc_verified, financials_linked
    and financials_unlinked on a "Company:" resource, document_uploaded and
    document_deleted on a "Document:" resource. *)
Theorem audit_log_append_only (requests : list (Env * Mutation)) (st : State) :
  exists new,
    auditLog (run requests st) = (auditLog st ++ new)%list
    /\ Forall handler_audit_row new.
Proof. apply run_audit. Qed.

(** ** The simulated score history *)

Lemma history_loop_app (auditEvents : list AuditLog) (currentScore : Z)
    (history : list scoreRoutes.HistoryEntry) :
  scoreRoutes.history_loop auditEvents currentScore history
  = (history ++ scoreRoutes.history_loop auditEvents currentScore [])%list.
Proof.
  revert currentScore history.
  induction auditEvents as [|a rest IH]; intros currentScore history.
  - simpl. symmetry. apply app_nil_r.
  - simpl. rewrite IH. rewrite (IH _ [_]). rewrite app_assoc. reflexivity.
Qed.

Lemma history_loop_length (auditEvents : list AuditLog) (currentScore : Z) :
  length (scoreRoutes.history_loop auditEvents currentScore []) = length auditEvents.
Proof.
  revert currentScore. induction auditEvents as [|a rest IH]; intros currentScore.
  - reflexivity.
  - simpl. rewrite history_loop_app, length_app, IH. reflexivity.
Qed.

Lemma history_loop_events (auditEvents : list AuditLog) (currentScore : Z) :
  map scoreRoutes.event (scoreRoutes.history_loop auditEvents currentScore [])
  = map action auditEvents.
Proof.
  revert currentScore. induction auditEvents as [|a rest IH]; intros currentScore.
  - reflexivity.
  - simpl. rewrite history_loop_app, map_app, IH. reflexivity.
Qed.

Lemma history_loop_dates (auditEvents : list AuditLog) (currentScore : Z) :
  map scoreRoutes.date (scoreRoutes.history_loop auditEvents currentScore [])
  = map audit_createdAt auditEvents.
Proof.
  revert currentScore. induction auditEvents as [|a rest IH]; intros currentScore.
  - reflexivity.
  - simpl. rewrite history_loop_app, map_app, IH. reflexivity.
Qed.

Lemma history_loop_bounds (auditEvents : list AuditLog) (currentScore : Z) :
  Forall (fun e => Z.min currentScore 100 <= scoreRoutes.entry_score e <= 100
                   /\ (scoreRoutes.change e = 30 \/ scoreRoutes.change e = 20
                       \/ scoreRoutes.change e = 5))
    (scoreRoutes.history_loop auditEvents currentScore []).
Proof.
  revert currentScore. induction auditEvents as [|a rest IH]; intros currentScore.
  - constructor.
  - simpl. rewrite history_loop_app. apply Forall_app. split.
    + constructor; [|constructor]. cbn [scoreRoutes.entry_score scoreRoutes.change].
      unfold Math_min.
      destruct (String.eqb (action a) "kyc_verified");
        [|destruct (String.eqb (action a) "financials_linked");
          [|destruct (String.eqb (action a) "document_uploaded")]];
        split; try lia; auto.
    + eapply Forall_impl; [apply IH|].
      intros e [Hb Hc]. split; [|exact Hc].
      destruct (String.eqb (action a) "kyc_verified");
        [|destruct (String.eqb (action a) "financials_linked");
          [|destruct (String.eqb (action a) "document_uploaded")]]; lia.
Qed.

Lemma history_loop_sorted (auditEvents : list AuditLog) (currentScore : Z) :
  Sorted Z.le (map scoreRoutes.entry_score
                 (scoreRoutes.history_loop auditEvents currentScore [])).
Proof.
  revert currentScore. induction auditEvents as [|a rest IH]; intros currentScore.
  - constructor.
  - simpl. rewrite history_loop_app. simpl. constructor; [apply IH|].
    match goal with
    | |- HdRel _ _ (map _ (scoreRoutes.history_loop rest ?cur [])) =>
        pose proof (history_loop_bounds rest cur) as Hb;
        destruct (scoreRoutes.history_loop rest cur []) as [|e l]
    end; [constructor|].
    constructor. apply Forall_cons in Hb. destruct Hb as [[Hb _] _].
    unfold Math_min. lia.
Qed.

#[local] Instance oldest_first_total : Total scoreRoutes.oldest_first.
Proof. intros a b. unfold scoreRoutes.oldest_first. lia. Qed.

(** X15. Whatever the audit log, the simulated history has one entry per
    selected audit row, in non-decreasing date order; every entry's score is
    at most 100 and its change is 30, 20 or 5; and the scores never go down
    from one entry to the next. *)
Theorem score_history_shape (companyId : string) (st : State) :
  length (scoreRoutes.getScoreHistory companyId st)
  = length (filter (scoreRoutes.history_event companyId) (auditLog st))
  /\ Forall (fun e => 0 <= scoreRoutes.entry_score e <= 100
                     /\ (scoreRoutes.change e = 30 \/ scoreRoutes.change e = 20
                         \/ scoreRoutes.change e = 5))
       (scoreRoutes.getScoreHistory companyId st)
  /\ Sorted Z.le (map scoreRoutes.entry_score (scoreRoutes.getScoreHistory companyId st))
  /\ Sorted Z.le (map scoreRoutes.date (scoreRoutes.getScoreHistory companyId st)).
Proof.
  unfold scoreRoutes.getScoreHistory. cbv zeta.
  split; [|split; [|split]].
  - rewrite history_loop_length.
    apply Permutation_length, merge_sort_Permutation.
  - eapply Forall_impl; [apply history_loop_bounds|].
    intros e [Hb Hc]. split; [lia | exact Hc].
  - apply history_loop_sorted.
  - rewrite history_loop_dates.
    pose proof (Sorted_merge_sort scoreRoutes.oldest_first
                  (filter (scoreRoutes.history_event companyId) (auditLog st))) as Hs.
    induction Hs as [|a l _ IH Hhd]; [constructor|].
    simpl. constructor; [exact IH|].
    destruct Hhd; constructor. assumption.
Qed.

Lemma handler_history_event (companyId : string) (a : AuditLog) :
  scoreRoutes.history_event companyId a ->
  handler_audit_row a ->
  action a = "kyc_verified" \/ action a = "financials_linked".
Proof.
  intros [Hres Hact] Hrow.
  destruct Hrow as [[H _] | [[H _] | [[H _] | [[H [i Hi]] | [H [i Hi]]]]]].
  - left. exact H.
  - right. exact H.
  - rewrite H in Hact. destruct Hact as [Ha | [Ha | Ha]]; discriminate.
  - rewrite Hres in Hi. simpl in Hi. discriminate.
  - rewrite Hres in Hi. simpl in Hi. discriminate.
Qed.

(** X16. Uploads never show in the history: the upload handler files its
    audit row under "Document:<id>" while the history reads the rows filed
    under "Company:<id>".  So on a log written by the handlers, after any
    sequence of requests, every history entry is a kyc_verified or a
    financials_linked event, with change 30 or 20. *)
Theorem score_history_ignores_uploads (requests : list (Env * Mutation)) (st : State)
    (companyId : string) :
  Forall handler_audit_row (auditLog st) ->
  Forall (fun e => (scoreRoutes.event e = "kyc_verified" /\ scoreRoutes.change e = 30)
                   \/ (scoreRoutes.event e = "financials_linked"
                       /\ scoreRoutes.change e = 20))
    (scoreRoutes.getScoreHistory companyId (run requests st)).
Proof.
  intros Hold.
  destruct (run_audit requests st) as (new & E & Hnew).
  assert (Forall handler_audit_row (auditLog (run requests st))) as Hall
    by (rewrite E; apply Forall_app; split; assumption).
  unfold scoreRoutes.getScoreHistory. cbv zeta.
  set (evs := merge_sort _ _).
  assert (Forall (fun a => action a = "kyc_verified" \/ action a = "financials_linked") evs)
    as Hevs.
  { subst evs. rewrite merge_sort_Permutation.
    apply Forall_forall. intros a Ha. apply list_elem_of_filter in Ha.
    destruct Ha as [Hev Hin]. apply (handler_history_event companyId a Hev).
    rewrite Forall_forall in Hall. apply Hall, Hin. }
  clearbody evs. generalize 0. 
  induction Hevs as [|a rest Ha _ IH]; intros currentScore; [constructor|].
  simpl. rewrite history_loop_app. apply Forall_app. split; [|apply IH].
  constructor; [|constructor]. cbn [scoreRoutes.event scoreRoutes.change].
  destruct Ha as [Ha|Ha]; rewrite Ha; [left | right]; split; reflexivity.
Qed.

Lemma score_history_ignores_uploads_witness :
  scoreRoutes.getScoreHistory "c-1"
    (run [(sample_env, UploadDocument upload_request);
          (sample_env, VerifyKyc verify_request);
          (sample_env, UploadDocument upload_request)] sample_state)
  = [scoreRoutes.mkEntry 1 30 "kyc_verified" 30]
  /\ Forall (fun e => (scoreRoutes.event e = "kyc_verified" /\ scoreRoutes.change e = 30)
                      \/ (scoreRoutes.event e = "financials_linked"
                          /\ scoreRoutes.change e = 20))
       (scoreRoutes.getScoreHistory "c-1"
          (run [(sample_env, UploadDocument upload_request);
                (sample_env, VerifyKyc verify_request);
                (sample_env, UploadDocument upload_request)] sample_state)).
Proof.
  split.
  - vm_compute. reflexivity.
  - apply (score_history_ignores_uploads
             [(sample_env, UploadDocument upload_request);
              (sample_env, VerifyKyc verify_request);
              (sample_env, UploadDocument upload_request)] sample_state "c-1").
    simpl. constructor.
Defined.

(** ** The read routes *)

(** X17. The three GET routes of the score never change the state; they
    answer 404 for an unknown company and otherwise 200 with exactly what
    the service computes, never 500; the breakdown's [documentCount] is the
    count the documentsUploaded component is computed from. *)
Theorem read_routes_read_only (companyId : string) (st : State) :
  (company st !! companyId = None ->
   scoreRoutes.get_score companyId st =
     (Ok (scoreRoutes.mkReadReply 404 (scoreRoutes.RError "Company not found")), st)
   /\ scoreRoutes.get_recommendations companyId st =
        (Ok (scoreRoutes.mkReadReply 404 (scoreRoutes.RError "Company not found")), st)
   /\ scoreRoutes.get_breakdown companyId st =
        (Ok (scoreRoutes.mkReadReply 404 (scoreRoutes.RError "Company not found")), st))
  /\ (forall c, company st !! companyId = Some c ->
        exists s l info,
          calculateScore companyId st = Ok s
          /\ getRecommendations companyId st = Ok l
          /\ scoreRoutes.get_score companyId st =
               (Ok (scoreRoutes.mkReadReply 200 (scoreRoutes.RScore s)), st)
          /\ scoreRoutes.get_recommendations companyId st =
               (Ok (scoreRoutes.mkReadReply 200 (scoreRoutes.RRecommendations l)), st)
          /\ scoreRoutes.get_breakdown companyId st =
               (Ok (scoreRoutes.mkReadReply 200
                      (scoreRoutes.RBreakdown s l
                         (scoreRoutes.getScoreHistory companyId st) info)), st)
          /\ scoreRoutes.documentCount info
             = Z.of_nat (length (documents_of st companyId))
          /\ Breakdown.documentsUploaded (breakdown s)
             = Z.min (scoreRoutes.documentCount info * 5) 25
          /\ scoreRoutes.info_revenue info = revenue c).
Proof.
  split.
  - intros H.
    unfold scoreRoutes.get_score, scoreRoutes.get_recommendations,
      scoreRoutes.get_breakdown, try_catch, bind, gets, company_findUnique_with_documents.
    rewrite db_company_findUnique_eq, H. repeat split; reflexivity.
  - intros c H.
    destruct (getRecommendations_found st companyId c H) as (l & Hl).
    pose proof (calculateScore_uncapped st companyId c H) as Hs.
    do 3 eexists. split; [exact Hs|]. split; [exact Hl|].
    unfold scoreRoutes.get_score, scoreRoutes.get_recommendations,
      scoreRoutes.get_breakdown, try_catch, bind, gets, query,
      company_findUnique_with_documents.
    rewrite db_company_findUnique_eq, H, Hs, Hl.
    repeat split; reflexivity.
Qed.

Lemma read_routes_read_only_witness :
  scoreRoutes.get_score "c-2" sample_state =
    (Ok (scoreRoutes.mkReadReply 404 (scoreRoutes.RError "Company not found")), sample_state)
  /\ exists s,
       calculateScore "c-1" sample_state = Ok s
       /\ scoreRoutes.get_score "c-1" sample_state =
            (Ok (scoreRoutes.mkReadReply 200 (scoreRoutes.RScore s)), sample_state).
Proof.
  split.
  - apply (proj1 (read_routes_read_only "c-2" sample_state)). reflexivity.
  - destruct (proj2 (read_routes_read_only "c-1" sample_state) sample_company)
      as (s & l & info & Hs & _ & Hr & _).
    + reflexivity.
    + exists s. split; assumption.
Defined.

(** ** Where the revenue points fall *)

(** The exact product at the 25 revenues where it is a half, and what the
    code makes of each: all go up, except 580,000. *)
Lemma half_point_table (k : Z) :
  1 <= k <= 25 ->
  Math_round (fmul (fdiv (inject_Z (40000 * k - 20000)) 1000000) 25)
  = if k =? 15 then 14 else k.
Proof.
  intros H.
  assert (k = 1 \/ k = 2 \/ k = 3 \/ k = 4 \/ k = 5 \/ k = 6 \/ k = 7 \/ k = 8 \/ k = 9
          \/ k = 10 \/ k = 11 \/ k = 12 \/ k = 13 \/ k = 14 \/ k = 15 \/ k = 16
          \/ k = 17 \/ k = 18 \/ k = 19 \/ k = 20 \/ k = 21 \/ k = 22 \/ k = 23
          \/ k = 24 \/ k = 25) as D by lia.
  repeat (destruct D as [-> | D]; [vm_compute; reflexivity|]).
  subst k. vm_compute. reflexivity.
Qed.

Lemma revenue_term_whole (revenue : Q) (n : Z) :
  (revenue == inject_Z n)%Q -> n < 1000000 ->
  revenue_term revenue = (n + 20000) / 40000.
Proof.
  intros Hn Hlt. unfold revenue_term, Math_round.
  rewrite (Zdiv_Qdiv (n + 20000) 40000). apply Qfloor_comp.
  assert (revenue < 1000000)%Q as Hr.
  { rewrite Hn. change 1000000%Q with (inject_Z 1000000). rewrite <- Zlt_Qlt. exact Hlt. }
  assert (Qmin revenue 1000000 == revenue)%Q as -> by (apply Q.min_l; lra).
  rewrite Hn, inject_Z_plus. unfold Qdiv.
  change (/ 1000000)%Q with (1 # 1000000)%Q.
  change (/ inject_Z 40000)%Q with (1 # 40000)%Q.
  change (inject_Z 20000) with 20000%Q. ring.
Qed.

Lemma calculateRevenueScore_whole (revenue : Double.t) (n : Z) :
  (revenue == inject_Z n)%Q -> 0 <= n < 1000000 ->
  calculateRevenueScore revenue = (if n =? 580000 then 14 else (n + 20000) / 40000).
Proof.
  intros Hn [H0 H1].
  assert (revenue < 1000000)%Q as Hr.
  { rewrite Hn. change 1000000%Q with (inject_Z 1000000). rewrite <- Zlt_Qlt. exact H1. }
  assert (0 <= revenue)%Q as Hr0.
  { rewrite Hn. change 0%Q with (inject_Z 0). rewrite <- Zle_Qle. exact H0. }
  pose proof (Z.div_mod (n + 20000) 40000 ltac:(lia)) as Hdm.
  pose proof (Z.mod_pos_bound (n + 20000) 40000 ltac:(lia)) as Hmod.
  remember ((n + 20000) / 40000) as k eqn:Ek.
  remember ((n + 20000) mod 40000) as rho eqn:Erho.
  destruct (Z.eq_dec rho 0) as [Ez|Nz].
  - assert (n = 40000 * k - 20000) as En by lia.
    assert (1 <= k <= 25) as Hk by lia.
    destruct (calculateRevenueScore_cases revenue) as [[H _] | [_ E]]; [lra|].
    rewrite E, (Math_round_comp _ _ (product_comp _ _ Hn)), En.
    rewrite (half_point_table k Hk).
    destruct (Z.eqb_spec k 15), (Z.eqb_spec (40000 * k - 20000) 580000);
      first [reflexivity | lia].
  - destruct (Z.eqb_spec n 580000) as [E58 | _];
      [rewrite E58 in Erho; vm_compute in Erho; lia|].
    apply (calculateRevenueScore_away_from_half revenue k); [split; lra|].
    assert (inject_Z n == inject_Z k * 40000 + inject_Z rho - 20000)%Q as EQ.
    { replace n with (k * 40000 + rho - 20000) by lia.
      unfold Zminus. rewrite !inject_Z_plus, inject_Z_mult. reflexivity. }
    assert (1 <= inject_Z rho <= 39999)%Q as [R1 R2].
    { change 1%Q with (inject_Z 1). change 39999%Q with (inject_Z 39999).
      rewrite <- !Zle_Qle. lia. }
    rewrite Hn, EQ. set (q := inject_Z k) in *. set (t := inject_Z rho) in *.
    split; lra.
Qed.

(** X18. For a whole-dollar revenue from 0 to 999,999 the revenue score is
    (revenue + 20,000) div 40,000, which is the exact product rounded half
    up, with one exception: at 580,000 the double product falls just below
    14.5 and the score is 14, not 15. *)
Theorem revenue_score_whole_dollars (revenue : Double.t) (n : Z) :
  (revenue == inject_Z n)%Q -> 0 <= n < 1000000 ->
  calculateRevenueScore revenue = (if n =? 580000 then 14 else (n + 20000) / 40000)
  /\ revenue_term revenue = (n + 20000) / 40000.
Proof.
  intros Hn Hr. split.
  - apply calculateRevenueScore_whole; assumption.
  - apply revenue_term_whole; [exact Hn | lia].
Qed.

Lemma revenue_score_whole_dollars_witness :
  (calculateRevenueScore whole_580000 = 14 /\ revenue_term whole_580000 = 15)
  /\ (calculateRevenueScore whole_500000 = 13 /\ revenue_term whole_500000 = 13).
Proof.
  split.
  - apply (revenue_score_whole_dollars whole_580000 580000).
    + apply Qeq_bool_eq. vm_compute. reflexivity.
    + lia.
  - apply (revenue_score_whole_dollars whole_500000 500000).
    + apply Qeq_bool_eq. vm_compute. reflexivity.
    + lia.
Defined.

(** The doubles just below 980,000 are 2^-33 apart. *)
Lemma double_below_980000 (d : Double.t) :
  (d < 980000)%Q -> (d <= 980000 - (1 # 2 ^ 33))%Q.
Proof.
  destruct d as [m e ok]. unfold Double.value. cbn [Double.mantissa Double.exponent].
  unfold double_ok in ok. apply andb_prop in ok as [ok Hhi]. apply andb_prop in ok as [Hm Hlo].
  apply Z.ltb_lt in Hm. apply Z.leb_le in Hlo. apply Z.leb_le in Hhi.
  change (1 # 2 ^ 33)%Q with (1 # 8589934592)%Q.
  intros Hlt.
  destruct (Z_le_gt_dec (-33) e) as [He|He].
  - assert (2 ^ e == inject_Z (2 ^ (e + 33)) * (1 # 8589934592))%Q as Ep.
    { replace e with ((e + 33) + (-33)) at 1 by lia.
      rewrite Qpower_plus by discriminate.
      rewrite Zpower_Qpower by lia. reflexivity. }
    rewrite Ep in *. rewrite Qmult_assoc, <- inject_Z_mult in *.
    set (N := m * 2 ^ (e + 33)) in *.
    assert (inject_Z N < inject_Z 8418135900160000)%Q as HN
      by (change (inject_Z 8418135900160000) with 8418135900160000%Q; lra).
    rewrite <- Zlt_Qlt in HN.
    assert (inject_Z N <= inject_Z 8418135900159999)%Q as HN'
      by (rewrite <- Zle_Qle; lia).
    change (inject_Z 8418135900159999) with 8418135900159999%Q in HN'. lra.
  - destruct (Z_le_gt_dec m 0) as [Hm0|Hm0].
    + assert (inject_Z m * 2 ^ e <= 0)%Q.
      { assert (0 <= (- inject_Z m) * 2 ^ e)%Q.
        { apply Qmult_le_0_compat.
          - rewrite <- inject_Z_opp. change 0%Q with (inject_Z 0). rewrite <- Zle_Qle. lia.
          - apply Qlt_le_weak, Qpower_0_lt. reflexivity. }
        lra. }
      lra.
    + assert (2 ^ e <= 2 ^ (-34))%Q as Hp by (apply Qpower_le_compat_l; [lia | discriminate]).
      assert (0 < 2 ^ e)%Q as Hpos by (apply Qpower_0_lt; reflexivity).
      assert (inject_Z m <= inject_Z (2 ^ 53))%Q as Hmq by (rewrite <- Zle_Qle; lia).
      assert (0 <= inject_Z m)%Q as Hm1
        by (change 0%Q with (inject_Z 0); rewrite <- Zle_Qle; lia).
      assert (inject_Z m * 2 ^ e <= inject_Z (2 ^ 53) * 2 ^ (-34))%Q as Hb.
      { eapply Qle_trans; [apply Qmult_le_compat_r; [exact Hmq | lra]|].
        apply Qmult_le_l; [reflexivity | exact Hp]. }
      assert (inject_Z (2 ^ 53) * 2 ^ (-34) == 524288)%Q as E19 by reflexivity.
      lra.
Qed.

Lemma calculateRevenueScore_25 (revenue : Double.t) :
  calculateRevenueScore revenue = 25 <-> (980000 <= revenue)%Q.
Proof.
  pose proof (calculateRevenueScore_le_25 revenue) as Hle.
  split.
  - intros E25.
    destruct (Qlt_le_dec revenue 980000) as [Hlt|Hge]; [|exact Hge].
    pose proof (double_below_980000 revenue Hlt) as Hb.
    assert (revenue <= below_980000)%Q as Hp.
    { assert (below_980000 == 980000 - (1 # 2 ^ 33))%Q as ->
        by (apply Qeq_bool_eq; vm_compute; reflexivity).
      exact Hb. }
    pose proof (calculateRevenueScore_mono _ _ Hp) as Hm.
    assert (calculateRevenueScore below_980000 = 24) as E24 by (vm_compute; reflexivity).
    lia.
  - intros Hge.
    assert (whole_980000 <= revenue)%Q as Hp.
    { assert (whole_980000 == 980000)%Q as ->
        by (apply Qeq_bool_eq; vm_compute; reflexivity).
      exact Hge. }
    pose proof (calculateRevenueScore_mono _ _ Hp) as Hm.
    assert (calculateRevenueScore whole_980000 = 25) as E25
      by (vm_compute; reflexivity).
    lia.
Qed.

(** X19. The score is 100 exactly when the company is KYC-verified, has its
    financials linked, has at least five documents and a revenue of at least
    980,000. *)
Theorem maximum_score_iff (st : State) (companyId : string) (c : Company) :
  company st !! companyId = Some c ->
  exists s,
    calculateScore companyId st = Ok s
    /\ (score s = 100
        <-> kycVerified c = true /\ financialsLinked c = true
            /\ (5 <= length (documents_of st companyId))%nat
            /\ (980000 <= revenue c)%Q).
Proof.
  intros H. rewrite (calculateScore_uncapped st companyId c H).
  eexists. split; [reflexivity|]. cbn [score].
  pose proof (calculateRevenueScore_le_25 (revenue c)) as Hle.
  pose proof (calculateRevenueScore_25 (revenue c)) as H25.
  split.
  - intros Hs.
    destruct (kycVerified c), (financialsLinked c); try lia.
    assert (calculateRevenueScore (revenue c) = 25) as Hr by lia.
    repeat split; try reflexivity; [lia | apply H25, Hr].
  - intros (Hk & Hf & Hd & Hr). rewrite Hk, Hf.
    apply H25 in Hr. rewrite Hr. lia.
Qed.

Lemma maximum_score_iff_witness :
  exists s, calculateScore "c-1" optimized_state = Ok s /\ score s = 100.
Proof.
  destruct (maximum_score_iff optimized_state "c-1" optimized_company eq_refl)
    as (s & Hs & Hiff).
  exists s. split; [exact Hs|]. apply Hiff.
  split; [reflexivity|]. split; [reflexivity|]. split.
  - simpl. lia.
  - unfold Qle. simpl. lia.
Defined.

(** X20. An empty recommendation list means the score is 100, but not the
    other way round: with everything else in place and a revenue from
    980,000 up to, not including, 1,000,000 the score is already 100 and the
    revenue recommendation is still given, alone. *)
Theorem recommendations_and_maximum (st : State) (companyId : string) (c : Company) :
  company st !! companyId = Some c ->
  exists s l,
    calculateScore companyId st = Ok s
    /\ getRecommendations companyId st = Ok l
    /\ (l = [] -> score s = 100)
    /\ (kycVerified c = true -> financialsLinked c = true ->
        (5 <= length (documents_of st companyId))%nat ->
        (980000 <= revenue c < 1000000)%Q ->
        score s = 100
        /\ l = ["As your revenue grows, your score will automatically improve"]).
Proof.
  intros H. rewrite (calculateScore_uncapped st companyId c H).
  unfold getRecommendations, company_findUnique_with_documents. rewrite H.
  do 2 eexists. split; [reflexivity|]. split; [reflexivity|]. cbn [score].
  pose proof (calculateRevenueScore_25 (revenue c)) as H25.
  unfold push. split.
  - intros Hl.
    destruct (kycVerified c), (financialsLinked c),
      (Z.ltb_spec (Z.of_nat (length (documents_of st companyId))) 5),
      (Qltb (revenue c) 1000000) eqn:E;
      try discriminate Hl.
    apply Qltb_false in E.
    assert (calculateRevenueScore (revenue c) = 25) as Hr by (apply H25; lra).
    rewrite Hr. lia.
  - intros Hk Hf Hd [Hlo Hhi]. rewrite Hk, Hf.
    assert (calculateRevenueScore (revenue c) = 25) as Hr by (apply H25; exact Hlo).
    rewrite Hr. split; [lia|].
    assert ((Z.of_nat (length (documents_of st companyId)) <? 5) = false) as E5
      by (apply Z.ltb_ge; lia).
    assert (Qltb (revenue c) 1000000 = true) as E by (apply Qltb_true; exact Hhi).
    rewrite E5, E. reflexivity.
Qed.

Lemma recommendations_and_maximum_witness :
  exists s l,
    calculateScore "c-1"
      (fixture (with_flags true true
                  {| company_userId := "u-1"; company_name := "Test Company";
                     sector := "Technology"; targetRaise := whole_1000000; revenue := whole_990000;
                     kycVerified := true; financialsLinked := true;
                     company_createdAt := 0; company_updatedAt := 0 |}) 5) = Ok s
    /\ getRecommendations "c-1"
         (fixture (with_flags true true
                     {| company_userId := "u-1"; company_name := "Test Company";
                        sector := "Technology"; targetRaise := whole_1000000; revenue := whole_990000;
                        kycVerified := true; financialsLinked := true;
                        company_createdAt := 0; company_updatedAt := 0 |}) 5) = Ok l
    /\ score s = 100
    /\ l = ["As your revenue grows, your score will automatically improve"].
Proof.
  destruct (recommendations_and_maximum
              (fixture (with_flags true true
                  {| company_userId := "u-1"; company_name := "Test Company";
                     sector := "Technology"; targetRaise := whole_1000000; revenue := whole_990000;
                     kycVerified := true; financialsLinked := true;
                     company_createdAt := 0; company_updatedAt := 0 |}) 5)
              "c-1" _ eq_refl) as (s & l & Hs & Hl & _ & Hband).
  exists s, l. split; [exact Hs|]. split; [exact Hl|].
  apply Hband.
  - reflexivity.
  - reflexivity.
  - simpl. lia.
  - split; [unfold Qle | unfold Qlt]; simpl; lia.
Defined.

(** ** Notifications: reading, deleting, counting *)

Lemma set_notification_same (st : State) (l : list Notification) :
  l = notification st -> set_notification (fun _ => l) st = st.
Proof. intros ->. destruct st. reflexivity. Qed.

Lemma updateMany_run (cond : Notification -> Prop) `{forall n, Decision (cond n)}
    (env : Env) (st : State) :
  NotificationService.updateMany cond env st =
    (Ok tt,
     set_notification
       (map (fun n => if decide (cond n) then NotificationService.set_readAt env n else n))
       st).
Proof. reflexivity. Qed.

Lemma map_unmatched {A} (f : A -> A) (l : list A) :
  Forall (fun x => f x = x) l -> map f l = l.
Proof.
  intros H. induction H as [|x l Hx _ IH]; [reflexivity|].
  simpl. rewrite Hx, IH. reflexivity.
Qed.

Lemma filter_map_other {A} (P : A -> Prop) `{forall x, Decision (P x)} (f : A -> A)
    (l : list A) :
  (forall x, f x = x \/ (~ P x /\ ~ P (f x))) ->
  filter P (map f l) = filter P l.
Proof.
  intros Hf. induction l as [|x l IH]; [reflexivity|].
  simpl. rewrite !filter_cons, IH.
  destruct (Hf x) as [E | [Hn Hn']].
  - rewrite E. reflexivity.
  - destruct (decide (P (f x))), (decide (P x)); try contradiction. reflexivity.
Qed.

(** X21. Reading and deleting are per user: [markAsRead], [markAllAsRead] and
    [delete] called for one user leave the notifications of every other user
    exactly as they were, and so their unread counts; in particular asking
    for a notification id that belongs to somebody else changes nothing. *)
Theorem notifications_are_per_user (env : Env) (userId other : string)
    (notificationId : string) (st : State) :
  other <> userId ->
  notifications_of other (snd (NotificationService.markAsRead env notificationId userId st))
  = notifications_of other st
  /\ notifications_of other (snd (NotificationService.markAllAsRead env userId st))
     = notifications_of other st
  /\ notifications_of other (snd (NotificationService.delete notificationId userId st))
     = notifications_of other st
  /\ NotificationService.getUnreadCount other
       (snd (NotificationService.markAllAsRead env userId st))
     = NotificationService.getUnreadCount other st
  /\ (Forall (fun n => ntf_id n = notificationId -> ntf_userId n <> userId)
        (notification st) ->
      NotificationService.markAsRead env notificationId userId st = (Ok tt, st)
      /\ NotificationService.delete notificationId userId st = (Ok tt, st)).
Proof.
  intros Hne. unfold notifications_of, NotificationService.getUnreadCount.
  unfold NotificationService.markAsRead, NotificationService.markAllAsRead.
  rewrite !updateMany_run. cbn [snd notification set_notification].
  split; [|split; [|split; [|split]]].
  - apply filter_map_other. intros n.
    destruct (decide (ntf_id n = notificationId /\ ntf_userId n = userId)) as [[_ Hu]|];
      [right | left; reflexivity].
    cbn [NotificationService.set_readAt ntf_userId]. split; congruence.
  - apply filter_map_other. intros n.
    destruct (decide (ntf_userId n = userId /\ readAt n = None)) as [[Hu _]|];
      [right | left; reflexivity].
    cbn [NotificationService.set_readAt ntf_userId]. split; congruence.
  - unfold NotificationService.delete, modify. cbn [snd notification set_notification].
    induction (notification st) as [|n l IH]; [reflexivity|].
    rewrite (filter_cons (fun n => ~ _)).
    destruct (decide (~ (ntf_id n = notificationId /\ ntf_userId n = userId))) as [Hk|Hk].
    + rewrite !(filter_cons (fun n => ntf_userId n = other)), IH. reflexivity.
    + rewrite (filter_cons (fun n => ntf_userId n = other)), IH.
      destruct (decide (ntf_userId n = other)) as [Ho|]; [|reflexivity].
      exfalso. apply Hk. intros [_ Hu]. congruence.
  - f_equal. f_equal. apply filter_map_other. intros n.
    destruct (decide (ntf_userId n = userId /\ readAt n = None)) as [[Hu _]|];
      [right | left; reflexivity].
    cbn [NotificationService.set_readAt ntf_userId]. split; intros [Ho _]; congruence.
  - intros Hall. split.
    + f_equal. rewrite <- (set_notification_same st (notification st) eq_refl) at 2.
      destruct st as [cs ds ns al cl]. unfold set_notification. cbn. f_equal.
      apply map_unmatched. eapply Forall_impl; [exact Hall|].
      intros n Hn. cbn beta.
      destruct (decide (ntf_id n = notificationId /\ ntf_userId n = userId)) as [[Hi Hu]|];
        [|reflexivity].
      exfalso. apply (Hn Hi Hu).
    + unfold NotificationService.delete, modify. f_equal.
      destruct st as [cs ds ns al cl]. unfold set_notification. cbn. f_equal.
      cbn in Hall. induction Hall as [|n l Hn _ IH]; [reflexivity|].
      rewrite filter_cons.
      destruct (decide (~ (ntf_id n = notificationId /\ ntf_userId n = userId))) as [Hk|Hk].
      * rewrite IH. reflexivity.
      * exfalso. apply Hk. intros [Hi Hu]. apply (Hn Hi Hu).
Qed.

Lemma notifications_are_per_user_witness :
  notifications_of "u-2" (snd (NotificationService.markAllAsRead sample_env "u-1" inbox_state))
  = notifications_of "u-2" inbox_state
  /\ NotificationService.markAsRead sample_env "n-3" "u-1" inbox_state = (Ok tt, inbox_state)
  /\ NotificationService.delete "n-3" "u-1" inbox_state = (Ok tt, inbox_state).
Proof.
  destruct (notifications_are_per_user sample_env "u-1" "u-2" "n-3" inbox_state)
    as (_ & Hall & _ & _ & Hown).
  - discriminate.
  - split; [exact Hall|]. apply Hown.
    simpl. repeat constructor; simpl; intros; discriminate.
Defined.

Lemma filter_map_none {A} (P : A -> Prop) `{forall x, Decision (P x)} (f : A -> A)
    (l : list A) :
  (forall x, ~ P (f x)) -> filter P (map f l) = [].
Proof.
  intros Hf. induction l as [|x l IH]; [reflexivity|].
  simpl. rewrite filter_cons, IH.
  destruct (decide (P (f x))); [exfalso; eapply Hf; eassumption | reflexivity].
Qed.

(** X22. After [markAllAsRead] the user's unread count is 0; no row is added
    or removed; rows that were already read keep their [readAt]; and the
    rows of that user that were unread now carry the time of the call. *)
Theorem markAllAsRead_clears (env : Env) (userId : string) (st : State) :
  NotificationService.getUnreadCount userId
    (snd (NotificationService.markAllAsRead env userId st)) = 0
  /\ map ntf_id (notification (snd (NotificationService.markAllAsRead env userId st)))
     = map ntf_id (notification st)
  /\ Forall2 (fun n n' =>
               if decide (ntf_userId n = userId /\ readAt n = None)
               then n' = NotificationService.set_readAt env n
               else n' = n)
       (notification st)
       (notification (snd (NotificationService.markAllAsRead env userId st))).
Proof.
  unfold NotificationService.getUnreadCount, NotificationService.markAllAsRead.
  rewrite updateMany_run. cbn [snd notification set_notification].
  split; [|split].
  - rewrite filter_map_none; [reflexivity|].
    intros n.
    destruct (decide (ntf_userId n = userId /\ readAt n = None)) as [Hm|Hm].
    + cbn [NotificationService.set_readAt ntf_userId readAt]. intros [_ Hr]. discriminate.
    + exact Hm.
  - rewrite map_map. apply map_ext. intros n.
    destruct (decide (ntf_userId n = userId /\ readAt n = None)); reflexivity.
  - induction (notification st) as [|n l IH]; [constructor|].
    simpl. constructor; [|exact IH].
    destruct (decide (ntf_userId n = userId /\ readAt n = None)); reflexivity.
Qed.

(** X23. [markAsRead] stamps every row with that id and that user with the
    time of the call, also a row that was read before (its [readAt] is
    overwritten); the user's unread count never grows and no row is added or
    removed. *)
Theorem markAsRead_stamps (env : Env) (notificationId userId : string) (st : State) :
  let st' := snd (NotificationService.markAsRead env notificationId userId st) in
  Forall (fun n => ntf_id n = notificationId -> ntf_userId n = userId ->
                   readAt n = Some (now env))
    (notification st')
  /\ map ntf_id (notification st') = map ntf_id (notification st)
  /\ NotificationService.getUnreadCount userId st'
     <= NotificationService.getUnreadCount userId st.
Proof.
  unfold NotificationService.getUnreadCount, NotificationService.markAsRead.
  rewrite updateMany_run. cbn [snd notification set_notification].
  split; [|split].
  - apply Forall_forall. intros n' Hin. apply list_elem_of_fmap in Hin.
    destruct Hin as (n & -> & _).
    destruct (decide (ntf_id n = notificationId /\ ntf_userId n = userId)) as [Hm|Hm].
    + intros _ _. reflexivity.
    + intros Hi Hu. exfalso. apply Hm. split; assumption.
  - rewrite map_map. apply map_ext. intros n.
    destruct (decide (ntf_id n = notificationId /\ ntf_userId n = userId)); reflexivity.
  - apply inj_le.
    induction (notification st) as [|n l IH]; [reflexivity|].
    simpl. rewrite !filter_cons.
    destruct (decide (ntf_id n = notificationId /\ ntf_userId n = userId)) as [Hm|Hm].
    + destruct (decide (ntf_userId (NotificationService.set_readAt env n) = userId
                        /\ readAt (NotificationService.set_readAt env n) = None))
        as [[_ Hr]|_]; [discriminate Hr|].
      destruct (decide (ntf_userId n = userId /\ readAt n = None)); simpl; lia.
    + destruct (decide (ntf_userId n = userId /\ readAt n = None)); simpl; lia.
Qed.

Lemma markAsRead_stamps_witness :
  Forall (fun n => ntf_id n = "n-2" -> ntf_userId n = "u-1" -> readAt n = Some 1)
    (notification (snd (NotificationService.markAsRead sample_env "n-2" "u-1" inbox_state))).
Proof.
  apply (markAsRead_stamps sample_env "n-2" "u-1" inbox_state).
Defined.

(** X24. A notification written by [create] is unread: the unread count of
    its user grows by one, the count of every other user is unchanged, and
    the row is appended after the existing ones. *)
Theorem create_is_unread (env : Env) (userId : string) (type : NotificationType)
    (msg : string) (ttl : option string) (d : option JsObject) (st : State) :
  let st' := snd (NotificationService.create env userId type msg ttl d st) in
  notification st' = (notification st ++ [new_notification env userId type msg ttl d])%list
  /\ NotificationService.getUnreadCount userId st'
     = NotificationService.getUnreadCount userId st + 1
  /\ (forall other, other <> userId ->
        NotificationService.getUnreadCount other st'
        = NotificationService.getUnreadCount other st).
Proof.
  unfold NotificationService.getUnreadCount, NotificationService.create,
    db_notification_create, modify.
  cbn [snd notification set_notification].
  fold (new_notification env userId type msg ttl d).
  split; [reflexivity|]. split.
  - rewrite filter_app, length_app, filter_cons, filter_nil.
    destruct (decide (ntf_userId (new_notification env userId type msg ttl d) = userId
                      /\ readAt (new_notification env userId type msg ttl d) = None))
      as [_|Hn]; [simpl; lia|].
    exfalso. apply Hn. split; reflexivity.
  - intros other Hne.
    rewrite filter_app, length_app, filter_cons, filter_nil.
    destruct (decide (ntf_userId (new_notification env userId type msg ttl d) = other
                      /\ readAt (new_notification env userId type msg ttl d) = None))
      as [[Hu _]|_]; [|simpl; lia].
    simpl in Hu. congruence.
Qed.

Lemma create_is_unread_witness :
  NotificationService.getUnreadCount "u-2"
    (snd (NotificationService.create sample_env "u-1" info "hello" None None inbox_state))
  = NotificationService.getUnreadCount "u-2" inbox_state.
Proof.
  apply (create_is_unread sample_env "u-1" info "hello" None None inbox_state).
  discriminate.
Defined.

Lemma filter_complement_length {A} (P : A -> Prop) `{forall x, Decision (P x)}
    (l : list A) :
  (length (filter P l) + length (filter (fun x => ~ P x) l) = length l)%nat.
Proof.
  induction l as [|x l IH]; [reflexivity|].
  rewrite !filter_cons.
  destruct (decide (P x)), (decide (~ P x)); simpl; try lia; contradiction.
Qed.

(** X25. [cleanup] deletes exactly the notifications that are both read and
    older than the cut-off, whatever the cut-off: an unread notification is
    never deleted, nor one created at or after the cut-off; what stays keeps
    its order; and the number returned is the number of rows removed. *)
Theorem cleanup_keeps_unread (setDate_back : Z -> Z -> Z) (env : Env)
    (olderThanDays : option Z) (st : State) :
  exists count st',
    NotificationService.cleanup setDate_back env olderThanDays st = (Ok count, st')
    /\ count = Z.of_nat (length (notification st)) - Z.of_nat (length (notification st'))
    /\ (forall n, In n (notification st') <->
                  In n (notification st)
                  /\ (readAt n = None
                      \/ setDate_back (now env) (default 30 olderThanDays)
                         <= ntf_createdAt n))
    /\ (forall userId, NotificationService.getUnreadCount userId st'
                       = NotificationService.getUnreadCount userId st)
    /\ company st' = company st /\ document st' = document st
    /\ auditLog st' = auditLog st.
Proof.
  unfold NotificationService.cleanup. cbv zeta.
  set (cutoff := setDate_back (now env) (default 30 olderThanDays)).
  do 2 eexists. split; [reflexivity|].
  cbn [notification set_notification company document auditLog].
  split; [|split; [|split; [|repeat split]]].
  - pose proof (filter_complement_length
                  (fun n => ntf_createdAt n < cutoff /\ readAt n <> None) (notification st)).
    lia.
  - intros n. rewrite <- !list_elem_of_In, list_elem_of_filter.
    split.
    + intros [Hk Hin]. split; [exact Hin|].
      destruct (readAt n) as [t|] eqn:Hr; [|left; reflexivity].
      right. destruct (Z_lt_le_dec (ntf_createdAt n) cutoff) as [Hlt|Hge]; [|exact Hge].
      exfalso. apply Hk. split; [exact Hlt | discriminate].
    + intros [Hin Hkeep]. split; [|exact Hin].
      intros [Hlt Hr]. destruct Hkeep as [Hu|Hge]; [contradiction | lia].
  - intros userId. unfold NotificationService.getUnreadCount.
    cbn [notification set_notification]. f_equal. f_equal.
    induction (notification st) as [|n l IH]; [reflexivity|].
    rewrite (filter_cons (fun n => ~ _)).
    destruct (decide (~ (ntf_createdAt n < cutoff /\ readAt n <> None))) as [Hk|Hk].
    + rewrite !(filter_cons (fun n => ntf_userId n = userId /\ _)), IH. reflexivity.
    + rewrite (filter_cons (fun n => ntf_userId n = userId /\ _)), IH.
      destruct (decide (ntf_userId n = userId /\ readAt n = None)) as [[_ Hr]|];
        [|reflexivity].
      exfalso. apply Hk. intros [_ Hnr]. contradiction.
Qed.

Lemma cleanup_keeps_unread_witness :
  exists count st',
    NotificationService.cleanup (fun now days => now - days * 86400000)
      sample_env None inbox_state = (Ok count, st')
    /\ In (sample_notification "n-1" "u-1" 10 None) (notification st').
Proof.
  destruct (cleanup_keeps_unread (fun now days => now - days * 86400000)
              sample_env None inbox_state)
    as (count & st' & Hr & _ & Hin & _).
  exists count, st'. split; [exact Hr|].
  apply Hin. split; [left; reflexivity | left; reflexivity].
Defined.

(** ** Listing notifications *)

#[local] Instance newest_first_total : Total NotificationService.newest_first.
Proof. intros a b. unfold NotificationService.newest_first. lia. Qed.

#[local] Instance newest_first_trans : Transitive NotificationService.newest_first.
Proof. intros a b c. unfold NotificationService.newest_first. lia. Qed.

Lemma StronglySorted_take {A} (R : A -> A -> Prop) (n : nat) (l : list A) :
  StronglySorted R l -> StronglySorted R (take n l).
Proof.
  intros H. revert n. induction H as [|x l _ IH Hx]; intros [|n]; simpl; try constructor.
  - apply IH.
  - apply Forall_take. exact Hx.
Qed.

Lemma StronglySorted_drop {A} (R : A -> A -> Prop) (n : nat) (l : list A) :
  StronglySorted R l -> StronglySorted R (drop n l).
Proof.
  intros H. revert n. induction H as [|x l Hl IH Hx]; intros [|n]; simpl;
    try constructor; try assumption.
  apply IH.
Qed.

(** Two orders a store may use: a merge sort of the rows as they are stored,
    and the same sort of the rows taken backwards. *)
Lemma merge_sort_orders :
  NotificationService.orders_newest_first (merge_sort NotificationService.newest_first).
Proof.
  intros rows. split.
  - apply merge_sort_Permutation.
  - apply StronglySorted_merge_sort; apply _.
Qed.

Lemma backwards_orders :
  NotificationService.orders_newest_first
    (fun rows => merge_sort NotificationService.newest_first (reverse rows)).
Proof.
  intros rows. split.
  - rewrite merge_sort_Permutation. apply reverse_Permutation.
  - apply StronglySorted_merge_sort; apply _.
Qed.

(** X26. Whatever order the store picks among rows of equal [createdAt],
    [getForUser] returns only notifications of the user asked for, only
    unread ones when [unreadOnly] is set, at most [limit] of them (50 when no
    limit is given), newest first, each one the API form of a stored row. *)
Theorem getForUser_selection (order : list Notification -> list Notification)
    (userId : string) (options : NotificationService.Options) (st : State) :
  NotificationService.orders_newest_first order ->
  let page := NotificationService.getForUser order userId options st in
  Forall (fun a => NotificationService.api_userId a = userId) page
  /\ (NotificationService.unreadOnly options = Some true ->
      Forall (fun a => NotificationService.api_readAt a = None) page)
  /\ (length page <= default 50 (NotificationService.limit options))%nat
  /\ StronglySorted
       (fun a b => NotificationService.api_createdAt b <= NotificationService.api_createdAt a)
       page
  /\ Forall (fun a => exists n, In n (notification st)
                                /\ a = NotificationService.transformNotification n) page.
Proof.
  intros Horder. unfold NotificationService.getForUser. cbv zeta.
  set (lim := default 50%nat (NotificationService.limit options)).
  set (off := default 0%nat (NotificationService.offset options)).
  set (unread := default false (NotificationService.unreadOnly options)).
  set (rows := filter (NotificationService.selected userId unread) (notification st)).
  destruct (Horder rows) as [Hperm Hsorted].
  set (ordered := order rows) in *.
  assert (Forall (fun n => NotificationService.selected userId unread n
                           /\ In n (notification st)) ordered) as Hsel.
  { rewrite Hperm. subst rows.
    apply Forall_forall. intros n Hn. apply list_elem_of_filter in Hn.
    destruct Hn as [Hs Hin]. split; [exact Hs | apply list_elem_of_In; exact Hin]. }
  assert (Forall (fun n => NotificationService.selected userId unread n
                           /\ In n (notification st)) (take lim (drop off ordered)))
    as Hpage by (apply Forall_take, Forall_drop, Hsel).
  split; [|split; [|split; [|split]]].
  - apply Forall_fmap. eapply Forall_impl; [exact Hpage|].
    intros n [[Hu _] _]. exact Hu.
  - intros Hopt. apply Forall_fmap. eapply Forall_impl; [exact Hpage|].
    intros n [[_ Hr] _]. apply Hr. subst unread. rewrite Hopt. reflexivity.
  - rewrite length_map, length_take. lia.
  - apply (StronglySorted_fmap _ NotificationService.newest_first).
    + intros a b Hab. exact Hab.
    + apply StronglySorted_take, StronglySorted_drop. exact Hsorted.
  - apply Forall_fmap. eapply Forall_impl; [exact Hpage|].
    intros n [_ Hin]. exists n. split; [exact Hin | reflexivity].
Qed.

Lemma getForUser_selection_witness :
  Forall (fun a => NotificationService.api_readAt a = None)
    (NotificationService.getForUser (merge_sort NotificationService.newest_first) "u-1"
       (NotificationService.mkOptions None None (Some true)) inbox_state).
Proof.
  apply (getForUser_selection (merge_sort NotificationService.newest_first) "u-1"
           (NotificationService.mkOptions None None (Some true)) inbox_state).
  - exact merge_sort_orders.
  - reflexivity.
Defined.

(** Rows with pairwise distinct [createdAt] have only one order newest
    first. *)
Lemma newest_first_unique (l1 l2 rows : list Notification) :
  NoDup (map ntf_createdAt rows) ->
  l1 ≡ₚ rows -> l2 ≡ₚ rows ->
  StronglySorted NotificationService.newest_first l1 ->
  StronglySorted NotificationService.newest_first l2 ->
  l1 = l2.
Proof.
  intros Hnd H1 H2 S1 S2.
  apply (StronglySorted_unique_strong NotificationService.newest_first);
    [|exact S1 | exact S2 | rewrite H1, H2; reflexivity].
  intros x1 x2 Hx1 Hx2 R12 R21.
  apply (NoDup_map_inj ntf_createdAt rows).
  - exact Hnd.
  - apply list_elem_of_In. rewrite <- H1. exact Hx1.
  - apply list_elem_of_In. rewrite <- H2. exact Hx2.
  - unfold NotificationService.newest_first in *. lia.
Qed.

(** X27. When the selected notifications have pairwise distinct [createdAt],
    pages fit together whatever the store does in each query: the page of
    [a] rows at offset [o] followed by the page of [b] rows at offset [o + a]
    is the page of [a + b] rows at offset [o], so nothing is skipped or
    repeated between two pages while the table does not change. *)
Theorem getForUser_pages (order1 order2 order3 : list Notification -> list Notification)
    (userId : string) (o a b : nat) (unreadOnly : option bool) (st : State) :
  NotificationService.orders_newest_first order1 ->
  NotificationService.orders_newest_first order2 ->
  NotificationService.orders_newest_first order3 ->
  NoDup (map ntf_createdAt
           (filter (NotificationService.selected userId (default false unreadOnly))
              (notification st))) ->
  (NotificationService.getForUser order1 userId
     (NotificationService.mkOptions (Some a) (Some o) unreadOnly) st
   ++ NotificationService.getForUser order2 userId
        (NotificationService.mkOptions (Some b) (Some (o + a)%nat) unreadOnly) st)%list
  = NotificationService.getForUser order3 userId
      (NotificationService.mkOptions (Some (a + b)%nat) (Some o) unreadOnly) st.
Proof.
  intros H1 H2 H3 Hnd.
  unfold NotificationService.getForUser. cbv zeta.
  cbn [NotificationService.limit NotificationService.offset NotificationService.unreadOnly].
  set (rows := filter (NotificationService.selected userId (default false unreadOnly))
                 (notification st)) in *.
  destruct (H1 rows) as [P1 S1], (H2 rows) as [P2 S2], (H3 rows) as [P3 S3].
  rewrite (newest_first_unique (order1 rows) (order3 rows) rows Hnd P1 P3 S1 S3).
  rewrite (newest_first_unique (order2 rows) (order3 rows) rows Hnd P2 P3 S2 S3).
  cbn [default from_option]. unfold id.
  rewrite <- map_app. f_equal.
  rewrite <- drop_drop. apply take_take_drop.
Qed.

Lemma getForUser_pages_witness :
  (NotificationService.getForUser (merge_sort NotificationService.newest_first) "u-1"
     (NotificationService.mkOptions (Some 1%nat) (Some 0%nat) None) inbox_state
   ++ NotificationService.getForUser
        (fun rows => merge_sort NotificationService.newest_first (reverse rows)) "u-1"
        (NotificationService.mkOptions (Some 1%nat) (Some 1%nat) None) inbox_state)%list
  = NotificationService.getForUser (merge_sort NotificationService.newest_first) "u-1"
      (NotificationService.mkOptions (Some 2%nat) (Some 0%nat) None) inbox_state.
Proof.
  apply (getForUser_pages (merge_sort NotificationService.newest_first)
           (fun rows => merge_sort NotificationService.newest_first (reverse rows))
           (merge_sort NotificationService.newest_first) "u-1" 0 1 1 None inbox_state).
  - exact merge_sort_orders.
  - exact backwards_orders.
  - exact merge_sort_orders.
  - apply (bool_decide_eq_true_1 _). vm_compute. reflexivity.
Defined.

(** With equal [createdAt] the pages need not fit: for two notifications
    created at the same instant, the two orders above give a first and a
    second page of one row each that show the same row twice. *)
Example getForUser_pages_with_ties :
  NotificationService.getForUser (merge_sort NotificationService.newest_first) "u-1"
    (NotificationService.mkOptions (Some 1%nat) (Some 0%nat) None) twins_state
  = NotificationService.getForUser
      (fun rows => merge_sort NotificationService.newest_first (reverse rows)) "u-1"
      (NotificationService.mkOptions (Some 1%nat) (Some 1%nat) None) twins_state
  /\ length (NotificationService.getForUser (merge_sort NotificationService.newest_first)
               "u-1" (NotificationService.mkOptions (Some 1%nat) (Some 0%nat) None)
               twins_state) = 1%nat.
Proof. split; vm_compute; reflexivity. Qed.

(** ** Sanitizing file names *)

Lemma collapse_dots_Forall (P : N -> Prop) (s : FileService.CodeUnits) :
  Forall P s -> Forall P (FileService.collapse_dots s).
Proof.
  intros H. induction H as [|c rest Hc Hrest IH]; [constructor|].
  simpl. destruct rest as [|d rest']; [constructor; [exact Hc | constructor]|].
  destruct ((c =? FileService.dot) && (d =? FileService.dot))%N;
    [exact IH | constructor; [exact Hc | exact IH]].
Qed.

Lemma collapse_dots_length (s : FileService.CodeUnits) :
  (length (FileService.collapse_dots s) <= length s)%nat.
Proof.
  induction s as [|c rest IH]; [reflexivity|].
  simpl. destruct rest as [|d rest']; [reflexivity|].
  destruct ((c =? FileService.dot) && (d =? FileService.dot))%N; simpl in *; lia.
Qed.

Lemma collapse_dots_head (c : N) (rest : FileService.CodeUnits) :
  head (FileService.collapse_dots (c :: rest)) = Some c.
Proof.
  revert c. induction rest as [|d rest IH]; intros c; [reflexivity|].
  change (FileService.collapse_dots (c :: d :: rest))
    with (if ((c =? FileService.dot) && (d =? FileService.dot))%N
          then FileService.collapse_dots (d :: rest)
          else c :: FileService.collapse_dots (d :: rest)).
  destruct (N.eqb_spec c FileService.dot) as [Hc|Hc],
           (N.eqb_spec d FileService.dot) as [Hd|Hd]; cbn [andb]; try reflexivity.
  rewrite IH. congruence.
Qed.

Lemma collapse_dots_no_adjacent (s : FileService.CodeUnits) :
  adjacent_dots (FileService.collapse_dots s) = false.
Proof.
  induction s as [|c rest IH]; [reflexivity|].
  destruct rest as [|d rest]; [reflexivity|].
  change (FileService.collapse_dots (c :: d :: rest))
    with (if ((c =? FileService.dot) && (d =? FileService.dot))%N
          then FileService.collapse_dots (d :: rest)
          else c :: FileService.collapse_dots (d :: rest)).
  destruct ((c =? FileService.dot) && (d =? FileService.dot))%N eqn:E; [exact IH|].
  pose proof (collapse_dots_head d rest) as Hh.
  destruct (FileService.collapse_dots (d :: rest)) as [|d' l] eqn:El; [reflexivity|].
  simpl in Hh. injection Hh as ->.
  cbn [adjacent_dots]. rewrite E. exact IH.
Qed.

Lemma adjacent_dots_take (n : nat) (s : FileService.CodeUnits) :
  adjacent_dots s = false -> adjacent_dots (take n s) = false.
Proof.
  revert n. induction s as [|c rest IH]; intros n H; [destruct n; reflexivity|].
  destruct n as [|n]; [reflexivity|].
  destruct rest as [|d rest]; [destruct n; reflexivity|].
  cbn [adjacent_dots] in H. apply orb_false_iff in H. destruct H as [H1 H2].
  destruct n as [|n]; [reflexivity|].
  change (take (S (S n)) (c :: d :: rest)) with (c :: take (S n) (d :: rest)).
  specialize (IH (S n) H2).
  change (take (S n) (d :: rest)) with (d :: take n rest) in *.
  cbn [adjacent_dots]. rewrite H1. exact IH.
Qed.

Lemma collapse_dots_fixed (s : FileService.CodeUnits) :
  adjacent_dots s = false -> FileService.collapse_dots s = s.
Proof.
  induction s as [|c rest IH]; intros H; [reflexivity|].
  destruct rest as [|d rest]; [reflexivity|].
  cbn [adjacent_dots] in H. apply orb_false_iff in H. destruct H as [H1 H2].
  change (FileService.collapse_dots (c :: d :: rest))
    with (if ((c =? FileService.dot) && (d =? FileService.dot))%N
          then FileService.collapse_dots (d :: rest)
          else c :: FileService.collapse_dots (d :: rest)).
  rewrite H1, (IH H2). reflexivity.
Qed.

Lemma replace_other_safe (s : FileService.CodeUnits) :
  Forall safe_unit (FileService.replace_other s).
Proof.
  unfold FileService.replace_other. apply Forall_fmap, Forall_forall.
  intros c _. unfold safe_unit. cbn.
  destruct (FileService.name_char c) eqn:E; [left; exact E | right; reflexivity].
Qed.

Lemma replace_other_fixed (s : FileService.CodeUnits) :
  Forall safe_unit s -> FileService.replace_other s = s.
Proof.
  intros H. apply map_unmatched. eapply Forall_impl; [exact H|].
  intros c [Hc | ->]; [rewrite Hc; reflexivity | reflexivity].
Qed.

Lemma sanitizeFileName_safe (fileName : FileService.CodeUnits) :
  Forall safe_unit (FileService.sanitizeFileName fileName)
  /\ adjacent_dots (FileService.sanitizeFileName fileName) = false.
Proof.
  unfold FileService.sanitizeFileName. split.
  - apply Forall_take, collapse_dots_Forall, replace_other_safe.
  - apply adjacent_dots_take, collapse_dots_no_adjacent.
Qed.

Lemma adjacent_dots_tail (c : N) (s : FileService.CodeUnits) :
  adjacent_dots (c :: s) = false -> adjacent_dots s = false.
Proof.
  destruct s as [|d s]; [reflexivity|].
  intros H. change (((c =? FileService.dot) && (d =? FileService.dot))%N
                    || adjacent_dots (d :: s) = false) in H.
  apply orb_false_iff in H. apply H.
Qed.

Lemma adjacent_dots_spec (s l1 l2 : FileService.CodeUnits) :
  adjacent_dots s = false ->
  s <> (l1 ++ FileService.dot :: FileService.dot :: l2)%list.
Proof.
  revert s. induction l1 as [|x l1 IH]; intros s H E; subst s.
  - change (((FileService.dot =? FileService.dot) && (FileService.dot =? FileService.dot))%N
            || adjacent_dots (FileService.dot :: l2) = false) in H.
    rewrite N.eqb_refl in H. discriminate.
  - apply adjacent_dots_tail in H. apply (IH _ H). reflexivity.
Qed.

(** X28. A sanitized file name has at most 100 units and is never longer
    than the original; it is made only of letters, digits, dots, hyphens and
    underscores, so it holds no slash, backslash or NUL; and it never
    contains two dots in a row, so no ".." segment. *)
Theorem sanitizeFileName_is_safe (fileName : FileService.CodeUnits) :
  (length (FileService.sanitizeFileName fileName) <= 100)%nat
  /\ (length (FileService.sanitizeFileName fileName) <= length fileName)%nat
  /\ Forall safe_unit (FileService.sanitizeFileName fileName)
  /\ Forall (fun c => c <> 47 /\ c <> 92 /\ c <> 0)%N (FileService.sanitizeFileName fileName)
  /\ (forall l1 l2,
        FileService.sanitizeFileName fileName
        <> (l1 ++ FileService.dot :: FileService.dot :: l2)%list).
Proof.
  destruct (sanitizeFileName_safe fileName) as [Hsafe Hdots].
  split; [|split; [|split; [|split]]].
  - unfold FileService.sanitizeFileName. rewrite length_take. lia.
  - unfold FileService.sanitizeFileName. rewrite length_take.
    pose proof (collapse_dots_length (FileService.replace_other fileName)) as H.
    unfold FileService.replace_other in H at 2. rewrite length_map in H. lia.
  - exact Hsafe.
  - eapply Forall_impl; [exact Hsafe|].
    intros c [Hc | ->]; [|repeat split; discriminate].
    repeat split; intros ->; discriminate Hc.
  - intros l1 l2. apply adjacent_dots_spec, Hdots.
Qed.

(** X29. Sanitizing is idempotent: a name that has been sanitized is left as
    it is by a second pass. *)
Theorem sanitizeFileName_idempotent (fileName : FileService.CodeUnits) :
  FileService.sanitizeFileName (FileService.sanitizeFileName fileName)
  = FileService.sanitizeFileName fileName.
Proof.
  destruct (sanitizeFileName_safe fileName) as [Hsafe Hdots].
  unfold FileService.sanitizeFileName at 1.
  rewrite (replace_other_fixed _ Hsafe), (collapse_dots_fixed _ Hdots).
  unfold FileService.sanitizeFileName. rewrite take_take. f_equal.
Qed.

Example sanitizeFileName_traversal :
  FileService.sanitizeFileName (FileService.code_units "../../etc/passwd")
  = FileService.code_units "._._etc_passwd".
Proof. reflexivity. Qed.

Example sanitizeFileName_dots :
  FileService.sanitizeFileName (FileService.code_units "report....final v2.pdf")
  = FileService.code_units "report.final_v2.pdf".
Proof. reflexivity. Qed.

(** ** Removing rows whose file is gone *)

#[local] Instance on_disk_dec (env : Env) (d : Document) : Decision (on_disk env d).
Proof. unfold on_disk. apply _. Defined.

Lemma db_document_delete_existing_run (id : string) (st : State) :
  FileService.db_document_delete_existing id st =
    if bool_decide (Exists (fun d => doc_id d = id) (document st))
    then (Ok tt, set_document (fun l => filter (fun x => doc_id x <> id) l) st)
    else (Throw (Error "Record to delete does not exist."), st).
Proof.
  unfold FileService.db_document_delete_existing, bind, gets.
  destruct (bool_decide _); reflexivity.
Qed.

Lemma cleanup_loop_step (env : Env) (doc : Document) (rest : list Document)
    (deleted errors : Z) (st : State) :
  FileService.cleanup_loop env (doc :: rest) deleted errors st =
    if fs_access env (path doc) then FileService.cleanup_loop env rest deleted errors st
    else if bool_decide (Exists (fun d => doc_id d = doc_id doc) (document st))
         then FileService.cleanup_loop env rest (deleted + 1) errors
                (set_document (fun l => filter (fun x => doc_id x <> doc_id doc) l) st)
         else FileService.cleanup_loop env rest deleted (errors + 1) st.
Proof.
  cbn [FileService.cleanup_loop].
  destruct (fs_access env (path doc)); [reflexivity|].
  unfold bind at 1, try_catch, bind at 1.
  rewrite db_document_delete_existing_run.
  destruct (bool_decide _); reflexivity.
Qed.

(** Without any assumption on ids: the loop only removes rows, touches no
    other table, and leaves no row whose file is missing, provided every such
    row is still to be visited. *)
Lemma cleanup_loop_general (env : Env) (documents : list Document) (deleted errors : Z)
    (st : State) :
  (forall x, In x (document st) -> ~ on_disk env x -> In x documents) ->
  exists r st',
    FileService.cleanup_loop env documents deleted errors st = (Ok r, st')
    /\ Forall (on_disk env) (document st')
    /\ (forall x, In x (document st') -> In x (document st))
    /\ company st' = company st /\ notification st' = notification st
    /\ auditLog st' = auditLog st /\ console st' = console st.
Proof.
  revert deleted errors st.
  induction documents as [|doc rest IH]; intros deleted errors st Hinv.
  - do 2 eexists. split; [reflexivity|]. cbn [snd].
    split; [|repeat split; auto].
    apply Forall_forall. intros x Hx. apply list_elem_of_In in Hx.
    destruct (decide (on_disk env x)) as [Hd|Hd]; [exact Hd|].
    destruct (Hinv x Hx Hd).
  - rewrite cleanup_loop_step.
    destruct (fs_access env (path doc)) eqn:Hacc.
    + apply IH. intros x Hx Hd. destruct (Hinv x Hx Hd) as [<-|Hin]; [|exact Hin].
      exfalso. apply Hd. exact Hacc.
    + case_bool_decide as Hex.
      * destruct (IH (deleted + 1) errors
                    (set_document (fun l => filter (fun x => doc_id x <> doc_id doc) l) st))
          as (r & st' & Hr & Hall & Hsub & Hc & Hn & Ha & Hcn).
        { cbn [document set_document]. intros x Hx Hd.
          apply list_elem_of_In, list_elem_of_filter in Hx. destruct Hx as [Hne Hx].
          apply list_elem_of_In in Hx.
          destruct (Hinv x Hx Hd) as [<-|Hin]; [contradiction | exact Hin]. }
        exists r, st'. split; [exact Hr|]. split; [exact Hall|].
        split; [|repeat split; assumption].
        intros x Hx. specialize (Hsub x Hx). cbn [document set_document] in Hsub.
        apply list_elem_of_In, list_elem_of_filter in Hsub.
        apply list_elem_of_In, Hsub.
      * apply IH. intros x Hx Hd. destruct (Hinv x Hx Hd) as [<-|Hin]; [|exact Hin].
        exfalso. apply Hex. apply Exists_exists. exists doc.
        split; [apply list_elem_of_In; exact Hx | reflexivity].
Qed.

(** With unique ids: every orphan is deleted, nothing else, and no delete
    fails. *)
Lemma cleanup_loop_unique (env : Env) (visited documents : list Document)
    (deleted errors : Z) (st : State) :
  NoDup (map doc_id (visited ++ documents)%list) ->
  document st = (filter (on_disk env) visited ++ documents)%list ->
  exists st',
    FileService.cleanup_loop env documents deleted errors st =
      (Ok {| FileService.deleted :=
               deleted + Z.of_nat (length (filter (fun d => ~ on_disk env d) documents));
             FileService.errors := errors |}, st')
    /\ document st' = filter (on_disk env) (visited ++ documents)%list.
Proof.
  revert visited deleted errors st.
  induction documents as [|doc rest IH]; intros visited deleted errors st Hnd Hdoc.
  - eexists. split.
    + cbn [FileService.cleanup_loop ret filter length]. rewrite Z.add_0_r. reflexivity.
    + cbn [snd]. rewrite Hdoc, !app_nil_r. reflexivity.
  - rewrite cleanup_loop_step.
    assert ((visited ++ doc :: rest)%list = ((visited ++ [doc]) ++ rest)%list) as Happ
      by (rewrite <- app_assoc; reflexivity).
    destruct (fs_access env (path doc)) eqn:Hacc.
    + destruct (IH (visited ++ [doc])%list deleted errors st) as (st' & Hr & Hd').
      { rewrite <- Happ. exact Hnd. }
      { rewrite Hdoc, filter_app, filter_cons, filter_nil.
        destruct (decide (on_disk env doc)) as [_|Hno]; [|contradiction].
        rewrite <- app_assoc. reflexivity. }
      exists st'. rewrite Happ. split; [|exact Hd'].
      rewrite Hr. rewrite (filter_cons (fun d => ~ on_disk env d)).
      destruct (decide (~ on_disk env doc)) as [Hno|_]; [contradiction | reflexivity].
    + assert (~ on_disk env doc) as Hno by (unfold on_disk; rewrite Hacc; discriminate).
      case_bool_decide as Hex.
      * destruct (IH (visited ++ [doc])%list (deleted + 1) errors
                    (set_document (fun l => filter (fun x => doc_id x <> doc_id doc) l) st))
          as (st' & Hr & Hd').
        { rewrite <- Happ. exact Hnd. }
        { cbn [document set_document]. rewrite Hdoc.
          rewrite (filter_app (on_disk env)), (filter_cons (on_disk env)), filter_nil.
          destruct (decide (on_disk env doc)) as [Hyes|_]; [contradiction|].
          rewrite app_nil_r.
          rewrite (filter_app (fun x => doc_id x <> doc_id doc)).
          rewrite (filter_cons (fun x => doc_id x <> doc_id doc)).
          destruct (decide (doc_id doc <> doc_id doc)) as [Hc|_]; [congruence|].
          assert (forall y, In y (visited ++ rest)%list -> doc_id y <> doc_id doc) as Hother.
          { intros y Hy Heq. rewrite map_app in Hnd. cbn [map] in Hnd.
            apply NoDup_app in Hnd. destruct Hnd as (_ & Hdisj & Hnd2).
            apply NoDup_cons in Hnd2. destruct Hnd2 as [Hnotin _].
            apply in_app_or in Hy. destruct Hy as [Hy|Hy].
            - apply (Hdisj (doc_id doc)).
              + apply list_elem_of_In, in_map_iff. exists y. split; assumption.
              + left.
            - apply Hnotin. apply list_elem_of_In, in_map_iff. exists y. split; assumption. }
          rewrite !filter_other_ids; [reflexivity | |].
          - apply Forall_forall. intros y Hy. apply Hother, in_or_app. right.
            apply list_elem_of_In. exact Hy.
          - apply Forall_forall. intros y Hy. apply Hother, in_or_app. left.
            apply list_elem_of_In in Hy. apply list_elem_of_In.
            apply list_elem_of_In in Hy. apply list_elem_of_filter in Hy. apply Hy. }
        exists st'. rewrite Happ. split; [|exact Hd'].
        rewrite Hr. rewrite (filter_cons (fun d => ~ on_disk env d)).
        destruct (decide (~ on_disk env doc)) as [_|Hc]; [|contradiction].
        cbn [length]. do 2 f_equal. f_equal. lia.
      * exfalso. apply Hex. apply Exists_exists. exists doc.
        split; [|reflexivity]. rewrite Hdoc. apply list_elem_of_In, in_or_app.
        right. left. reflexivity.
Qed.

(** X30. [cleanupOrphanedFiles] only removes document rows and touches no
    other table; afterwards every remaining row has its file on disk.  With
    unique document ids it removes exactly the rows whose file is missing,
    keeps the others in order, reports their number as [deleted] and reports
    no error. *)
Theorem cleanupOrphanedFiles_removes_orphans (env : Env) (st : State) :
  (exists r st',
      FileService.cleanupOrphanedFiles env st = (Ok r, st')
      /\ Forall (on_disk env) (document st')
      /\ (forall x, In x (document st') -> In x (document st))
      /\ company st' = company st /\ notification st' = notification st
      /\ auditLog st' = auditLog st /\ console st' = console st)
  /\ (NoDup (map doc_id (document st)) ->
      exists st',
        FileService.cleanupOrphanedFiles env st =
          (Ok {| FileService.deleted :=
                   Z.of_nat (length (filter (fun d => ~ on_disk env d) (document st)));
                 FileService.errors := 0 |}, st')
        /\ document st' = filter (on_disk env) (document st)).
Proof.
  unfold FileService.cleanupOrphanedFiles, bind, gets. split.
  - apply cleanup_loop_general. intros x Hx _. exact Hx.
  - intros Hnd.
    destruct (cleanup_loop_unique env [] (document st) 0 0 st Hnd eq_refl) as (st' & Hr & Hd).
    exists st'. split; [|exact Hd]. rewrite Hr. reflexivity.
Qed.

Lemma cleanupOrphanedFiles_removes_orphans_witness :
  exists st',
    FileService.cleanupOrphanedFiles lossy_env sample_state =
      (Ok {| FileService.deleted := 1; FileService.errors := 0 |}, st')
    /\ document st' = [sample_document "d-1" "other"; sample_document "d-3" "other"].
Proof.
  destruct (proj2 (cleanupOrphanedFiles_removes_orphans lossy_env sample_state))
    as (st' & Hr & Hd).
  - apply (bool_decide_eq_true_1 _). vm_compute. reflexivity.
  - exists st'. split; [rewrite Hr; reflexivity | rewrite Hd; reflexivity].
Defined.
